(** * Event management: visibility, RSVP and review ledgers

    A shallow embedding of the Django application [events_api_app]
    (models.py, permissions.py, serializers.py, views.py and
    frontend_views.py) together with the properties its specification
    states about it.

    Conventions of the embedding:
    - a database table is the list of its rows, oldest insertion first;
    - a user is referred to by primary key; [request.user] is either
      Django's [AnonymousUser] or a stored [User];
    - a timezone-aware [datetime] is the integer instant it denotes;
    - a Python [str] is a [string] whose characters are code points
      below 256;
    - a view takes the database and the request and returns the response
      together with the database it leaves behind. *)

From Stdlib Require Import Ascii String.
From stdpp Require Import base numbers strings list gmap fin_maps sorting.

Local Open Scope string_scope.
Local Open Scope list_scope.

(** ** Identity *)

Inductive user : Type :=
| AnonymousUser
| User (pk : nat).

Global Instance user_eq_dec : EqDecision user.
Proof. solve_decision. Defined.

Definition is_authenticated (u : user) : bool :=
  match u with
  | AnonymousUser => false
  | User _ => true
  end.

(** [a == b] on user objects: model instances are equal when their
    primary keys are; the anonymous user equals only itself. *)
Definition user_eqb (a b : user) : bool := bool_decide (a = b).

(** [u in queryset]: iteration with [==]. *)
Definition user_in (u : user) (qs : list user) : bool := existsb (user_eqb u) qs.

(** ** models.py *)

Module Event.
Record t : Type := mk {
  id : nat;
  title : string;
  description : string;
  organizer : nat;
  location : string;
  start_time : Z;
  end_time : Z;
  is_public : bool;
  invited_users : list nat;
  created_at : Z;
  updated_at : Z
}.

(** [event.invited_users.all()] *)
Definition invited_users_all (e : t) : list user := map User (invited_users e).
End Event.

Module RSVP.
Definition STATUS_GOING : string := "Going".
Definition STATUS_MAYBE : string := "Maybe".
Definition STATUS_NOT_GOING : string := "Not Going".
Definition STATUS_CHOICES : list (string * string) :=
  [ (STATUS_GOING, "Going"); (STATUS_MAYBE, "Maybe"); (STATUS_NOT_GOING, "Not Going") ].

Record t : Type := mk {
  id : nat;
  event : nat;
  user : nat;
  status : string;
  created_at : Z
}.
End RSVP.

Module Review.
Record t : Type := mk {
  id : nat;
  event : nat;
  user : nat;
  rating : Z;
  comment : string;
  created_at : Z
}.
End Review.

(** The database: the three tables of the application, the usernames
    of [auth_user], and the next value of each auto-increment key. *)
Record DB : Type := mkDB {
  db_events : list Event.t;
  db_rsvps : list RSVP.t;
  db_reviews : list Review.t;
  usernames : list (nat * string);
  next_event_id : nat;
  next_rsvp_id : nat;
  next_review_id : nat
}.

Definition set_events (db : DB) (l : list Event.t) (n : nat) : DB :=
  mkDB l (db_rsvps db) (db_reviews db) (usernames db) n (next_rsvp_id db) (next_review_id db).
Definition set_rsvps (db : DB) (l : list RSVP.t) (n : nat) : DB :=
  mkDB (db_events db) l (db_reviews db) (usernames db) (next_event_id db) n (next_review_id db).
Definition set_reviews (db : DB) (l : list Review.t) (n : nat) : DB :=
  mkDB (db_events db) (db_rsvps db) l (usernames db) (next_event_id db) (next_rsvp_id db) n.

(** [get_object_or_404(Event, id=event_id)] *)
Definition get_event (db : DB) (event_id : nat) : option Event.t :=
  find (λ e, Nat.eqb (Event.id e) event_id) (db_events db).

(** ** permissions.py

    [has_object_permission] reads attributes with [getattr] defaults and
    wraps the membership test in [try/except]; it is embedded in a small
    monad that records each evaluation of [obj.invited_users.all()] and
    lets that evaluation raise. *)

Module Py.
Inductive effect : Type := InvitedUsersAll.

Inductive outcome (A : Type) : Type :=
| Returned (a : A)
| Raised.
Arguments Returned {A} a.
Arguments Raised {A}.

Definition M (A : Type) : Type := list effect * outcome A.

Definition ret {A} (a : A) : M A := ([], Returned a).
Definition raise {A} : M A := ([], Raised).
Definition bind {A B} (m : M A) (k : A → M B) : M B :=
  match m with
  | (tr, Returned a) => let '(tr', r) := k a in (tr ++ tr', r)
  | (tr, Raised) => (tr, Raised)
  end.
(** [try: m except Exception: h] *)
Definition try_except {A} (m : M A) (h : M A) : M A :=
  match m with
  | (tr, Returned a) => (tr, Returned a)
  | (tr, Raised) => let '(tr', r) := h in (tr ++ tr', r)
  end.
Definition tell (e : effect) : M unit := ([e], Returned tt).

Definition trace {A} (m : M A) : list effect := fst m.
Definition value {A} (m : M A) : outcome A := snd m.
End Py.

Global Instance py_ret : MRet Py.M := @Py.ret.
Global Instance py_bind : MBind Py.M := λ A B k m, Py.bind m k.

(** The object handed to a permission class.  An attribute that is
    missing is [None]; for [invited_users], [None] also stands for a
    relation whose evaluation fails. *)
Record pyobj : Type := mkObj {
  attr_is_public : option bool;
  attr_organizer : option user;
  attr_invited_users : option (list user)
}.

Definition obj_of_event (e : Event.t) : pyobj :=
  {| attr_is_public := Some (Event.is_public e);
     attr_organizer := Some (User (Event.organizer e));
     attr_invited_users := Some (Event.invited_users_all e) |}.

(** [obj.invited_users.all()] *)
Definition invited_users_all (obj : pyobj) : Py.M (list user) :=
  Py.tell Py.InvitedUsersAll ;;
  match attr_invited_users obj with
  | Some qs => Py.ret qs
  | None => Py.raise
  end.

Module IsInvitedOrPublic.
(** [request_user] is [None] when the request carries no user object. *)
Definition has_object_permission (request_user : option user) (obj : pyobj)
  : Py.M bool :=
  if default false (attr_is_public obj) then Py.ret true
  else
    match request_user with
    | None => Py.ret false
    | Some u =>
        if negb (is_authenticated u) then Py.ret false
        else if bool_decide (attr_organizer obj = Some u) then Py.ret true
        else
          Py.try_except
            (qs ← invited_users_all obj; Py.ret (user_in u qs))
            (Py.ret false)
    end.
End IsInvitedOrPublic.

(** The visibility resolver on stored events. *)
Definition can_view (viewer : user) (e : Event.t) : Py.outcome bool :=
  Py.value (IsInvitedOrPublic.has_object_permission (Some viewer) (obj_of_event e)).

(** The gate of [event_detail_view]: [true] when the view redirects
    with "You are not allowed to view this private event." *)
Definition detail_denied (request_user : user) (event : Event.t) : bool :=
  if negb (Event.is_public event) then
    negb (is_authenticated request_user)
    || (negb (user_eqb request_user (User (Event.organizer event)))
        && negb (user_in request_user (Event.invited_users_all event)))
  else false.

(** ** Python built-ins used by the views *)

Module PyStr.
Definition chars (s : string) : list ascii := list_ascii_of_string s.
Definition of_chars (l : list ascii) : string := string_of_list_ascii l.

(** [str.isspace] on code points below 256. *)
Definition isspace (c : ascii) : bool :=
  let n := nat_of_ascii c in
  (((9 <=? n) && (n <=? 13)) || ((28 <=? n) && (n <=? 32))
   || (n =? 133) || (n =? 160))%nat.

Fixpoint lstrip_chars (l : list ascii) : list ascii :=
  match l with
  | c :: l' => if isspace c then lstrip_chars l' else l
  | [] => []
  end.

Definition strip_chars (l : list ascii) : list ascii :=
  rev (lstrip_chars (rev (lstrip_chars l))).

(** [s.strip()] *)
Definition strip (s : string) : string := of_chars (strip_chars (chars s)).

(** [s.replace(a, b)] for single characters. *)
Definition replace (a b : ascii) (s : string) : string :=
  of_chars (map (λ c, if Ascii.eqb c a then b else c) (chars s)).

Fixpoint split_chars (sep : ascii) (cur : list ascii) (l : list ascii)
  : list (list ascii) :=
  match l with
  | [] => [rev cur]
  | c :: l' =>
      if Ascii.eqb c sep then rev cur :: split_chars sep [] l'
      else split_chars sep (c :: cur) l'
  end.

(** [s.split(sep)] for a single-character separator. *)
Definition split (sep : ascii) (s : string) : list string :=
  map of_chars (split_chars sep [] (chars s)).

Definition digit (c : ascii) : option Z :=
  let n := nat_of_ascii c in
  if ((48 <=? n) && (n <=? 57))%nat then Some (Z.of_nat n - 48)%Z else None.

(** Decimal digits with single underscores allowed between digits. *)
Fixpoint digits (acc : Z) (after_digit : bool) (l : list ascii) : option Z :=
  match l with
  | [] => if after_digit then Some acc else None
  | c :: l' =>
      if Ascii.eqb c "_" then
        if after_digit then digits acc false l' else None
      else
        match digit c with
        | Some d => digits (10 * acc + d)%Z true l'
        | None => None
        end
  end.

(** The whitespace [int] skips around a literal, on code points below
    256: the six ASCII whitespace characters, and the two spaces above
    127, which [int] first replaces by a blank.  The separators 28 to 31
    are whitespace for [str.isspace] and [str.strip], not for [int]. *)
Definition int_space (c : ascii) : bool :=
  let n := nat_of_ascii c in
  (((9 <=? n) && (n <=? 13)) || (n =? 32) || (n =? 133) || (n =? 160))%nat.

Fixpoint int_lstrip (l : list ascii) : list ascii :=
  match l with
  | c :: l' => if int_space c then int_lstrip l' else l
  | [] => []
  end.

Definition int_strip (l : list ascii) : list ascii :=
  rev (int_lstrip (rev (int_lstrip l))).

(** [sys.int_info.default_max_str_digits]: a literal with more digits
    is refused. *)
Definition int_max_str_digits : Z := 4300.

(** The digits of a literal, underscores not counted. *)
Fixpoint count_digits (l : list ascii) : Z :=
  match l with
  | c :: l' =>
      match digit c with
      | Some _ => (1 + count_digits l')%Z
      | None => count_digits l'
      end
  | [] => 0%Z
  end.

(** [int(s)] for a string: [None] stands for [ValueError]. *)
Definition int (s : string) : option Z :=
  match int_strip (chars s) with
  | c :: l =>
      let signed := Ascii.eqb c "-" || Ascii.eqb c "+" in
      if (int_max_str_digits <? count_digits (if signed then l else c :: l))%Z then None
      else if Ascii.eqb c "-" then Z.opp <$> digits 0 false l
      else if Ascii.eqb c "+" then digits 0 false l
      else digits 0 false (c :: l)
  | [] => None
  end.
End PyStr.

(** A value reaching [int(...)] or [isinstance(..., int)]. *)
Inductive pyvalue : Type :=
| PyNone
| PyInt (z : Z)
| PyStr (s : string).

(** [int(value)]: [None] stands for [TypeError] or [ValueError]. *)
Definition py_int (v : pyvalue) : option Z :=
  match v with
  | PyNone => None
  | PyInt z => Some z
  | PyStr s => PyStr.int s
  end.

(** ** Querysets *)

Section Queryset.
Context {A : Type}.

(** Insertion into a list that is descending in [key]; the new row goes
    before the rows it ties with. *)
Fixpoint insert_desc (key : A → Z) (x : A) (l : list A) : list A :=
  match l with
  | [] => [x]
  | y :: l' =>
      if (key y <=? key x)%Z then x :: y :: l' else y :: insert_desc key x l'
  end.

(** One admissible result of [ORDER BY key DESC]: rows that tie keep
    their table order. *)
Definition order_by_desc (key : A → Z) (l : list A) : list A :=
  foldr (insert_desc key) [] l.

(** [UPDATE ... WHERE id = new.id] *)
Definition save_row (id : A → nat) (new : A) (table : list A) : list A :=
  map (λ x, if Nat.eqb (id x) (id new) then new else x) table.
End Queryset.

(** What a request can leave unhandled. *)
Inductive exn : Type :=
| IntegrityError
| MultipleObjectsReturned
| KeyError
| ValueError.

(** ** serializers.py *)

(** Body of an RSVP request after field parsing. *)
Record rsvp_data : Type := mkRsvpData {
  d_event : option nat;
  d_status : option string
}.

Module RSVPSerializer.
(** [None] stands for [ValidationError]. *)
Definition validate_status (value : string) : option string :=
  let allowed := map fst RSVP.STATUS_CHOICES in
  if bool_decide (value ∈ allowed) then Some value else None.

(** [event] is a [PrimaryKeyRelatedField] over [Event.objects.all()]. *)
Definition field_event (db : DB) (partial : bool) (v : option nat)
  : list string + option nat :=
  match v with
  | Some pk =>
      match get_event db pk with
      | Some e => inr (Some (Event.id e))
      | None => inl ["event"]
      end
  | None => if partial then inr None else inl ["event"]
  end.

Definition field_status (partial : bool) (v : option string)
  : list string + option string :=
  match v with
  | Some s =>
      match validate_status s with
      | Some s' => inr (Some s')
      | None => inl ["status"]
      end
  | None => if partial then inr None else inl ["status"]
  end.

(** [is_valid()]: the names of the rejected fields ([serializer.errors])
    or [validated_data]. *)
Definition is_valid (db : DB) (partial : bool) (data : rsvp_data)
  : list string + rsvp_data :=
  match field_event db partial (d_event data),
        field_status partial (d_status data) with
  | inr e, inr s => inr (mkRsvpData e s)
  | inl e1, inl e2 => inl (e1 ++ e2)
  | inl e1, inr _ => inl e1
  | inr _, inl e2 => inl e2
  end.
End RSVPSerializer.

(** Body of a review request after field parsing: [rating] is the
    integer the [IntegerField] produced. *)
Record review_data : Type := mkReviewData {
  d_rating : option Z;
  d_comment : option string
}.

Module ReviewSerializer.
(** [None] stands for [ValidationError]. *)
Definition validate_rating (value : pyvalue) : option Z :=
  match (match value with PyInt z => Some z | _ => py_int value end) with
  | Some z => if ((z <? 1) || (5 <? z))%Z then None else Some z
  | None => None
  end.

Definition field_rating (v : option Z) : list string + Z :=
  match v with
  | Some z =>
      match validate_rating (PyInt z) with
      | Some z' => inr z'
      | None => inl ["rating"]
      end
  | None => inl ["rating"]
  end.

(** [comment] is optional, may be blank, and is trimmed by the field. *)
Definition field_comment (v : option string) : string :=
  match v with
  | Some s => PyStr.strip s
  | None => ""
  end.

(** [is_valid()] once the view has set [data['event']] to a stored event. *)
Definition is_valid (data : review_data) : list string + (Z * string) :=
  match field_rating (d_rating data) with
  | inr z => inr (z, field_comment (d_comment data))
  | inl e => inl e
  end.
End ReviewSerializer.

(** Body of an event request after field parsing: the two times are the
    instants the [DateTimeField]s produced.  Only the presence of the
    required fields is checked here; the further checks of the generated
    fields (blank or over-long text) reject more requests and store
    nothing. *)
Record event_data : Type := mkEventData {
  d_title : option string;
  d_description : option string;
  d_location : option string;
  d_start_time : option Z;
  d_end_time : option Z;
  d_is_public : option bool;
  d_invited_users : option (list nat)
}.

Module EventSerializer.
(** [validate(self, data)]: [None] stands for [ValidationError]; a
    [datetime] is always truthy, so [start and end] only asks for both
    to be there. *)
Definition validate (instance : option Event.t) (data : event_data)
  : option event_data :=
  let start :=
    match d_start_time data with
    | Some s => Some s
    | None => Event.start_time <$> instance
    end in
  let end_ :=
    match d_end_time data with
    | Some e => Some e
    | None => Event.end_time <$> instance
    end in
  match start, end_ with
  | Some s, Some e => if (e <=? s)%Z then None else Some data
  | _, _ => Some data
  end.

Definition user_exists (db : DB) (pk : nat) : bool :=
  existsb (λ u, Nat.eqb (fst u) pk) (usernames db).

Definition required {A} (name : string) (v : option A) : list string :=
  match v with
  | Some _ => []
  | None => [name]
  end.

Definition missing (partial : bool) (data : event_data) : list string :=
  if partial then []
  else
    required "title" (d_title data)
    ++ required "location" (d_location data)
    ++ required "start_time" (d_start_time data)
    ++ required "end_time" (d_end_time data).

Definition unknown_invited (db : DB) (data : event_data) : list string :=
  match d_invited_users data with
  | Some l => if forallb (user_exists db) l then [] else ["invited_users"]
  | None => []
  end.

(** [is_valid()]: field errors first, then [validate]. *)
Definition is_valid (db : DB) (instance : option Event.t) (partial : bool)
    (data : event_data) : list string + event_data :=
  match missing partial data ++ unknown_invited db data with
  | [] =>
      match validate instance data with
      | Some vd => inr vd
      | None => inl ["start_time"]
      end
  | errs => inl errs
  end.

(** [create(self, validated_data)] with the [organizer] given to [save]. *)
Definition create (db : DB) (now : Z) (organizer : nat) (vd : event_data)
  : Event.t * DB :=
  let invited := default [] (d_invited_users vd) in
  let event :=
    Event.mk (next_event_id db)
      (default "" (d_title vd)) (default "" (d_description vd)) organizer
      (default "" (d_location vd))
      (default 0%Z (d_start_time vd)) (default 0%Z (d_end_time vd))
      (default true (d_is_public vd))
      (remove_dups invited) now now in
  (event, set_events db (db_events db ++ [event]) (S (next_event_id db))).

(** [update(self, instance, validated_data)] *)
Definition update (db : DB) (now : Z) (instance : Event.t) (vd : event_data)
  : Event.t * DB :=
  let event :=
    Event.mk (Event.id instance)
      (default (Event.title instance) (d_title vd))
      (default (Event.description instance) (d_description vd))
      (Event.organizer instance)
      (default (Event.location instance) (d_location vd))
      (default (Event.start_time instance) (d_start_time vd))
      (default (Event.end_time instance) (d_end_time vd))
      (default (Event.is_public instance) (d_is_public vd))
      (match d_invited_users vd with
       | Some invited => remove_dups invited
       | None => Event.invited_users instance
       end)
      (Event.created_at instance) now in
  (event, set_events db (save_row Event.id event (db_events db)) (next_event_id db)).
End EventSerializer.

(** ** The object managers *)

Definition rsvp_of (event user : nat) (r : RSVP.t) : bool :=
  Nat.eqb (RSVP.event r) event && Nat.eqb (RSVP.user r) user.

Definition review_of (event user : nat) (r : Review.t) : bool :=
  Nat.eqb (Review.event r) event && Nat.eqb (Review.user r) user.

Module RSVPObjects.
(** [RSVP.objects.update_or_create(event=.., user=.., defaults={'status': ..})] *)
Definition update_or_create (db : DB) (now : Z) (event user : nat)
    (status : string) : exn + (RSVP.t * bool * DB) :=
  match filter (λ r, rsvp_of event user r) (db_rsvps db) with
  | [] =>
      let obj := RSVP.mk (next_rsvp_id db) event user status now in
      inr (obj, true, set_rsvps db (db_rsvps db ++ [obj]) (S (next_rsvp_id db)))
  | [r] =>
      let obj := RSVP.mk (RSVP.id r) (RSVP.event r) (RSVP.user r) status
                   (RSVP.created_at r) in
      inr (obj, false, set_rsvps db (save_row RSVP.id obj (db_rsvps db)) (next_rsvp_id db))
  | _ :: _ :: _ => inl MultipleObjectsReturned
  end.

(** [instance.save()] of a stored row: the unique constraint on
    (event, user) is checked against the other rows. *)
Definition save (db : DB) (obj : RSVP.t) : exn + DB :=
  if existsb (λ r, rsvp_of (RSVP.event obj) (RSVP.user obj) r
                   && negb (Nat.eqb (RSVP.id r) (RSVP.id obj))) (db_rsvps db)
  then inl IntegrityError
  else inr (set_rsvps db (save_row RSVP.id obj (db_rsvps db)) (next_rsvp_id db)).
End RSVPObjects.

Module ReviewObjects.
(** [Review.objects.create(...)]: [unique_together] is enforced. *)
Definition create (db : DB) (now : Z) (event user : nat) (rating : Z)
    (comment : string) : exn + (Review.t * DB) :=
  if existsb (review_of event user) (db_reviews db) then inl IntegrityError
  else
    let obj := Review.mk (next_review_id db) event user rating comment now in
    inr (obj, set_reviews db (db_reviews db ++ [obj]) (S (next_review_id db))).

(** [existing.save()] with the key fields untouched. *)
Definition save (db : DB) (obj : Review.t) : DB :=
  set_reviews db (save_row Review.id obj (db_reviews db)) (next_review_id db).
End ReviewObjects.

(** ** views.py *)

Inductive body : Type :=
| Detail (msg : string)
| Errors (fields : list string)
| RSVPData (r : RSVP.t)
| ReviewData (r : Review.t)
| ReviewList (l : list Review.t)
| EventData (e : Event.t)
| EventList (l : list Event.t).

(** What the framework sends back: the view's own [Response], or the
    result of an exception raised before or inside the view. *)
Inductive response : Type :=
| Response (data : body) (status : nat)
| NotAuthenticated
| PermissionDenied
| Http404
| ServerError (e : exn).

Definition HTTP_200_OK : nat := 200.
Definition HTTP_201_CREATED : nat := 201.
Definition HTTP_400_BAD_REQUEST : nat := 400.
Definition HTTP_403_FORBIDDEN : nat := 403.

(** ** The views

    [ORDER BY] is the database's: the views are written over any
    [order_by], of which [order_by_desc] above is one instance.
    [parse_datetime] and [make_aware] are Django's: the former answers
    [None] for a string of the wrong shape and raises [ValueError] for a
    well-shaped string that is no date. *)

Inductive pydatetime : Type :=
| Naive (wall : Z)
| Aware (instant : Z).

Inductive level : Type := ERROR | WARNING | SUCCESS.

Record request : Type := mkRequest {
  request_user : user;
  request_method : string;
  request_POST : gmap string string
}.

Record summary : Type := mkSummary {
  s_event : Event.t;
  s_rsvp_counts : gmap string nat;
  s_review_count : nat;
  s_user_rsvp : option string
}.

Record detail_context : Type := mkDetail {
  c_event : Event.t;
  c_reviews : list Review.t;
  c_user_rsvp : option RSVP.t;
  c_rsvp_counts : gmap string nat;
  c_review_count : nat
}.

(** What a server-rendered view answers with. *)
Inductive page : Type :=
| RedirectToLogin
| NotFound
| Redirect (to : string) (event_id : option nat) (messages : list (level * string))
| RenderList (events_summary : list summary)
| RenderDetail (context : detail_context)
| RenderCreate.

(** The tally loop shared by [events_list_view] and [event_detail_view]:
    [counts['Not_Going'] += 1] or [counts[st] = counts.get(st, 0) + 1]. *)
Definition count_status (counts : gmap string nat) (st : string) : gmap string nat :=
  if String.eqb st "Not Going" then
    <["Not_Going" := (counts !!! "Not_Going" + 1)%nat]> counts
  else
    <[st := (default 0%nat (counts !! st) + 1)%nat]> counts.

Definition counts_init : gmap string nat :=
  <["Going" := 0%nat]> (<["Maybe" := 0%nat]> (<["Not_Going" := 0%nat]> ∅)).

(** [ev.invited_users.add(u)] *)
Definition invited_add (db : DB) (event_id u : nat) : DB :=
  set_events db
    (map (λ e,
       if Nat.eqb (Event.id e) event_id && negb (bool_decide (u ∈ Event.invited_users e))
       then Event.mk (Event.id e) (Event.title e) (Event.description e)
              (Event.organizer e) (Event.location e) (Event.start_time e)
              (Event.end_time e) (Event.is_public e)
              (Event.invited_users e ++ [u]) (Event.created_at e) (Event.updated_at e)
       else e) (db_events db))
    (next_event_id db).

(** [User.objects.get(username=uname)]: [None] stands for [DoesNotExist]. *)
Definition get_user_by_username (db : DB) (uname : string) : option nat :=
  fst <$> find (λ u, String.eqb (snd u) uname) (usernames db).

Global Instance event_eq_dec : EqDecision Event.t.
Proof. solve_decision. Defined.

Section Views.
Variable order_by : ∀ A : Type, (A → Z) → list A → list A.
Variable parse_datetime : string → exn + option pydatetime.
Variable make_aware : Z → Z.

Arguments order_by {_} _ _.

(** *** views.py: [EventViewSet] *)

(** The rows of [Event LEFT OUTER JOIN invited_users]. *)
Definition joined (e : Event.t) : list (Event.t * option nat) :=
  match Event.invited_users e with
  | [] => [(e, None)]
  | l => map (λ u, (e, Some u)) l
  end.

(** [qs.filter(Q(is_public=True) | Q(invited_users=user) | Q(organizer=user)).distinct()]
    on [qs = Event.objects.all().order_by('-created_at')]. *)
Definition visible_to (uid : nat) (table : list Event.t) : list Event.t :=
  order_by Event.created_at
    (remove_dups
       (map fst
          (filter (λ row : Event.t * option nat,
                     Event.is_public (fst row)
                     || bool_decide (snd row = Some uid)
                     || Nat.eqb (Event.organizer (fst row)) uid)
                  (table ≫= joined)))).

(** [qs.filter(is_public=True)] *)
Definition public_only (table : list Event.t) : list Event.t :=
  order_by Event.created_at (filter (λ e, Event.is_public e) table).

(** [get_queryset] for the [list] action. *)
Definition get_queryset (db : DB) (u : user) : list Event.t :=
  match u with
  | User uid => visible_to uid (db_events db)
  | AnonymousUser => public_only (db_events db)
  end.

(** [perform_create] behind [POST /api/events/]. *)
Definition create (db : DB) (now : Z) (u : user) (data : event_data)
  : response * DB :=
  match u with
  | AnonymousUser => (NotAuthenticated, db)
  | User uid =>
      match EventSerializer.is_valid db None false data with
      | inl errs => (Response (Errors errs) HTTP_400_BAD_REQUEST, db)
      | inr vd =>
          let '(event, db') := EventSerializer.create db now uid vd in
          (Response (EventData event) HTTP_201_CREATED, db')
      end
  end.

(** [PUT] ([partial = false]) and [PATCH] ([partial = true]) on
    [/api/events/{id}/], behind [IsAuthenticatedOrReadOnly] and
    [IsOrganizerOrReadOnly]. *)
Definition update (db : DB) (now : Z) (u : user) (pk : nat) (partial : bool)
    (data : event_data) : response * DB :=
  if negb (is_authenticated u) then (NotAuthenticated, db)
  else
    match get_event db pk with
    | None => (Http404, db)
    | Some event =>
        if negb (user_eqb (User (Event.organizer event)) u) then (PermissionDenied, db)
        else
          match EventSerializer.is_valid db (Some event) partial data with
          | inl errs => (Response (Errors errs) HTTP_400_BAD_REQUEST, db)
          | inr vd =>
              let '(event', db') := EventSerializer.update db now event vd in
              (Response (EventData event') HTTP_200_OK, db')
          end
    end.

(** [POST /api/events/{id}/rsvp/] *)
Definition rsvp (db : DB) (now : Z) (u : user) (pk : nat) (data : rsvp_data)
  : response * DB :=
  match u with
  | AnonymousUser => (NotAuthenticated, db)
  | User uid =>
      match get_event db pk with
      | None => (Http404, db)
      | Some event =>
          if negb (Event.is_public event)
             && negb (user_eqb u (User (Event.organizer event)))
             && negb (user_in u (Event.invited_users_all event))
          then (Response (Detail "You are not allowed to RSVP to this private event.")
                  HTTP_403_FORBIDDEN, db)
          else
            let data := mkRsvpData (Some (Event.id event)) (d_status data) in
            match RSVPSerializer.is_valid db false data with
            | inl errs => (Response (Errors errs) HTTP_400_BAD_REQUEST, db)
            | inr vd =>
                match d_status vd with
                | None => (ServerError KeyError, db)
                | Some status_value =>
                    match RSVPObjects.update_or_create db now (Event.id event) uid
                            status_value with
                    | inl e => (ServerError e, db)
                    | inr (rsvp_obj, created, db') =>
                        (Response (RSVPData rsvp_obj)
                           (if created then HTTP_201_CREATED else HTTP_200_OK), db')
                    end
                end
            end
      end
  end.

(** [PATCH /api/events/{id}/rsvp/{user_id}/] *)
Definition update_rsvp (db : DB) (u : user) (pk user_id : nat) (data : rsvp_data)
  : response * DB :=
  if negb (is_authenticated u) then (NotAuthenticated, db)
  else
    match get_event db pk with
    | None => (Http404, db)
    | Some event =>
        match filter (λ r, rsvp_of (Event.id event) user_id r) (db_rsvps db) with
        | [] => (Http404, db)
        | [rsvp] =>
            if negb (user_eqb u (User (RSVP.user rsvp)))
               && negb (user_eqb u (User (Event.organizer event)))
            then (Response (Detail "Not allowed to update this RSVP.")
                    HTTP_403_FORBIDDEN, db)
            else
              match RSVPSerializer.is_valid db true data with
              | inl errs => (Response (Errors errs) HTTP_400_BAD_REQUEST, db)
              | inr vd =>
                  let obj :=
                    RSVP.mk (RSVP.id rsvp)
                      (default (RSVP.event rsvp) (d_event vd))
                      (RSVP.user rsvp)
                      (default (RSVP.status rsvp) (d_status vd))
                      (RSVP.created_at rsvp) in
                  match RSVPObjects.save db obj with
                  | inl e => (ServerError e, db)
                  | inr db' => (Response (RSVPData obj) HTTP_200_OK, db')
                  end
              end
        | _ :: _ :: _ => (ServerError MultipleObjectsReturned, db)
        end
    end.

(** [GET] and [POST /api/events/{id}/reviews/]; [data] is the body of a
    [POST], [None] for a [GET] (pagination is left out). *)
Definition reviews (db : DB) (now : Z) (u : user) (pk : nat)
    (data : option review_data) : response * DB :=
  match data with
  | Some data =>
      match u with
      | AnonymousUser => (NotAuthenticated, db)
      | User uid =>
          match get_event db pk with
          | None => (Http404, db)
          | Some event =>
              match ReviewSerializer.is_valid data with
              | inl errs => (Response (Errors errs) HTTP_400_BAD_REQUEST, db)
              | inr (rating, comment) =>
                  match ReviewObjects.create db now (Event.id event) uid rating comment with
                  | inl e => (ServerError e, db)
                  | inr (obj, db') => (Response (ReviewData obj) HTTP_201_CREATED, db')
                  end
              end
          end
      end
  | None =>
      match get_event db pk with
      | None => (Http404, db)
      | Some event =>
          (Response
             (ReviewList
                (order_by Review.created_at
                   (filter (λ r, Nat.eqb (Review.event r) (Event.id event)) (db_reviews db))))
             HTTP_200_OK, db)
      end
  end.

(** *** frontend_views.py *)

Definition _parse_datetime_input (value : string) : exn + option Z :=
  if String.eqb value "" then inr None
  else
    match parse_datetime value with
    | inl e => inl e
    | inr dt =>
        let dt :=
          match dt with
          | Some d => Some d
          | None =>
              match parse_datetime (PyStr.replace " " "T" value) with
              | inr d => d
              | inl _ => None
              end
          end in
        match dt with
        | None => inr None
        | Some (Naive wall) => inr (Some (make_aware wall))
        | Some (Aware instant) => inr (Some instant)
        end
    end.

(** The [counts] dictionary built for an event. *)
Definition rsvp_counts (db : DB) (ev : Event.t) : gmap string nat :=
  foldl count_status counts_init
    (map RSVP.status
       (order_by RSVP.created_at
          (filter (λ r, Nat.eqb (RSVP.event r) (Event.id ev)) (db_rsvps db)))).

(** [ev.reviews.count()] *)
Definition review_count (db : DB) (ev : Event.t) : nat :=
  length (filter (λ r, Nat.eqb (Review.event r) (Event.id ev)) (db_reviews db)).

(** [RSVP.objects.filter(event=ev, user=user).first()] *)
Definition current_user_rsvp (db : DB) (ev : Event.t) (u : user) : option RSVP.t :=
  match u with
  | User uid =>
      head (order_by RSVP.created_at
              (filter (λ r, rsvp_of (Event.id ev) uid r) (db_rsvps db)))
  | AnonymousUser => None
  end.

Definition events_list_view (db : DB) (req : request) : page :=
  let events := get_queryset db (request_user req) in
  RenderList
    (map (λ ev,
       mkSummary ev (rsvp_counts db ev) (review_count db ev)
         (RSVP.status <$> current_user_rsvp db ev (request_user req)))
       events).

Definition event_detail_view (db : DB) (req : request) (event_id : nat) : page :=
  match get_event db event_id with
  | None => NotFound
  | Some event =>
      if detail_denied (request_user req) event then
        Redirect "events_list" None
          [(ERROR, "You are not allowed to view this private event.")]
      else
        let reviews :=
          order_by Review.created_at
            (filter (λ r, Nat.eqb (Review.event r) (Event.id event)) (db_reviews db)) in
        RenderDetail
          (mkDetail event reviews (current_user_rsvp db event (request_user req))
             (rsvp_counts db event) (length reviews))
  end.

Definition rsvp_create_or_update (db : DB) (now : Z) (req : request) (event_id : nat)
  : exn + (page * DB) :=
  match request_user req with
  | AnonymousUser => inr (RedirectToLogin, db)
  | User uid =>
      match get_event db event_id with
      | None => inr (NotFound, db)
      | Some event =>
          if negb (Event.is_public event)
             && negb (user_eqb (User uid) (User (Event.organizer event)))
             && negb (user_in (User uid) (Event.invited_users_all event))
          then inr (Redirect "events_detail" (Some (Event.id event))
                      [(ERROR, "You are not invited to this private event.")], db)
          else if String.eqb (request_method req) "POST" then
            match request_POST req !! "status" with
            | Some status =>
                if bool_decide (status ∈ map fst RSVP.STATUS_CHOICES) then
                  match RSVPObjects.update_or_create db now (Event.id event) uid status with
                  | inl e => inl e
                  | inr (rsvp, created, db') =>
                      inr (Redirect "events_detail" (Some (Event.id event))
                             [(SUCCESS, "RSVP set to '" +:+ RSVP.status rsvp +:+ "'.")], db')
                  end
                else
                  inr (Redirect "events_detail" (Some (Event.id event))
                         [(ERROR, "Invalid RSVP status.")], db)
            | None =>
                inr (Redirect "events_detail" (Some (Event.id event))
                       [(ERROR, "Invalid RSVP status.")], db)
            end
          else inr (Redirect "events_detail" (Some (Event.id event)) [], db)
      end
  end.

(** The "basic validation" of [post_review]: [None] stands for the
    [except Exception] branch. *)
Definition rating_int (rating : option string) : option Z :=
  match rating with
  | Some s =>
      match PyStr.int s with
      | Some z => if ((z <? 1) || (5 <? z))%Z then None else Some z
      | None => None
      end
  | None => None
  end.

Definition post_review (db : DB) (now : Z) (req : request) (event_id : nat)
  : exn + (page * DB) :=
  match request_user req with
  | AnonymousUser => inr (RedirectToLogin, db)
  | User uid =>
      match get_event db event_id with
      | None => inr (NotFound, db)
      | Some event =>
          if String.eqb (request_method req) "POST" then
            let rating := request_POST req !! "rating" in
            let comment := PyStr.strip (default "" (request_POST req !! "comment")) in
            match rating_int rating with
            | None =>
                inr (Redirect "events_detail" (Some (Event.id event))
                       [(ERROR, "Rating must be an integer between 1 and 5.")], db)
            | Some rating_int =>
                match head (order_by Review.created_at
                              (filter (λ r, review_of (Event.id event) uid r)
                                 (db_reviews db))) with
                | Some existing =>
                    let obj :=
                      Review.mk (Review.id existing) (Review.event existing)
                        (Review.user existing) rating_int comment
                        (Review.created_at existing) in
                    inr (Redirect "events_detail" (Some (Event.id event))
                           [(SUCCESS, "Updated your review.")],
                         ReviewObjects.save db obj)
                | None =>
                    match ReviewObjects.create db now (Event.id event) uid
                            rating_int comment with
                    | inl e => inl e
                    | inr (_, db') =>
                        inr (Redirect "events_detail" (Some (Event.id event))
                               [(SUCCESS, "Review posted.")], db')
                    end
                end
            end
          else inr (Redirect "events_detail" (Some (Event.id event)) [], db)
      end
  end.

(** The loop over the invited usernames of [create_event_view]. *)
Fixpoint invite (db : DB) (event_id : nat) (unames : list string)
  : DB * list (level * string) :=
  match unames with
  | [] => (db, [])
  | uname :: rest =>
      match get_user_by_username db uname with
      | Some u =>
          invite (invited_add db event_id u) event_id rest
      | None =>
          let '(db', msgs) := invite db event_id rest in
          (db', (WARNING, "User '" +:+ uname +:+ "' not found — ignored.") :: msgs)
      end
  end.

Definition create_event_view (db : DB) (now : Z) (req : request)
  : exn + (page * DB) :=
  match request_user req with
  | AnonymousUser => inr (RedirectToLogin, db)
  | User uid =>
      if String.eqb (request_method req) "POST" then
        let field name := PyStr.strip (default "" (request_POST req !! name)) in
        let title := field "title" in
        let description := field "description" in
        let location := field "location" in
        let start_raw := field "start_time" in
        let end_raw := field "end_time" in
        let is_public :=
          negb (String.eqb (default "" (request_POST req !! "is_public")) "") in
        let invited_input := field "invited_users" in
        if String.eqb title "" then
          inr (Redirect "events_create" None [(ERROR, "Title is required.")], db)
        else if String.eqb start_raw "" || String.eqb end_raw "" then
          inr (Redirect "events_create" None
                 [(ERROR, "Start and end times are required.")], db)
        else
          match _parse_datetime_input start_raw, _parse_datetime_input end_raw with
          | inl e, _ => inl e
          | inr _, inl e => inl e
          | inr (Some start_dt), inr (Some end_dt) =>
              if (end_dt <=? start_dt)%Z then
                inr (Redirect "events_create" None
                       [(ERROR, "start_time must be before end_time.")], db)
              else
                let ev :=
                  Event.mk (next_event_id db) title description uid location
                    start_dt end_dt is_public [] now now in
                let db1 :=
                  set_events db (db_events db ++ [ev]) (S (next_event_id db)) in
                let usernames :=
                  filter (λ u, u ≠ "")
                    (map PyStr.strip (PyStr.split "," invited_input)) in
                let '(db2, warnings) := invite db1 (Event.id ev) usernames in
                inr (Redirect "events_detail" (Some (Event.id ev))
                       (warnings ++ [(SUCCESS, "Event created.")]), db2)
          | inr _, inr _ =>
              inr (Redirect "events_create" None
                     [(ERROR, "Invalid date/time format. Use the form fields provided.")],
                   db)
          end
      else inr (RenderCreate, db)
  end.
End Views.

(** * Further code of the application *)

(** ** permissions.py: [IsOrganizerOrReadOnly] *)

Definition SAFE_METHODS : list string := ["GET"; "HEAD"; "OPTIONS"].

Module IsOrganizerOrReadOnly.
(** [hasattr(obj, "organizer") and obj.organizer == request.user] for an
    unsafe method. *)
Definition has_object_permission (method : string) (request_user : user)
    (obj : pyobj) : bool :=
  if bool_decide (method ∈ SAFE_METHODS) then true
  else
    match attr_organizer obj with
    | Some organizer => user_eqb organizer request_user
    | None => false
    end.
End IsOrganizerOrReadOnly.

(** ** views.py: the permission stack of each action *)

Inductive permission : Type :=
| PermIsAuthenticated
| PermIsAuthenticatedOrReadOnly
| PermIsOrganizerOrReadOnly
| PermIsInvitedOrPublic.

(** The class attribute [permission_classes]. *)
Definition permission_classes : list permission :=
  [PermIsAuthenticatedOrReadOnly; PermIsOrganizerOrReadOnly].

(** [self.permission_classes] inside an action: the [@action] decorators
    of [rsvp], [update_rsvp] and [reviews] replace the class attribute. *)
Definition action_permission_classes (action : string) : list permission :=
  if String.eqb action "rsvp" || String.eqb action "update_rsvp" then
    [PermIsAuthenticated]
  else if String.eqb action "reviews" then [PermIsAuthenticatedOrReadOnly]
  else permission_classes.

Definition get_permissions (action : string) : list permission :=
  if String.eqb action "retrieve" then [PermIsInvitedOrPublic]
  else if String.eqb action "create" then [PermIsAuthenticated]
  else action_permission_classes action.

(** [has_permission] of each class; the two classes of the application
    inherit the default, which allows. *)
Definition has_permission (p : permission) (method : string) (u : user) : bool :=
  match p with
  | PermIsAuthenticated => is_authenticated u
  | PermIsAuthenticatedOrReadOnly =>
      bool_decide (method ∈ SAFE_METHODS) || is_authenticated u
  | PermIsOrganizerOrReadOnly | PermIsInvitedOrPublic => true
  end.

(** [has_object_permission] of each class; the two framework classes
    inherit the default, which allows. *)
Definition has_object_permission (p : permission) (method : string) (u : user)
    (obj : pyobj) : Py.M bool :=
  match p with
  | PermIsAuthenticated | PermIsAuthenticatedOrReadOnly => Py.ret true
  | PermIsOrganizerOrReadOnly =>
      Py.ret (IsOrganizerOrReadOnly.has_object_permission method u obj)
  | PermIsInvitedOrPublic => IsInvitedOrPublic.has_object_permission (Some u) obj
  end.

(** [check_permissions]: every class must allow the request. *)
Definition check_permissions (action method : string) (u : user) : bool :=
  forallb (λ p, has_permission p method u) (get_permissions action).

(** [check_object_permissions]: every class must allow the object; the
    classes are asked in order and the first refusal ends the check. *)
Fixpoint check_object (ps : list permission) (method : string) (u : user)
    (obj : pyobj) : Py.M bool :=
  match ps with
  | [] => Py.ret true
  | p :: rest =>
      Py.bind (has_object_permission p method u obj)
        (λ ok : bool, if ok then check_object rest method u obj else Py.ret false)
  end.

Definition check_object_permissions (action method : string) (u : user)
    (obj : pyobj) : Py.M bool :=
  check_object (get_permissions action) method u obj.

Definition HTTP_204_NO_CONTENT : nat := 204.

(** [GET /api/events/{id}/]: [Py.Raised] stands for an exception out of
    the permission check. *)
Definition retrieve (db : DB) (u : user) (pk : nat) : Py.outcome response :=
  if negb (check_permissions "retrieve" "GET" u) then Py.Returned NotAuthenticated
  else
    match get_event db pk with
    | None => Py.Returned Http404
    | Some event =>
        match Py.value (check_object_permissions "retrieve" "GET" u (obj_of_event event)) with
        | Py.Returned true => Py.Returned (Response (EventData event) HTTP_200_OK)
        | Py.Returned false =>
            Py.Returned (if is_authenticated u then PermissionDenied else NotAuthenticated)
        | Py.Raised => Py.Raised
        end
    end.

(** [instance.delete()] on an event: the foreign keys of [RSVP] and
    [Review] are declared [on_delete=models.CASCADE]. *)
Definition delete_event (db : DB) (event : Event.t) : DB :=
  mkDB
    (filter (λ e, Event.id e ≠ Event.id event) (db_events db))
    (filter (λ r, RSVP.event r ≠ Event.id event) (db_rsvps db))
    (filter (λ r, Review.event r ≠ Event.id event) (db_reviews db))
    (usernames db) (next_event_id db) (next_rsvp_id db) (next_review_id db).

(** The answer of [DELETE /api/events/{id}/]: an empty 204, or the
    refusal. *)
Inductive destroy_response : Type :=
| Deleted (status : nat)
| NotDeleted (r : response).

Definition destroy (db : DB) (u : user) (pk : nat) : destroy_response * DB :=
  if negb (check_permissions "destroy" "DELETE" u) then (NotDeleted NotAuthenticated, db)
  else
    match get_event db pk with
    | None => (NotDeleted Http404, db)
    | Some event =>
        match Py.value (check_object_permissions "destroy" "DELETE" u (obj_of_event event)) with
        | Py.Returned true => (Deleted HTTP_204_NO_CONTENT, delete_event db event)
        | _ => (NotDeleted PermissionDenied, db)
        end
    end.

(** ** models.py: [UserProfile], and signals.py *)

Module UserProfile.
Record t : Type := mk {
  id : nat;
  user : nat;
  full_name : string;
  bio : string;
  location : string;
  profile_picture : option string
}.

(** [__str__]: the full name, or the username when it is blank. *)
Definition __str__ (username : string) (p : t) : string :=
  if String.eqb (full_name p) "" then username else full_name p.
End UserProfile.

(** The profile table with its auto-increment key. *)
Record ProfileDB : Type := mkProfileDB {
  profiles : list UserProfile.t;
  next_profile_id : nat
}.

Module UserProfileObjects.
(** [UserProfile.objects.create(user=instance)]: the one-to-one field is
    unique. *)
Definition create (pdb : ProfileDB) (user : nat) : exn + (UserProfile.t * ProfileDB) :=
  if existsb (λ p, Nat.eqb (UserProfile.user p) user) (profiles pdb) then inl IntegrityError
  else
    let obj := UserProfile.mk (next_profile_id pdb) user "" "" "" None in
    inr (obj, mkProfileDB (profiles pdb ++ [obj]) (S (next_profile_id pdb))).

(** [instance.profile]: the outer [None] stands for
    [UserProfile.DoesNotExist]. *)
Definition related (pdb : ProfileDB) (user : nat) : exn + option UserProfile.t :=
  match filter (λ p, UserProfile.user p = user) (profiles pdb) with
  | [] => inr None
  | [p] => inr (Some p)
  | _ :: _ :: _ => inl MultipleObjectsReturned
  end.

(** [profile.save()] of a stored, unmodified profile. *)
Definition save (pdb : ProfileDB) (obj : UserProfile.t) : ProfileDB :=
  mkProfileDB (save_row UserProfile.id obj (profiles pdb)) (next_profile_id pdb).
End UserProfileObjects.

(** The database left by a statement whose result is dropped. *)
Definition and_then {A} (r : exn + (A * ProfileDB)) : exn + ProfileDB :=
  match r with
  | inl e => inl e
  | inr (_, pdb) => inr pdb
  end.

(** The [post_save] receiver of [User]. *)
Definition create_or_update_user_profile (pdb : ProfileDB) (instance : nat)
    (created : bool) : exn + ProfileDB :=
  if created then and_then (UserProfileObjects.create pdb instance)
  else
    match UserProfileObjects.related pdb instance with
    | inl e => inl e
    | inr (Some profile) => inr (UserProfileObjects.save pdb profile)
    | inr None => and_then (UserProfileObjects.create pdb instance)
    end.

Record profile_context : Type := mkProfileContext {
  pc_profile : UserProfile.t;
  pc_organized_events : list Event.t;
  pc_invited_events : list Event.t;
  pc_rsvps : list RSVP.t;
  pc_reviews : list Review.t
}.

Section ProfileView.
Variable order_by : ∀ A : Type, (A → Z) → list A → list A.
Arguments order_by {_} _ _.

(** [profile_view]: [None] stands for the redirect of [login_required]. *)
Definition profile_view (db : DB) (pdb : ProfileDB) (req : request)
  : exn + (option profile_context * ProfileDB) :=
  match request_user req with
  | AnonymousUser => inr (None, pdb)
  | User uid =>
      let ensured :=
        match UserProfileObjects.related pdb uid with
        | inl e => inl e
        | inr (Some profile) => inr (profile, pdb)
        | inr None => UserProfileObjects.create pdb uid
        end in
      match ensured with
      | inl e => inl e
      | inr (profile, pdb') =>
          inr (Some
                 (mkProfileContext profile
                    (order_by Event.created_at
                       (filter (λ e, Event.organizer e = uid) (db_events db)))
                    (order_by Event.created_at
                       (filter (λ e, uid ∈ Event.invited_users e) (db_events db)))
                    (order_by RSVP.created_at
                       (filter (λ r, RSVP.user r = uid) (db_rsvps db)))
                    (order_by Review.created_at
                       (filter (λ r, Review.user r = uid) (db_reviews db)))),
               pdb')
      end
  end.
End ProfileView.

(** * Vocabulary of the properties *)

(** ** Visibility *)

(** The rule of the visibility resolver, as a proposition. *)
Definition may_view (viewer : user) (e : Event.t) : Prop :=
  Event.is_public e = true
  ∨ (is_authenticated viewer = true
     ∧ (viewer = User (Event.organizer e) ∨ viewer ∈ Event.invited_users_all e)).

Global Instance may_view_dec viewer e : Decision (may_view viewer e).
Proof. unfold may_view. apply _. Defined.

(** ** Listing *)

(** The rule of the listing for an authenticated viewer. *)
Definition listed_for (uid : nat) (e : Event.t) : Prop :=
  Event.is_public e = true
  ∨ uid ∈ Event.invited_users e
  ∨ Event.organizer e = uid.

(** A second admissible ordering: rows that tie come back in reverse
    table order. *)
Definition order_by_desc_rev {A : Type} (key : A → Z) (l : list A) : list A :=
  order_by_desc key (rev l).

(** ** Aggregation *)

Definition valid_status (st : string) : Prop := st ∈ map fst RSVP.STATUS_CHOICES.

(** Every stored RSVP carries one of the three labels. *)
Definition statuses_valid (db : DB) : Prop :=
  ∀ r, r ∈ db_rsvps db → valid_status (RSVP.status r).


(** ** Ledgers *)

(** The constraints the database keeps on a table: primary keys are
    distinct and below the next auto-increment value, and the unique key
    is unique. *)
Record table_wf {A K : Type} (id : A → nat) (key : A → K) (l : list A) (next : nat)
  : Prop := mkTableWf {
  table_ids : NoDup (map id l);
  table_fresh : ∀ x, x ∈ l → (id x < next)%nat;
  table_unique : NoDup (map key l)
}.

Definition rsvp_key (r : RSVP.t) : nat * nat := (RSVP.event r, RSVP.user r).

(** The RSVP rows of a pair (event, user). *)
Definition rsvp_rows (db : DB) (e u : nat) : list RSVP.t :=
  filter (λ r, rsvp_of e u r) (db_rsvps db).

(** The constraints the database keeps on the RSVP table: primary keys
    are distinct and below the next auto-increment value, and
    [unique_together = ('event', 'user')]. *)
Record rsvps_wf (db : DB) : Prop := mkRsvpsWf {
  rsvp_ids : NoDup (map RSVP.id (db_rsvps db));
  rsvp_fresh : ∀ r, r ∈ db_rsvps db → (RSVP.id r < next_rsvp_id db)%nat;
  rsvp_unique : NoDup (map rsvp_key (db_rsvps db))
}.

(** A call of the [rsvp] action, and runs of such calls. *)
Record rsvp_call : Type := mkRsvpCall {
  call_now : Z;
  call_user : user;
  call_pk : nat;
  call_data : rsvp_data
}.

Definition do_rsvp (db : DB) (c : rsvp_call) : response * DB :=
  rsvp db (call_now c) (call_user c) (call_pk c) (call_data c).

Definition run_rsvp (db : DB) (calls : list rsvp_call) : DB :=
  foldl (λ db c, snd (do_rsvp db c)) db calls.

(** The call answered with the serialized RSVP (201 or 200). *)
Definition rsvp_succeeded (resp : response) : bool :=
  match resp with
  | Response (RSVPData _) _ => true
  | _ => false
  end.

(** The status asked for by the most recent successful call of the run
    for the pair (event [e], user [u]), if there is one. *)
Fixpoint latest_status (e u : nat) (db : DB) (calls : list rsvp_call) : option string :=
  match calls with
  | [] => None
  | c :: rest =>
      match latest_status e u (snd (do_rsvp db c)) rest with
      | Some st => Some st
      | None =>
          if rsvp_succeeded (fst (do_rsvp db c))
             && bool_decide (call_pk c = e ∧ call_user c = User u)
          then d_status (call_data c)
          else None
      end
  end.

Definition review_key (r : Review.t) : nat * nat := (Review.event r, Review.user r).

Definition review_rows (db : DB) (e u : nat) : list Review.t :=
  filter (λ r, review_of e u r) (db_reviews db).

(** The constraints the database keeps on the review table. *)
Definition reviews_wf (db : DB) : Prop :=
  table_wf Review.id review_key (db_reviews db) (next_review_id db).

(** ** The time window of an event *)



(** ** Sample data *)

Module Sample.
Definition e1 : Event.t := Event.mk 1 "Picnic" "" 10 "Park" 100 200 true [] 5 5.
Definition e2 : Event.t := Event.mk 2 "Dinner" "" 10 "Home" 300 400 true [12] 5 5.
Definition e3 : Event.t := Event.mk 3 "Board" "" 11 "Office" 500 600 false [12; 13] 7 7.

Definition r1 : RSVP.t := RSVP.mk 1 1 12 "Going" 6.
Definition r2 : RSVP.t := RSVP.mk 2 1 13 "Not Going" 6.
Definition r3 : RSVP.t := RSVP.mk 3 3 12 "Maybe" 8.

Definition db : DB :=
  mkDB [e1; e2; e3] [r1; r2; r3] []
    [(10, "ann"); (11, "bob"); (12, "cat"); (13, "dan"); (14, "eve")]
    4 4 1.

(** User 12 answers "Maybe" on event 1 and then "Going" on event 2; an
    anonymous call in between is refused. *)
Definition calls : list rsvp_call :=
  [ mkRsvpCall 20 (User 12) 1 (mkRsvpData None (Some "Maybe"));
    mkRsvpCall 21 AnonymousUser 1 (mkRsvpData None (Some "Going"));
    mkRsvpCall 22 (User 12) 2 (mkRsvpData None (Some "Going")) ].

(** A review form posted by user 14. *)
Definition review_form : request :=
  mkRequest (User 14) "POST" (<["rating" := " 4 "]> (<["comment" := "  fine  "]> ∅)).

(** A stand-in for [parse_datetime]: a decimal instant, already aware. *)
Definition parse (s : string) : exn + option pydatetime := inr (Aware <$> PyStr.int s).

End Sample.

(** ** Further vocabulary *)

(** The constraints the database keeps on the event table: primary keys
    are distinct and below the next auto-increment value. *)
Definition events_wf (db : DB) : Prop :=
  NoDup (map Event.id (db_events db))
  ∧ ∀ e, e ∈ db_events db → (Event.id e < next_event_id db)%nat.

(** The rule of the listing, for any viewer. *)
Definition listed (viewer : user) (e : Event.t) : Prop :=
  match viewer with
  | AnonymousUser => Event.is_public e = true
  | User uid => listed_for uid e
  end.

(** Invitations only name stored users. *)
Definition invited_known (db : DB) : Prop :=
  ∀ e u, e ∈ db_events db → u ∈ Event.invited_users e →
         EventSerializer.user_exists db u = true.

(** The one-to-one constraint of the profile table. *)
Definition profiles_wf (pdb : ProfileDB) : Prop :=
  table_wf UserProfile.id UserProfile.user (profiles pdb) (next_profile_id pdb).

(** The profiles of a user. *)
Definition profiles_of (pdb : ProfileDB) (user : nat) : list UserProfile.t :=
  filter (λ p, UserProfile.user p = user) (profiles pdb).

(** The [counts] dictionary holding these three values. *)
Definition counts_of (g m n : nat) : gmap string nat :=
  <["Going" := g]> (<["Maybe" := m]> (<["Not_Going" := n]> ∅)).

(** The number of RSVP rows of an event that carry a label. *)
Definition labelled (db : DB) (ev : Event.t) (label : string) : nat :=
  length (filter (λ r, RSVP.event r = Event.id ev ∧ RSVP.status r = label) (db_rsvps db)).




(** The warning for a username that is not found. *)
Definition not_found_warning (uname : string) : level * string :=
  (WARNING, "User '" +:+ uname +:+ "' not found — ignored.").

(** ** Further sample data *)

Module SampleMore.
(** The sample database after user 12 has reviewed events 1 and 3. *)
Definition db : DB :=
  set_reviews Sample.db [Review.mk 1 1 12 3 "ok" 9; Review.mk 2 3 12 5 "" 10] 3.

(** The profiles of users 10 and 12. *)
Definition pdb : ProfileDB :=
  mkProfileDB [UserProfile.mk 1 10 "Ann" "" "" None; UserProfile.mk 2 12 "" "" "" None] 3.

(** The RSVP button of the detail page, pressed by user 13. *)
Definition rsvp_form : request :=
  mkRequest (User 13) "POST" (<["status" := "Maybe"]> ∅).

(** A creation form that invites two stored users, one of them twice,
    and a username that is not stored. *)
Definition invite_form : request :=
  mkRequest (User 10) "POST"
    (<["title" := "Gala"]>
       (<["start_time" := "100"]>
          (<["end_time" := "200"]>
             (<["invited_users" := "cat, ghost ,dan,,cat"]> ∅)))).

(** User 13 opens the profile page. *)
Definition profile_request : request := mkRequest (User 13) "GET" ∅.
End SampleMore.

(** * Properties *)

(** ** Visibility *)

Lemma user_eqb_eq a b : user_eqb a b = true ↔ a = b.
Proof. unfold user_eqb. apply bool_decide_eq_true. Qed.

Lemma user_in_spec u qs : user_in u qs = true ↔ u ∈ qs.
Proof.
  unfold user_in. rewrite existsb_exists. split.
  - intros (x & Hx & Heq). apply user_eqb_eq in Heq. subst x.
    by apply list_elem_of_In.
  - intros Hin. exists u. split; [by apply list_elem_of_In | by apply user_eqb_eq].
Qed.

Lemma has_object_permission_event viewer e :
  IsInvitedOrPublic.has_object_permission (Some viewer) (obj_of_event e)
  = if Event.is_public e then ([], Py.Returned true)
    else if negb (is_authenticated viewer) then ([], Py.Returned false)
    else if user_eqb viewer (User (Event.organizer e)) then ([], Py.Returned true)
    else ([Py.InvitedUsersAll],
          Py.Returned (user_in viewer (Event.invited_users_all e))).
Proof.
  unfold IsInvitedOrPublic.has_object_permission, obj_of_event; simpl.
  destruct (Event.is_public e); [done |].
  destruct (is_authenticated viewer); simpl; [| done].
  unfold user_eqb.
  destruct (decide (viewer = User (Event.organizer e))) as [-> | Hne].
  - rewrite !bool_decide_eq_true_2; done.
  - rewrite !bool_decide_eq_false_2; [done | done | congruence].
Qed.

Lemma may_view_decide viewer e :
  bool_decide (may_view viewer e)
  = Event.is_public e
    || (is_authenticated viewer
        && (user_eqb viewer (User (Event.organizer e))
            || user_in viewer (Event.invited_users_all e))).
Proof.
  match goal with |- _ = ?b => destruct b eqn:Hb end.
  - apply bool_decide_eq_true_2. unfold may_view.
    apply orb_true_iff in Hb as [Hb | Hb]; [by left | right].
    apply andb_true_iff in Hb as [Ha Hb]. split; [done |].
    apply orb_true_iff in Hb as [Hb | Hb].
    + left. by apply user_eqb_eq.
    + right. by apply user_in_spec.
  - apply bool_decide_eq_false_2. unfold may_view. intros Hv.
    apply orb_false_iff in Hb as [Hp Hb].
    destruct Hv as [Hv | [Ha Hv]]; [congruence |].
    rewrite Ha in Hb. simpl in Hb. apply orb_false_iff in Hb as [Ho Hi].
    destruct Hv as [Hv | Hv].
    + apply user_eqb_eq in Hv. congruence.
    + apply user_in_spec in Hv. congruence.
Qed.


(** C10. [has_object_permission] always returns and never raises; a
    caller who is not authenticated gets the event's public flag back
    (so [False] on a private event) without [invited_users] being
    evaluated at all; and when [invited_users] is evaluated and that
    fails, the answer is [False]. *)
Theorem can_view_never_raises :
  (∀ request_user obj,
     ∃ b, Py.value (IsInvitedOrPublic.has_object_permission request_user obj)
          = Py.Returned b)
  ∧ (∀ obj,
       IsInvitedOrPublic.has_object_permission None obj
       = ([], Py.Returned (default false (attr_is_public obj)))
       ∧ IsInvitedOrPublic.has_object_permission (Some AnonymousUser) obj
         = ([], Py.Returned (default false (attr_is_public obj))))
  ∧ (∀ u pub org,
       IsInvitedOrPublic.has_object_permission (Some u) (mkObj pub org None)
       = if default false pub then ([], Py.Returned true)
         else if negb (is_authenticated u) then ([], Py.Returned false)
         else if bool_decide (org = Some u) then ([], Py.Returned true)
         else ([Py.InvitedUsersAll], Py.Returned false)).
Proof.
  split; [| split].
  - intros ru [pub org inv]. unfold IsInvitedOrPublic.has_object_permission; simpl.
    destruct (default false pub); [by eexists |].
    destruct ru as [u |]; [| by eexists].
    destruct (is_authenticated u); simpl; [| by eexists].
    case_bool_decide; [by eexists |].
    destruct inv; simpl; by eexists.
  - intros obj. unfold IsInvitedOrPublic.has_object_permission; simpl.
    destruct (default false (attr_is_public obj)); done.
  - intros u pub org. unfold IsInvitedOrPublic.has_object_permission; simpl.
    destruct (default false pub); [done |].
    destruct (is_authenticated u); simpl; [| done].
    case_bool_decide; done.
Qed.

Example private_event_anonymous :
  IsInvitedOrPublic.has_object_permission (Some AnonymousUser)
    (obj_of_event (Event.mk 1 "E" "" 2 "" 0 1 false [3] 0 0))
  = ([], Py.Returned false).
Proof. reflexivity. Qed.

Example private_event_invited :
  can_view (User 3) (Event.mk 1 "E" "" 2 "" 0 1 false [3] 0 0) = Py.Returned true.
Proof. reflexivity. Qed.

(** ** Aggregation *)


Lemma valid_status_cases st :
  valid_status st → st = "Going" ∨ st = "Maybe" ∨ st = "Not Going".
Proof.
  unfold valid_status; simpl. rewrite !elem_of_cons, elem_of_nil.
  unfold RSVP.STATUS_GOING, RSVP.STATUS_MAYBE, RSVP.STATUS_NOT_GOING. tauto.
Qed.



Section Properties.
Variable order_by : ∀ A : Type, (A → Z) → list A → list A.
Arguments order_by {_} _ _.

(** What [ORDER BY key DESC] guarantees: the rows come back, each once,
    in descending order of the key. *)
Hypothesis order_by_perm : ∀ (A : Type) (key : A → Z) (l : list A),
  order_by key l ≡ₚ l.
Hypothesis order_by_sorted : ∀ (A : Type) (key : A → Z) (l : list A),
  Sorted (λ a b, (key b ≤ key a)%Z) (order_by key l).


(** ** Event listing *)

Lemma joined_rows e row :
  row ∈ joined e ↔
  fst row = e ∧ (match snd row with
                 | Some u => u ∈ Event.invited_users e
                 | None => Event.invited_users e = []
                 end).
Proof.
  unfold joined. destruct row as [e' o]; simpl.
  destruct (Event.invited_users e) as [| u l] eqn:Hinv.
  - rewrite list_elem_of_singleton. split.
    + intros [= -> ->]. done.
    + intros [-> Ho]. destruct o as [u |]; [by apply elem_of_nil in Ho | done].
  - rewrite list_elem_of_In.
    change (In (e', o) (map (λ u0, (e, Some u0)) (u :: l)) ↔
            e' = e ∧ match o with Some u0 => u0 ∈ u :: l | None => u :: l = [] end).
    rewrite in_map_iff. split.
    + intros (u' & [= <- <-] & Hin). split; [done |]. by apply list_elem_of_In.
    + intros [-> Ho]. destruct o as [u' |]; [| done].
      exists u'. split; [done |]. by apply list_elem_of_In.
Qed.

Lemma visible_to_elem uid table e :
  e ∈ visible_to (@order_by) uid table ↔ e ∈ table ∧ listed_for uid e.
Proof.
  unfold visible_to. rewrite order_by_perm, elem_of_remove_dups.
  rewrite list_elem_of_In, in_map_iff. unfold listed_for. split.
  - intros ([e' o] & Hfst & Hrow). simpl in Hfst. subst e'.
    apply list_elem_of_In, list_elem_of_filter in Hrow as [Hpass Hrow].
    apply list_elem_of_bind in Hrow as (e0 & Hrow & He0).
    apply joined_rows in Hrow as [Hfst Ho]. simpl in *. subst e0.
    split; [done |].
    apply Is_true_true in Hpass.
    apply orb_true_iff in Hpass as [Hpass | Hpass].
    + apply orb_true_iff in Hpass as [Hpass | Hpass]; [by left |].
      apply bool_decide_eq_true in Hpass. subst o. right; by left.
    + apply Nat.eqb_eq in Hpass. right; by right.
  - intros [He Hlisted].
    assert (∃ o, (e, o) ∈ joined e
                 ∧ (Event.is_public e || bool_decide (o = Some uid)
                    || Nat.eqb (Event.organizer e) uid) = true)
      as (o & Hrow & Hpass).
    { destruct Hlisted as [Hpub | [Hinv | Horg]].
      - destruct (Event.invited_users e) as [| u l] eqn:Hl.
        + exists None. split; [by apply joined_rows |]. by rewrite Hpub.
        + exists (Some u). split.
          * apply joined_rows; simpl. split; [done |]. rewrite Hl. by left.
          * by rewrite Hpub.
      - exists (Some uid). split; [by apply joined_rows |].
        rewrite bool_decide_eq_true_2 by done. by rewrite orb_true_r.
      - apply Nat.eqb_eq in Horg.
        destruct (Event.invited_users e) as [| u l] eqn:Hl.
        + exists None. split; [by apply joined_rows |]. rewrite Horg. by rewrite orb_true_r.
        + exists (Some u). split.
          * apply joined_rows; simpl. split; [done |]. rewrite Hl. by left.
          * rewrite Horg. by rewrite orb_true_r. }
    exists (e, o). split; [done |].
    apply list_elem_of_In, list_elem_of_filter. split.
    + by apply Is_true_true.
    + apply list_elem_of_bind. by exists e.
Qed.

(** C5 (as the code has it).  For an anonymous viewer the listing is
    the public events; for an authenticated viewer it holds, each once,
    the events that are public, or that invite the viewer, or that the
    viewer organizes.  In both cases it is in descending order of
    [created_at]; the query names no further sort key. *)
Theorem get_queryset_listing (db : DB) (viewer : user) :
  Sorted (λ a b, (Event.created_at b ≤ Event.created_at a)%Z)
    (get_queryset (@order_by) db viewer)
  ∧ match viewer with
    | AnonymousUser =>
        get_queryset (@order_by) db viewer
        ≡ₚ filter (λ e, Event.is_public e = true) (db_events db)
    | User uid =>
        NoDup (get_queryset (@order_by) db viewer)
        ∧ ∀ e, e ∈ get_queryset (@order_by) db viewer
               ↔ e ∈ db_events db ∧ listed_for uid e
    end.
Proof.
  split.
  - destruct viewer; simpl; apply order_by_sorted.
  - destruct viewer as [| uid]; simpl.
    + unfold public_only. rewrite order_by_perm.
      erewrite list_filter_iff; [done |].
      intros e. simpl. apply Is_true_true.
    + split; [| intros e; apply visible_to_elem].
      unfold visible_to. rewrite order_by_perm. apply NoDup_remove_dups.
Qed.
End Properties.

(** ** The reference ordering is admissible *)

Lemma insert_desc_perm {A} (key : A → Z) x l : insert_desc key x l ≡ₚ x :: l.
Proof.
  induction l as [| y l IH]; simpl; [done |].
  destruct (key y <=? key x)%Z; [done |].
  rewrite IH. apply Permutation_swap.
Qed.

Lemma order_by_desc_perm (A : Type) (key : A → Z) (l : list A) :
  order_by_desc key l ≡ₚ l.
Proof.
  induction l as [| x l IH]; simpl; [done |].
  rewrite insert_desc_perm. by rewrite IH.
Qed.

Lemma insert_desc_sorted {A} (key : A → Z) x l :
  Sorted (λ a b, (key b ≤ key a)%Z) l →
  Sorted (λ a b, (key b ≤ key a)%Z) (insert_desc key x l).
Proof.
  induction 1 as [| y l Hs IH Hhd]; simpl.
  - by repeat constructor.
  - destruct (key y <=? key x)%Z eqn:Hle.
    + apply Z.leb_le in Hle. constructor.
      * by constructor.
      * by constructor.
    + apply Z.leb_gt in Hle. constructor; [done |].
      destruct Hhd as [| z l Hz]; simpl.
      * constructor. lia.
      * destruct (key z <=? key x)%Z; constructor; [lia | done].
Qed.

Lemma order_by_desc_sorted (A : Type) (key : A → Z) (l : list A) :
  Sorted (λ a b, (key b ≤ key a)%Z) (order_by_desc key l).
Proof.
  induction l as [| x l IH]; simpl; [constructor |].
  by apply insert_desc_sorted.
Qed.

Lemma order_by_desc_rev_perm (A : Type) (key : A → Z) (l : list A) :
  order_by_desc_rev key l ≡ₚ l.
Proof.
  unfold order_by_desc_rev. rewrite order_by_desc_perm.
  symmetry. apply Permutation_rev.
Qed.

Lemma order_by_desc_rev_sorted (A : Type) (key : A → Z) (l : list A) :
  Sorted (λ a b, (key b ≤ key a)%Z) (order_by_desc_rev key l).
Proof. apply order_by_desc_sorted. Qed.

(** ** Tables with a primary key and a unique key *)

Section Tables.
Context {A : Type} (id : A → nat).

Lemma NoDup_map_inj (l : list A) (x y : A) :
  NoDup (map id l) → x ∈ l → y ∈ l → id x = id y → x = y.
Proof.
  induction l as [| a l IH]; simpl; intros Hnd Hx Hy Heq.
  - by apply elem_of_nil in Hx.
  - apply NoDup_cons in Hnd as [Hnotin Hnd].
    apply elem_of_cons in Hx as [-> | Hx]; apply elem_of_cons in Hy as [-> | Hy].
    + done.
    + exfalso. apply Hnotin. rewrite Heq. apply list_elem_of_In, in_map.
      by apply list_elem_of_In.
    + exfalso. apply Hnotin. rewrite <- Heq. apply list_elem_of_In, in_map.
      by apply list_elem_of_In.
    + by apply IH.
Qed.

Lemma save_row_ids (new : A) (l : list A) :
  map id (save_row id new l) = map id l.
Proof.
  unfold save_row. rewrite map_map. apply map_ext. intros x.
  destruct (Nat.eqb (id x) (id new)) eqn:Heq; [| done].
  by apply Nat.eqb_eq in Heq.
Qed.

Lemma save_row_keys {K : Type} (key : A → K) (new : A) (l : list A) :
  (∀ x, x ∈ l → id x = id new → key x = key new) →
  map key (save_row id new l) = map key l.
Proof.
  intros H. unfold save_row. rewrite map_map. apply map_ext_in. intros x Hx.
  destruct (Nat.eqb (id x) (id new)) eqn:Heq; [| done].
  apply Nat.eqb_eq in Heq. symmetry. apply H; [by apply list_elem_of_In | done].
Qed.

Lemma save_row_absent (new : A) (l : list A) :
  (∀ x, x ∈ l → id x ≠ id new) → save_row id new l = l.
Proof.
  intros H. unfold save_row. rewrite <- (map_id l) at 2. apply map_ext_in. intros x Hx.
  destruct (Nat.eqb (id x) (id new)) eqn:Heq; [| done].
  apply Nat.eqb_eq in Heq. exfalso. eapply H; [by apply list_elem_of_In | done].
Qed.

Lemma save_row_filter (P : A → Prop) `{∀ x, Decision (P x)} (new : A) (l : list A) :
  (∀ x, x ∈ l → id x = id new → (P x ↔ P new)) →
  filter P (save_row id new l) = save_row id new (filter P l).
Proof.
  induction l as [| a l IH]; intros Hsame; [done |].
  assert (Htl : ∀ x, x ∈ l → id x = id new → (P x ↔ P new)).
  { intros x Hx. apply Hsame. by right. }
  specialize (IH Htl).
  change (save_row id new (a :: l))
    with ((if Nat.eqb (id a) (id new) then new else a) :: save_row id new l).
  rewrite !filter_cons.
  destruct (Nat.eqb (id a) (id new)) eqn:Heq.
  - apply Nat.eqb_eq in Heq.
    assert (Ha : P a ↔ P new) by (apply Hsame; [by left | done]).
    destruct (decide (P new)) as [Hn | Hn]; destruct (decide (P a)) as [Hp | Hp];
      try tauto.
    simpl. rewrite (proj2 (Nat.eqb_eq _ _) Heq). by rewrite IH.
  - destruct (decide (P a)); [| done].
    simpl. rewrite Heq. by rewrite IH.
Qed.

(** Under the unique key at most one row answers to a key. *)
Lemma unique_filter {K : Type} `{EqDecision K} (key : A → K) (k : K) (l : list A) :
  NoDup (map key l) →
  filter (λ x, key x = k) l = []
  ∨ ∃ r, filter (λ x, key x = k) l = [r] ∧ r ∈ l ∧ key r = k.
Proof.
  induction l as [| a l IH]; simpl; intros Hnd; [by left |].
  apply NoDup_cons in Hnd as [Hnotin Hnd].
  rewrite filter_cons. destruct (decide (key a = k)) as [Ha | Ha].
  - right. exists a. split; [| split; [by left | done]].
    f_equal. destruct (filter (λ x, key x = k) l) as [| b l'] eqn:Hf; [done |].
    exfalso. apply Hnotin.
    assert (Hb : b ∈ filter (λ x, key x = k) l) by (rewrite Hf; by left).
    apply list_elem_of_filter in Hb as [Hkb Hb].
    rewrite Ha, <- Hkb. apply list_elem_of_In, in_map. by apply list_elem_of_In.
  - destruct (IH Hnd) as [Hnil | (r & Hr & Hin & Hk)]; [by left |].
    right. exists r. split; [done |]. split; [by right | done].
Qed.
End Tables.

(** ** The RSVP ledger *)

Lemma rsvp_of_key e u r : rsvp_of e u r ↔ rsvp_key r = (e, u).
Proof.
  unfold rsvp_of, rsvp_key. rewrite Is_true_true, andb_true_iff, !Nat.eqb_eq.
  split; [intros [-> ->]; done | intros [= -> ->]; done].
Qed.

Lemma rsvp_rows_key db e u :
  rsvp_rows db e u = filter (λ r, rsvp_key r = (e, u)) (db_rsvps db).
Proof. unfold rsvp_rows. apply list_filter_iff. intros r. apply rsvp_of_key. Qed.

Lemma rsvp_rows_unique db e u :
  rsvps_wf db →
  rsvp_rows db e u = []
  ∨ ∃ r, rsvp_rows db e u = [r] ∧ r ∈ db_rsvps db ∧ rsvp_key r = (e, u).
Proof.
  intros Hwf. rewrite rsvp_rows_key. apply unique_filter, Hwf.
Qed.

Lemma get_event_id db pk e : get_event db pk = Some e → Event.id e = pk ∧ e ∈ db_events db.
Proof.
  unfold get_event. intros H. apply find_some in H as [Hin Heq].
  split; [by apply Nat.eqb_eq | by apply list_elem_of_In].
Qed.

(** What [update_or_create] does on a well-formed table. *)
Lemma update_or_create_spec db now e u st :
  rsvps_wf db →
  ∃ obj created db',
    RSVPObjects.update_or_create db now e u st = inr (obj, created, db')
    ∧ rsvps_wf db'
    ∧ rsvp_rows db' e u = [obj]
    ∧ rsvp_key obj = (e, u) ∧ RSVP.status obj = st
    ∧ (∀ e' u', (e', u') ≠ (e, u) → rsvp_rows db' e' u' = rsvp_rows db e' u')
    ∧ db_events db' = db_events db ∧ db_reviews db' = db_reviews db
    ∧ usernames db' = usernames db
    ∧ match rsvp_rows db e u with
      | [] =>
          created = true
          ∧ obj = RSVP.mk (next_rsvp_id db) e u st now
          ∧ db_rsvps db' = db_rsvps db ++ [obj]
      | r :: _ =>
          created = false
          ∧ obj = RSVP.mk (RSVP.id r) (RSVP.event r) (RSVP.user r) st (RSVP.created_at r)
          ∧ db_rsvps db' = save_row RSVP.id obj (db_rsvps db)
      end.
Proof.
  intros Hwf. unfold RSVPObjects.update_or_create.
  fold (rsvp_rows db e u).
  destruct (rsvp_rows_unique db e u Hwf) as [Hnil | (r & Hr & Hin & Hkey)].
  - rewrite Hnil.
    set (obj := RSVP.mk (next_rsvp_id db) e u st now).
    exists obj, true, (set_rsvps db (db_rsvps db ++ [obj]) (S (next_rsvp_id db))).
    assert (Hnone : ∀ x, x ∈ db_rsvps db → rsvp_key x ≠ (e, u)).
    { intros x Hx Hk. apply rsvp_of_key in Hk.
      assert (x ∈ rsvp_rows db e u) by (by apply list_elem_of_filter).
      rewrite Hnil in H. by apply elem_of_nil in H. }
    repeat split; try done.
    + simpl. rewrite map_app. apply NoDup_app. split; [apply Hwf |]. split.
      * intros i Hi Hi'. apply list_elem_of_singleton in Hi'. simpl in Hi'. subst i.
        apply list_elem_of_In, in_map_iff in Hi as (x & Hx & Hxin).
        apply list_elem_of_In, (rsvp_fresh _ Hwf) in Hxin. lia.
      * simpl. apply NoDup_singleton.
    + simpl. intros x Hx. apply elem_of_app in Hx as [Hx | Hx].
      * apply (rsvp_fresh _ Hwf) in Hx. lia.
      * apply list_elem_of_singleton in Hx. subst x. simpl. lia.
    + simpl. rewrite map_app. apply NoDup_app. split; [apply Hwf |]. split.
      * intros k Hk Hk'. apply list_elem_of_singleton in Hk'. simpl in Hk'. subst k.
        apply list_elem_of_In, in_map_iff in Hk as (x & Hx & Hxin).
        apply list_elem_of_In in Hxin. by apply (Hnone x).
      * simpl. apply NoDup_singleton.
    + unfold rsvp_rows in *; simpl. rewrite filter_app, Hnil. simpl.
      rewrite filter_cons, decide_True; [done |]. by apply rsvp_of_key.
    + intros e' u' Hne. unfold rsvp_rows; simpl. rewrite filter_app.
      rewrite filter_cons, decide_False; [by rewrite filter_nil, app_nil_r |].
      rewrite rsvp_of_key. unfold rsvp_key; simpl. congruence.
  - rewrite Hr.
    set (obj := RSVP.mk (RSVP.id r) (RSVP.event r) (RSVP.user r) st (RSVP.created_at r)).
    exists obj, false, (set_rsvps db (save_row RSVP.id obj (db_rsvps db)) (next_rsvp_id db)).
    assert (Hsame : ∀ x, x ∈ db_rsvps db → RSVP.id x = RSVP.id obj → x = r).
    { intros x Hx Hid. eapply (NoDup_map_inj RSVP.id); eauto. apply Hwf. }
    assert (Hkeys : map rsvp_key (save_row RSVP.id obj (db_rsvps db))
                    = map rsvp_key (db_rsvps db)).
    { apply (save_row_keys RSVP.id). intros x Hx Hid. by rewrite (Hsame x Hx Hid). }
    assert (Hfilter : ∀ e' u',
              rsvp_rows (set_rsvps db (save_row RSVP.id obj (db_rsvps db)) (next_rsvp_id db)) e' u'
              = save_row RSVP.id obj (rsvp_rows db e' u')).
    { intros e' u'. unfold rsvp_rows; simpl. apply save_row_filter.
      intros x Hx Hid. rewrite (Hsame x Hx Hid), !rsvp_of_key. done. }
    repeat split; try done.
    + simpl. rewrite save_row_ids. apply Hwf.
    + simpl. intros x Hx. unfold save_row in Hx.
      apply list_elem_of_In, in_map_iff in Hx as (y & Hy & Hyin).
      apply list_elem_of_In in Hyin.
      destruct (Nat.eqb (RSVP.id y) (RSVP.id obj)); subst x.
      * simpl. by apply (rsvp_fresh _ Hwf).
      * by apply (rsvp_fresh _ Hwf).
    + simpl. rewrite Hkeys. apply Hwf.
    + rewrite Hfilter, Hr. unfold save_row; simpl. by rewrite Nat.eqb_refl.
    + intros e' u' Hne. rewrite Hfilter. apply save_row_absent.
      intros x Hx Hid. unfold rsvp_rows in Hx.
      apply list_elem_of_filter in Hx as [Hof Hx].
      rewrite (Hsame x Hx Hid) in Hof. apply rsvp_of_key in Hof. congruence.
Qed.

Lemma validate_status_Some st st' :
  RSVPSerializer.validate_status st = Some st' ↔ st' = st ∧ valid_status st.
Proof.
  unfold RSVPSerializer.validate_status, valid_status.
  case_bool_decide; split; [intros [= <-]; done | intros [-> _]; done | done | tauto].
Qed.

(** What one call of the [rsvp] action does. *)
Lemma rsvp_step db now u pk data :
  rsvps_wf db →
  ∃ resp db',
    rsvp db now u pk data = (resp, db')
    ∧ rsvps_wf db'
    ∧ db_events db' = db_events db
    ∧ match resp with
      | Response (RSVPData obj) code =>
          ∃ uid st,
            u = User uid ∧ d_status data = Some st
            ∧ rsvp_rows db' pk uid = [obj]
            ∧ rsvp_key obj = (pk, uid) ∧ RSVP.status obj = st
            ∧ (∀ e' u', (e', u') ≠ (pk, uid) →
                 rsvp_rows db' e' u' = rsvp_rows db e' u')
            ∧ match rsvp_rows db pk uid with
              | [] =>
                  code = HTTP_201_CREATED
                  ∧ obj = RSVP.mk (next_rsvp_id db) pk uid st now
                  ∧ db_rsvps db' = db_rsvps db ++ [obj]
              | r :: _ =>
                  code = HTTP_200_OK
                  ∧ obj = RSVP.mk (RSVP.id r) (RSVP.event r) (RSVP.user r) st
                            (RSVP.created_at r)
                  ∧ db_rsvps db' = save_row RSVP.id obj (db_rsvps db)
              end
      | _ => db' = db
      end.
Proof.
  intros Hwf. unfold rsvp.
  destruct u as [| uid]; [by eexists _, _ |].
  destruct (get_event db pk) as [event |] eqn:Hev; [| by eexists _, _].
  destruct (get_event_id _ _ _ Hev) as [Hid _].
  destruct (negb (Event.is_public event) && _ && _); [by eexists _, _ |].
  unfold RSVPSerializer.is_valid, RSVPSerializer.field_event,
    RSVPSerializer.field_status; simpl.
  rewrite Hid, Hev.
  destruct (d_status data) as [st |] eqn:Hst; [| by eexists _, _].
  destruct (RSVPSerializer.validate_status st) as [st' |] eqn:Hval; [| by eexists _, _].
  apply validate_status_Some in Hval as [-> Hvalid]. simpl.
  destruct (update_or_create_spec db now pk uid st Hwf)
    as (obj & created & db' & -> & Hwf' & Hrows & Hkey & Hstatus & Hothers & Hevs & _ & _ & Hcase).
  eexists _, _. split; [done |]. split; [done |]. split; [done |].
  exists uid, st. repeat split; try done.
  destruct (rsvp_rows db pk uid) as [| r ?]; destruct Hcase as (-> & ? & ?); done.
Qed.

Lemma run_rsvp_wf calls : ∀ db, rsvps_wf db → rsvps_wf (run_rsvp db calls).
Proof.
  induction calls as [| c calls IH]; intros db Hwf; [done |].
  simpl. apply IH. unfold do_rsvp.
  destruct (rsvp_step db (call_now c) (call_user c) (call_pk c) (call_data c) Hwf)
    as (resp & db' & -> & Hwf' & _). done.
Qed.

Lemma run_rsvp_latest calls : ∀ db e u,
  rsvps_wf db →
  match latest_status e u db calls with
  | Some st => ∃ r, rsvp_rows (run_rsvp db calls) e u = [r] ∧ RSVP.status r = st
  | None => rsvp_rows (run_rsvp db calls) e u = rsvp_rows db e u
  end.
Proof.
  induction calls as [| c calls IH]; intros db e u Hwf; [done |].
  simpl. unfold do_rsvp at 1 2 3.
  destruct (rsvp_step db (call_now c) (call_user c) (call_pk c) (call_data c) Hwf)
    as (resp & db' & Heq & Hwf' & _ & Hresp).
  unfold do_rsvp. rewrite Heq; simpl.
  specialize (IH db' e u Hwf').
  destruct (latest_status e u db' calls) as [st |]; [done |].
  rewrite IH.
  destruct resp as [[| | obj | | | |] code | | | |]; simpl; try (by subst db').
  destruct Hresp as (uid & st & Hu & Hst & Hrows & Hkey & Hstatus & Hothers & _).
  case_bool_decide as Hpair.
  - destruct Hpair as [Hpk Huser]. rewrite Hu in Huser. injection Huser as ->.
    rewrite Hst. exists obj. by rewrite <- Hpk.
  - apply Hothers. intros [= -> ->]. apply Hpair. done.
Qed.

Lemma act_gate uid event :
  negb (Event.is_public event)
  && negb (user_eqb (User uid) (User (Event.organizer event)))
  && negb (user_in (User uid) (Event.invited_users_all event))
  = negb (bool_decide (may_view (User uid) event)).
Proof.
  rewrite may_view_decide. simpl.
  destruct (Event.is_public event); simpl; [done |].
  by rewrite negb_orb.
Qed.

(** A caller who may act on the event and sends a valid status is
    answered with the serialized RSVP. *)
Lemma rsvp_accepts db now uid pk data event st :
  rsvps_wf db →
  get_event db pk = Some event →
  may_view (User uid) event →
  d_status data = Some st → valid_status st →
  ∃ obj code db',
    rsvp db now (User uid) pk data = (Response (RSVPData obj) code, db').
Proof.
  intros Hwf Hev Hview Hst Hvalid.
  destruct (get_event_id _ _ _ Hev) as [Hid _].
  unfold rsvp. rewrite Hev, act_gate, bool_decide_eq_true_2 by done. simpl.
  unfold RSVPSerializer.is_valid, RSVPSerializer.field_event,
    RSVPSerializer.field_status; simpl.
  rewrite Hid, Hev, Hst.
  rewrite (proj2 (validate_status_Some st st)) by done. simpl.
  destruct (update_or_create_spec db now pk uid st Hwf)
    as (obj & created & db' & -> & _).
  by eexists _, _, _.
Qed.

(** C2. From a table that satisfies its constraints, any run of [rsvp]
    calls leaves at most one RSVP row per (event, user), carrying the
    status of the most recent successful call for the pair.  A call by
    a user who may act, with a valid status, succeeds: when the pair
    had a row, that row keeps its key and [created_at], takes the new
    status, and the answer is 200; when it had none, a row with
    [created_at = now] is appended and the answer is 201.  Rows of other
    pairs are untouched. *)
Theorem set_rsvp_upsert (db : DB) :
  rsvps_wf db →
  (∀ calls e u,
     (length (rsvp_rows (run_rsvp db calls) e u) ≤ 1)%nat
     ∧ ∀ st, latest_status e u db calls = Some st →
             ∃ r, rsvp_rows (run_rsvp db calls) e u = [r] ∧ RSVP.status r = st)
  ∧ (∀ now uid pk data event st,
       get_event db pk = Some event →
       may_view (User uid) event →
       d_status data = Some st → valid_status st →
       ∃ obj code db',
         rsvp db now (User uid) pk data = (Response (RSVPData obj) code, db')
         ∧ rsvp_rows db' pk uid = [obj]
         ∧ (∀ e' u', (e', u') ≠ (pk, uid) →
              rsvp_rows db' e' u' = rsvp_rows db e' u')
         ∧ match rsvp_rows db pk uid with
           | [] =>
               code = HTTP_201_CREATED
               ∧ obj = RSVP.mk (next_rsvp_id db) pk uid st now
               ∧ db_rsvps db' = db_rsvps db ++ [obj]
           | r :: _ =>
               code = HTTP_200_OK
               ∧ obj = RSVP.mk (RSVP.id r) (RSVP.event r) (RSVP.user r) st
                         (RSVP.created_at r)
               ∧ db_rsvps db' = save_row RSVP.id obj (db_rsvps db)
           end).
Proof.
  intros Hwf. split.
  - intros calls e u.
    pose proof (run_rsvp_wf calls db Hwf) as Hwf'.
    split.
    + destruct (rsvp_rows_unique _ e u Hwf') as [-> | (r & -> & _)]; simpl; lia.
    + intros st Hst. pose proof (run_rsvp_latest calls db e u Hwf) as H.
      by rewrite Hst in H.
  - intros now uid pk data event st Hev Hview Hst Hvalid.
    destruct (rsvp_accepts db now uid pk data event st Hwf Hev Hview Hst Hvalid)
      as (obj & code & db' & Heq).
    destruct (rsvp_step db now (User uid) pk data Hwf)
      as (resp & db'' & Heq' & _ & _ & Hresp).
    rewrite Heq in Heq'. injection Heq' as <- <-.
    destruct Hresp as (uid' & st' & [= <-] & Hst' & Hrows & _ & _ & Hothers & Hcase).
    rewrite Hst in Hst'. injection Hst' as <-.
    by exists obj, code, db'.
Qed.

(** ** Updating an RSVP *)

(** A successful [PATCH] whose body names no other event changes the
    status of the target row and nothing else. *)
Lemma update_rsvp_status_only db u pk user_id data obj code db' :
  rsvps_wf db →
  (d_event data = None ∨ d_event data = Some pk) →
  update_rsvp db u pk user_id data = (Response (RSVPData obj) code, db') →
  ∃ r,
    rsvp_rows db pk user_id = [r]
    ∧ obj = RSVP.mk (RSVP.id r) (RSVP.event r) (RSVP.user r)
              (default (RSVP.status r) (d_status data)) (RSVP.created_at r)
    ∧ db_rsvps db' = save_row RSVP.id obj (db_rsvps db)
    ∧ rsvp_rows db' pk user_id = [obj]
    ∧ (∀ e' u', (e', u') ≠ (pk, user_id) → rsvp_rows db' e' u' = rsvp_rows db e' u').
Proof.
  intros Hwf Hbody. unfold update_rsvp.
  destruct (negb (is_authenticated u)); [done |].
  destruct (get_event db pk) as [event |] eqn:Hev; [| done].
  destruct (get_event_id _ _ _ Hev) as [Hid _]. rewrite Hid.
  fold (rsvp_rows db pk user_id).
  destruct (rsvp_rows_unique db pk user_id Hwf) as [-> | (r & Hr & Hin & Hkey)]; [done |].
  rewrite Hr.
  destruct (negb (user_eqb u (User (RSVP.user r))) && _); [done |].
  destruct (RSVPSerializer.is_valid db true data) as [errs | vd] eqn:Hvd; [done |].
  assert (Hvd' : default (RSVP.event r) (d_event vd) = RSVP.event r
                 ∧ default (RSVP.status r) (d_status vd)
                   = default (RSVP.status r) (d_status data)).
  { unfold RSVPSerializer.is_valid, RSVPSerializer.field_event,
      RSVPSerializer.field_status in Hvd.
    injection Hkey as Hke Hku.
    destruct Hbody as [Hb | Hb]; rewrite Hb in Hvd.
    - destruct (d_status data) as [st |]; simpl in *.
      + destruct (RSVPSerializer.validate_status st) as [st' |] eqn:Hval; [| done].
        apply validate_status_Some in Hval as [-> _]. by injection Hvd as <-.
      + by injection Hvd as <-.
    - rewrite Hev in Hvd.
      destruct (d_status data) as [st |]; simpl in *.
      + destruct (RSVPSerializer.validate_status st) as [st' |] eqn:Hval; [| done].
        apply validate_status_Some in Hval as [-> _]. injection Hvd as <-. simpl.
        split; [congruence | done].
      + injection Hvd as <-. simpl. split; [congruence | done]. }
  destruct Hvd' as [-> ->].
  set (new := RSVP.mk (RSVP.id r) (RSVP.event r) (RSVP.user r)
                (default (RSVP.status r) (d_status data)) (RSVP.created_at r)).
  unfold RSVPObjects.save.
  destruct (existsb _ (db_rsvps db)); [done |].
  intros [= <- <- <-]. exists r.
  assert (Hsame : ∀ x, x ∈ db_rsvps db → RSVP.id x = RSVP.id new → x = r).
  { intros x Hx Hidx. eapply (NoDup_map_inj RSVP.id); eauto. apply Hwf. }
  assert (Hfilter : ∀ e' u',
            rsvp_rows (set_rsvps db (save_row RSVP.id new (db_rsvps db)) (next_rsvp_id db)) e' u'
            = save_row RSVP.id new (rsvp_rows db e' u')).
  { intros e' u'. unfold rsvp_rows; simpl. apply save_row_filter.
    intros x Hx Hidx. rewrite (Hsame x Hx Hidx), !rsvp_of_key. done. }
  repeat split; try done.
  - rewrite Hfilter, Hr. unfold save_row; simpl. by rewrite Nat.eqb_refl.
  - intros e' u' Hne. rewrite Hfilter. apply save_row_absent.
    intros x Hx Hidx. unfold rsvp_rows in Hx.
    apply list_elem_of_filter in Hx as [Hof Hx].
    rewrite (Hsame x Hx Hidx) in Hof. apply rsvp_of_key in Hof. congruence.
Qed.

(** C7 (failing input).  User 12 holds the RSVP of [Sample.e1] and
    patches it with a body that also names event 2: the request
    succeeds and the row now belongs to event 2, so more than its
    status has changed. *)
Theorem update_rsvp_moves_event :
  ∃ obj db',
    update_rsvp Sample.db (User 12) 1 12 (mkRsvpData (Some 2%nat) (Some "Maybe"))
    = (Response (RSVPData obj) HTTP_200_OK, db')
    ∧ rsvp_rows Sample.db 1 12 = [Sample.r1]
    ∧ RSVP.id obj = RSVP.id Sample.r1
    ∧ RSVP.event Sample.r1 = 1%nat ∧ RSVP.event obj = 2%nat
    ∧ rsvp_rows db' 1 12 = [] ∧ rsvp_rows db' 2 12 = [obj].
Proof. eexists _, _. vm_compute. repeat split. Qed.

(** ** Inserting and saving under the constraints *)

Section Constraints.
Context {A K : Type} `{EqDecision K} (id : A → nat) (key : A → K).

Lemma table_insert (l : list A) (next : nat) (new : A) :
  table_wf id key l next →
  filter (λ x, key x = key new) l = [] →
  id new = next →
  table_wf id key (l ++ [new]) (S next)
  ∧ filter (λ x, key x = key new) (l ++ [new]) = [new]
  ∧ ∀ k, k ≠ key new →
         filter (λ x, key x = k) (l ++ [new]) = filter (λ x, key x = k) l.
Proof.
  intros [Hids Hfresh Huniq] Hnone Hid.
  assert (Hno : ∀ x, x ∈ l → key x ≠ key new).
  { intros x Hx Hk.
    assert (Hin : x ∈ filter (λ x, key x = key new) l) by (by apply list_elem_of_filter).
    rewrite Hnone in Hin. by apply elem_of_nil in Hin. }
  split; [split |].
  - rewrite map_app. apply NoDup_app. split; [done |]. split; [| apply NoDup_singleton].
    intros i Hi Hi'. apply list_elem_of_singleton in Hi'. subst i.
    apply list_elem_of_In, in_map_iff in Hi as (x & Hx & Hxin).
    apply list_elem_of_In, Hfresh in Hxin. lia.
  - intros x Hx. apply elem_of_app in Hx as [Hx | Hx].
    + apply Hfresh in Hx. lia.
    + apply list_elem_of_singleton in Hx. subst x. lia.
  - rewrite map_app. apply NoDup_app. split; [done |]. split; [| apply NoDup_singleton].
    intros k Hk Hk'. apply list_elem_of_singleton in Hk'. subst k.
    apply list_elem_of_In, in_map_iff in Hk as (x & Hx & Hxin).
    apply list_elem_of_In in Hxin. by apply (Hno x).
  - split.
    + rewrite filter_app, Hnone. simpl. by rewrite filter_cons, decide_True.
    + intros k Hk. rewrite filter_app, filter_cons, decide_False by done.
      by rewrite filter_nil, app_nil_r.
Qed.

Lemma table_save (l : list A) (next : nat) (r new : A) :
  table_wf id key l next →
  r ∈ l → id new = id r → key new = key r →
  table_wf id key (save_row id new l) next
  ∧ filter (λ x, key x = key r) (save_row id new l) = [new]
  ∧ ∀ k, k ≠ key r →
         filter (λ x, key x = k) (save_row id new l) = filter (λ x, key x = k) l.
Proof.
  intros [Hids Hfresh Huniq] Hr Hid Hkey.
  assert (Hsame : ∀ x, x ∈ l → id x = id new → x = r).
  { intros x Hx Hidx. apply (NoDup_map_inj id l); [done | done | done | congruence]. }
  assert (Hfilter : ∀ k, filter (λ x, key x = k) (save_row id new l)
                         = save_row id new (filter (λ x, key x = k) l)).
  { intros k. apply save_row_filter. intros x Hx Hidx.
    rewrite (Hsame x Hx Hidx), Hkey. done. }
  split; [split |].
  - by rewrite save_row_ids.
  - intros x Hx. unfold save_row in Hx.
    apply list_elem_of_In, in_map_iff in Hx as (y & Hy & Hyin).
    apply list_elem_of_In in Hyin.
    destruct (Nat.eqb (id y) (id new)); subst x.
    + rewrite Hid. by apply Hfresh.
    + by apply Hfresh.
  - rewrite (save_row_keys id key); [done |].
    intros x Hx Hidx. by rewrite (Hsame x Hx Hidx).
  - split.
    + rewrite Hfilter.
      destruct (unique_filter key (key r) l Huniq) as [Hnil | (r' & Hr' & Hin' & Hk')].
      * assert (Hin : r ∈ filter (λ x, key x = key r) l) by (by apply list_elem_of_filter).
        rewrite Hnil in Hin. by apply elem_of_nil in Hin.
      * assert (Hin : r ∈ filter (λ x, key x = key r) l) by (by apply list_elem_of_filter).
        rewrite Hr' in Hin. apply list_elem_of_singleton in Hin. subst r'.
        rewrite Hr'. unfold save_row; simpl. by rewrite Hid, Nat.eqb_refl.
    + intros k Hk. rewrite Hfilter. apply save_row_absent.
      intros x Hx Hidx. apply list_elem_of_filter in Hx as [Hkx Hx].
      rewrite (Hsame x Hx Hidx) in Hkx. congruence.
Qed.
End Constraints.

(** ** The review ledger *)

Lemma review_of_key e u r : review_of e u r ↔ review_key r = (e, u).
Proof.
  unfold review_of, review_key. rewrite Is_true_true, andb_true_iff, !Nat.eqb_eq.
  split; [intros [-> ->]; done | intros [= -> ->]; done].
Qed.

Lemma review_rows_key db e u :
  review_rows db e u = filter (λ r, review_key r = (e, u)) (db_reviews db).
Proof. unfold review_rows. apply list_filter_iff. intros r. apply review_of_key. Qed.

Lemma review_exists_rows db e u :
  existsb (review_of e u) (db_reviews db) = false ↔ review_rows db e u = [].
Proof.
  unfold review_rows. induction (db_reviews db) as [| r l IH]; simpl; [done |].
  rewrite filter_cons, orb_false_iff, IH.
  destruct (review_of e u r); simpl.
  - split; [intros [? _]; done | done].
  - tauto.
Qed.

Lemma rating_int_spec rating z :
  rating_int rating = Some z
  ↔ ∃ s, rating = Some s ∧ PyStr.int s = Some z ∧ (1 ≤ z ≤ 5)%Z.
Proof.
  unfold rating_int. split.
  - destruct rating as [s |]; [| done].
    destruct (PyStr.int s) as [z' |] eqn:Hint; [| done].
    destruct ((z' <? 1)%Z || (5 <? z')%Z) eqn:Hrange; [done |].
    intros [= ->]. apply orb_false_iff in Hrange as [H1 H5].
    apply Z.ltb_ge in H1, H5. exists s. repeat split; auto.
  - intros (s & -> & -> & H1 & H5).
    rewrite (proj2 (Z.ltb_ge _ _) H1), (proj2 (Z.ltb_ge _ _) H5). done.
Qed.


Section Ledgers.
Variable order_by : ∀ A : Type, (A → Z) → list A → list A.
Arguments order_by {_} _ _.

Hypothesis order_by_perm : ∀ (A : Type) (key : A → Z) (l : list A),
  order_by key l ≡ₚ l.

Lemma head_order_by_nil {A} (key : A → Z) : head (order_by key []) = None.
Proof.
  pose proof (order_by_perm A key []) as H. symmetry in H.
  apply Permutation_nil in H. by rewrite H.
Qed.

Lemma head_order_by_singleton {A} (key : A → Z) (r : A) :
  head (order_by key [r]) = Some r.
Proof.
  pose proof (order_by_perm A key [r]) as H. symmetry in H.
  apply Permutation_length_1_inv in H. by rewrite H.
Qed.

(** What a [POST] of the review form with a valid rating does: the
    review of the pair is created, or overwritten in place. *)
Lemma post_review_spec db now req pk event uid z :
  reviews_wf db →
  request_user req = User uid → request_method req = "POST" →
  get_event db pk = Some event →
  rating_int (request_POST req !! "rating") = Some z →
  ∃ msg db' obj,
    post_review (@order_by) db now req pk
    = inr (Redirect "events_detail" (Some pk) [(SUCCESS, msg)], db')
    ∧ reviews_wf db'
    ∧ review_rows db' pk uid = [obj]
    ∧ (∀ e' u', (e', u') ≠ (pk, uid) → review_rows db' e' u' = review_rows db e' u')
    ∧ Review.rating obj = z
    ∧ Review.comment obj = PyStr.strip (default "" (request_POST req !! "comment"))
    ∧ match review_rows db pk uid with
      | [] =>
          Review.id obj = next_review_id db ∧ Review.created_at obj = now
          ∧ db_reviews db' = db_reviews db ++ [obj]
      | r :: _ =>
          Review.id obj = Review.id r ∧ Review.created_at obj = Review.created_at r
          ∧ db_reviews db' = save_row Review.id obj (db_reviews db)
      end.
Proof.
  intros Hwf Hu Hm Hev Hrating.
  destruct (get_event_id _ _ _ Hev) as [Hid _].
  unfold post_review. rewrite Hu, Hev, Hm, Hrating, Hid. simpl.
  fold (review_rows db pk uid).
  set (comment := PyStr.strip (default "" (request_POST req !! "comment"))).
  pose proof (review_rows_key db pk uid) as Hrows.
  destruct (unique_filter review_key (pk, uid) (db_reviews db) (table_unique _ _ _ _ Hwf))
    as [Hnil | (r & Hr & Hin & Hkey)].
  - rewrite Hnil in Hrows. rewrite Hrows, head_order_by_nil.
    unfold ReviewObjects.create.
    rewrite (proj2 (review_exists_rows db pk uid) Hrows).
    set (obj := Review.mk (next_review_id db) pk uid z comment now).
    destruct (table_insert Review.id review_key (db_reviews db) (next_review_id db) obj)
      as (Hwf' & Hnew & Hothers); [done | done | done |].
    exists "Review posted.", (set_reviews db (db_reviews db ++ [obj]) (S (next_review_id db))), obj.
    split; [done |]. split; [exact Hwf' |].
    split; [by rewrite review_rows_key |].
    split; [| done].
    intros e' u' Hne. rewrite !review_rows_key. simpl. apply Hothers.
    unfold review_key; simpl. congruence.
  - rewrite Hr in Hrows. rewrite Hrows, head_order_by_singleton.
    set (obj := Review.mk (Review.id r) (Review.event r) (Review.user r) z comment
                  (Review.created_at r)).
    destruct (table_save Review.id review_key (db_reviews db) (next_review_id db) r obj)
      as (Hwf' & Hnew & Hothers); [done | done | done | done |].
    exists "Updated your review.", (ReviewObjects.save db obj), obj.
    split; [done |]. split; [exact Hwf' |].
    split; [rewrite review_rows_key; simpl; by rewrite <- Hkey |].
    split; [| done].
    intros e' u' Hne. rewrite !review_rows_key. simpl. apply Hothers. congruence.
Qed.



(** ** Acting on a private event *)



End Ledgers.

(** ** The time window of an event *)

Lemma effective_field {A} (d : option A) (inst : option A) (x : A) :
  (d = Some x ∨ d = None ∧ inst = Some x) →
  match d with Some y => Some y | None => inst end = Some x.
Proof. intros [-> | [-> ->]]; done. Qed.

Lemma validate_spec instance data vd :
  EventSerializer.validate instance data = Some vd →
  vd = data
  ∧ ∀ s e,
      (d_start_time data = Some s ∨
       d_start_time data = None ∧ Event.start_time <$> instance = Some s) →
      (d_end_time data = Some e ∨
       d_end_time data = None ∧ Event.end_time <$> instance = Some e) →
      (s < e)%Z.
Proof.
  unfold EventSerializer.validate. intros H.
  assert (Hvd : vd = data).
  { cbv zeta in H.
    destruct (match d_start_time data with
              | Some s => Some s
              | None => Event.start_time <$> instance
              end) as [s0 |];
      destruct (match d_end_time data with
                | Some e => Some e
                | None => Event.end_time <$> instance
                end) as [e0 |];
      try (by injection H).
    destruct (e0 <=? s0)%Z; [done | by injection H]. }
  split; [done |]. intros s e Hs He. cbv zeta in H.
  rewrite (effective_field _ _ s Hs), (effective_field _ _ e He) in H.
  destruct (e <=? s)%Z eqn:Hle; [done |]. by apply Z.leb_gt.
Qed.


Lemma is_valid_spec db instance partial data vd :
  EventSerializer.is_valid db instance partial data = inr vd →
  vd = data
  ∧ EventSerializer.missing partial data = []
  ∧ EventSerializer.validate instance data = Some vd.
Proof.
  unfold EventSerializer.is_valid.
  destruct (EventSerializer.missing partial data ++ _) as [| err errs] eqn:Herrs; [| done].
  apply app_eq_nil in Herrs as [Hmiss _].
  destruct (EventSerializer.validate instance data) as [vd' |] eqn:Hv; [| done].
  intros [= <-]. apply validate_spec in Hv as Hv'. destruct Hv' as [-> _]. done.
Qed.



Lemma save_row_elem {A} (id : A → nat) (new x : A) (l : list A) :
  x ∈ save_row id new l → x = new ∨ x ∈ l.
Proof.
  unfold save_row. intros Hx.
  apply list_elem_of_In, in_map_iff in Hx as (y & Hy & Hyin).
  apply list_elem_of_In in Hyin.
  destruct (Nat.eqb (id y) (id new)); subst x; [by left | by right].
Qed.




Section EventTimes.
Variable parse_datetime : string → exn + option pydatetime.
Variable make_aware : Z → Z.



End EventTimes.

(** ** The theorems at the sample database *)

Module SampleFacts.
Lemma statuses_ok : statuses_valid Sample.db.
Proof.
  intros r Hr. unfold Sample.db in Hr; simpl in Hr.
  rewrite !elem_of_cons, elem_of_nil in Hr.
  destruct Hr as [-> | [-> | [-> | []]]]; unfold valid_status; simpl; set_solver.
Qed.

Lemma rsvps_ok : rsvps_wf Sample.db.
Proof.
  split.
  - apply (bool_decide_unpack _). by vm_compute.
  - intros r Hr. unfold Sample.db in Hr; simpl in Hr.
    rewrite !elem_of_cons, elem_of_nil in Hr.
    destruct Hr as [-> | [-> | [-> | []]]]; simpl; lia.
  - apply (bool_decide_unpack _). by vm_compute.
Qed.

Lemma reviews_ok : reviews_wf Sample.db.
Proof.
  split; simpl.
  - constructor.
  - intros x Hx. by apply elem_of_nil in Hx.
  - constructor.
Qed.

End SampleFacts.

(** The listing theorem at the sample database, for an invited viewer. *)
Lemma get_queryset_listing_sample :
  Sorted (λ a b, (Event.created_at b ≤ Event.created_at a)%Z)
    (get_queryset (@order_by_desc) Sample.db (User 12))
  ∧ NoDup (get_queryset (@order_by_desc) Sample.db (User 12))
  ∧ ∀ e, e ∈ get_queryset (@order_by_desc) Sample.db (User 12)
         ↔ e ∈ db_events Sample.db ∧ listed_for 12 e.
Proof.
  exact (get_queryset_listing (@order_by_desc) order_by_desc_perm order_by_desc_sorted
           Sample.db (User 12)).
Defined.

Example listing_sample_invited :
  get_queryset (@order_by_desc) Sample.db (User 12) = [Sample.e3; Sample.e1; Sample.e2].
Proof. vm_compute. reflexivity. Qed.

Example listing_sample_anonymous :
  get_queryset (@order_by_desc) Sample.db AnonymousUser = [Sample.e1; Sample.e2].
Proof. vm_compute. reflexivity. Qed.

(** C5 fixes the order of events that tie on [created_at].  [Sample.e1]
    and [Sample.e2] share their [created_at]; two orderings that both
    satisfy [ORDER BY created_at DESC] return them in opposite orders, so
    neither "larger id first" nor "insertion order" holds of every
    answer the query admits. *)
Lemma listing_ties_not_fixed :
  get_queryset (@order_by_desc) Sample.db AnonymousUser = [Sample.e1; Sample.e2]
  ∧ get_queryset (@order_by_desc_rev) Sample.db AnonymousUser = [Sample.e2; Sample.e1]
  ∧ ¬ (∀ order_by : ∀ A : Type, (A → Z) → list A → list A,
         (∀ A key l, order_by A key l ≡ₚ l) →
         (∀ A key l, Sorted (λ a b, (key b ≤ key a)%Z) (order_by A key l)) →
         ∀ db viewer,
           Sorted (λ a b, Event.created_at a = Event.created_at b →
                          (Event.id b < Event.id a)%nat)
             (get_queryset order_by db viewer))
  ∧ ¬ (∀ order_by : ∀ A : Type, (A → Z) → list A → list A,
         (∀ A key l, order_by A key l ≡ₚ l) →
         (∀ A key l, Sorted (λ a b, (key b ≤ key a)%Z) (order_by A key l)) →
         ∀ db viewer,
           Sorted (λ a b, Event.created_at a = Event.created_at b →
                          (Event.id a < Event.id b)%nat)
             (get_queryset order_by db viewer)).
Proof.
  assert (H1 : get_queryset (@order_by_desc) Sample.db AnonymousUser
               = [Sample.e1; Sample.e2]) by (vm_compute; reflexivity).
  assert (H2 : get_queryset (@order_by_desc_rev) Sample.db AnonymousUser
               = [Sample.e2; Sample.e1]) by (vm_compute; reflexivity).
  split; [exact H1 |]. split; [exact H2 |]. split.
  - intros H.
    specialize (H (@order_by_desc) order_by_desc_perm order_by_desc_sorted
                  Sample.db AnonymousUser).
    rewrite H1 in H. apply Sorted_inv in H as [_ Hhd].
    apply HdRel_inv in Hhd. simpl in Hhd. specialize (Hhd eq_refl). lia.
  - intros H.
    specialize (H (@order_by_desc_rev) order_by_desc_rev_perm order_by_desc_rev_sorted
                  Sample.db AnonymousUser).
    rewrite H2 in H. apply Sorted_inv in H as [_ Hhd].
    apply HdRel_inv in Hhd. simpl in Hhd. specialize (Hhd eq_refl). lia.
Qed.


(** The tally loop files a label outside the three choices under a key
    of its own ([counts.get(st, 0) + 1]); no view stores such a label. *)
Example unlisted_label_gets_its_own_key :
  foldl count_status counts_init ["Going"; "Tentative"]
  = <["Tentative" := 1%nat]> (<["Going" := 1%nat]> counts_init).
Proof.
  apply map_eq. intros k. unfold counts_init, count_status. simpl.
  repeat (rewrite lookup_insert; case_decide; simplify_eq; try done).
Qed.


Lemma set_rsvp_upsert_sample :
  rsvps_wf Sample.db
  ∧ latest_status 1 12 Sample.db Sample.calls = Some "Maybe"
  ∧ (length (rsvp_rows (run_rsvp Sample.db Sample.calls) 1 12) ≤ 1)%nat
  ∧ ∃ r, rsvp_rows (run_rsvp Sample.db Sample.calls) 1 12 = [r]
         ∧ RSVP.status r = "Maybe".
Proof.
  assert (Hlatest : latest_status 1 12 Sample.db Sample.calls = Some "Maybe")
    by (vm_compute; reflexivity).
  split; [exact SampleFacts.rsvps_ok |]. split; [exact Hlatest |].
  pose proof (proj1 (set_rsvp_upsert Sample.db SampleFacts.rsvps_ok)
                Sample.calls 1%nat 12%nat) as [Hlen Hlast].
  split; [exact Hlen | exact (Hlast "Maybe" Hlatest)].
Defined.

Example run_rsvp_sample :
  db_rsvps (run_rsvp Sample.db Sample.calls)
  = [RSVP.mk 1 1 12 "Maybe" 6; Sample.r2; Sample.r3; RSVP.mk 4 2 12 "Going" 22].
Proof. vm_compute. reflexivity. Qed.




Example post_review_strips :
  PyStr.strip "  fine  " = "fine" ∧ PyStr.int " 4 " = Some 4%Z
  ∧ PyStr.int "6" = Some 6%Z ∧ PyStr.int "3.5" = None ∧ PyStr.int "" = None
  ∧ PyStr.int "1_0" = Some 10%Z ∧ PyStr.int "-2" = Some (-2)%Z
  ∧ rating_int (Some "6") = None ∧ rating_int None = None.
Proof. vm_compute. repeat split. Qed.

(** [int] refuses a separator that [strip] removes, and a literal of
    more than 4300 digits; the form then answers with the rating error
    and stores nothing. *)
Example int_refuses :
  PyStr.int (String (ascii_of_nat 31) "4") = None
  ∧ PyStr.strip (String (ascii_of_nat 31) "4") = "4"
  ∧ PyStr.int (String (ascii_of_nat 160) (String (ascii_of_nat 9) "4")) = Some 4%Z
  ∧ PyStr.int (PyStr.of_chars (replicate 4299 "0"%char ++ ["3"%char])) = Some 3%Z
  ∧ PyStr.int (PyStr.of_chars (replicate 4300 "0"%char ++ ["3"%char])) = None
  ∧ PyStr.int "- 4" = None ∧ PyStr.int "_4" = None ∧ PyStr.int "4__0" = None
  ∧ PyStr.int "+" = None ∧ PyStr.int "007" = Some 7%Z
  ∧ post_review (@order_by_desc) Sample.db 30
      (mkRequest (User 14) "POST" (<["rating" := String (ascii_of_nat 31) "4"]> ∅)) 1
    = inr (Redirect "events_detail" (Some 1%nat)
             [(ERROR, "Rating must be an integer between 1 and 5.")], Sample.db).
Proof. vm_compute. repeat split. Qed.


Example create_rejects_inverted_window :
  create Sample.db 40 (User 10)
    (mkEventData (Some "Late") None (Some "Hall") (Some 1000%Z) (Some 900%Z) None None)
  = (Response (Errors ["start_time"]) HTTP_400_BAD_REQUEST, Sample.db).
Proof. vm_compute. reflexivity. Qed.

(** C3 (failing input).  Through the API, user 12 reviews event 1 with
    rating 3 and then posts rating 4: the first call creates the review,
    the second ends in [IntegrityError] on the unique constraint, and the
    stored rating is still 3.  The review form, given the same two
    ratings, overwrites in place and ends with rating 4. *)
Theorem reviews_second_post_fails :
  ∃ obj db1,
    reviews (@order_by_desc) Sample.db 50 (User 12) 1
      (Some (mkReviewData (Some 3%Z) (Some "ok")))
    = (Response (ReviewData obj) HTTP_201_CREATED, db1)
    ∧ reviews (@order_by_desc) db1 51 (User 12) 1
        (Some (mkReviewData (Some 4%Z) (Some "better")))
      = (ServerError IntegrityError, db1)
    ∧ review_rows db1 1 12 = [obj]
    ∧ Review.rating obj = 3%Z
    ∧ ∃ db2 db3,
        post_review (@order_by_desc) Sample.db 50
          (mkRequest (User 12) "POST" (<["rating" := "3"]> (<["comment" := "ok"]> ∅))) 1
        = inr (Redirect "events_detail" (Some 1%nat) [(SUCCESS, "Review posted.")], db2)
        ∧ post_review (@order_by_desc) db2 51
            (mkRequest (User 12) "POST" (<["rating" := "4"]> (<["comment" := "better"]> ∅))) 1
          = inr (Redirect "events_detail" (Some 1%nat) [(SUCCESS, "Updated your review.")],
                 db3)
        ∧ review_rows db3 1 12 = [Review.mk 1 1 12 4 "better" 50].
Proof.
  eexists _, _. split; [vm_compute; reflexivity |].
  split; [vm_compute; reflexivity |].
  split; [vm_compute; reflexivity |].
  split; [reflexivity |].
  eexists _, _. split; [vm_compute; reflexivity |].
  split; vm_compute; reflexivity.
Qed.

(** ** Every write path stores one of the three labels *)

Lemma update_or_create_rows db now e u st obj created db' :
  RSVPObjects.update_or_create db now e u st = inr (obj, created, db') →
  RSVP.status obj = st ∧ ∀ x, x ∈ db_rsvps db' → x = obj ∨ x ∈ db_rsvps db.
Proof.
  unfold RSVPObjects.update_or_create.
  destruct (filter _ (db_rsvps db)) as [| r [| r' l]]; [| | done].
  - intros [= <- <- <-]. split; [done |]. simpl. intros x Hx.
    apply elem_of_app in Hx as [Hx | Hx]; [by right |].
    apply list_elem_of_singleton in Hx. by left.
  - intros [= <- <- <-]. split; [done |]. simpl. intros x Hx.
    by apply save_row_elem in Hx.
Qed.

Lemma rsvp_keeps_statuses db now u pk data :
  statuses_valid db → statuses_valid (snd (rsvp db now u pk data)).
Proof.
  intros Hdb. unfold rsvp.
  destruct u as [| uid]; [done |].
  destruct (get_event db pk) as [event |]; [| done].
  destruct (negb (Event.is_public event) && _ && _); [done |].
  destruct (RSVPSerializer.is_valid db false _) as [errs | vd] eqn:Hvd; [done |].
  destruct (d_status vd) as [st |] eqn:Hst; [| done].
  assert (Hvalid : valid_status st).
  { unfold RSVPSerializer.is_valid, RSVPSerializer.field_status in Hvd.
    cbn [d_status d_event] in Hvd.
    destruct (RSVPSerializer.field_event db false (Some (Event.id event)));
      destruct (d_status data) as [s |]; try done;
      destruct (RSVPSerializer.validate_status s) as [s' |] eqn:Hval; try done.
    injection Hvd as <-. simpl in Hst. injection Hst as ->.
    by apply validate_status_Some in Hval as [-> ?]. }
  destruct (RSVPObjects.update_or_create db now (Event.id event) uid st)
    as [e | [[obj created] db']] eqn:Huc; [done |].
  apply update_or_create_rows in Huc as [Hobj Hrows]. simpl.
  intros x Hx. destruct (Hrows x Hx) as [-> | Hold]; [by rewrite Hobj | by apply Hdb].
Qed.

Lemma update_rsvp_keeps_statuses db u pk user_id data :
  statuses_valid db → statuses_valid (snd (update_rsvp db u pk user_id data)).
Proof.
  intros Hdb. unfold update_rsvp.
  destruct (negb (is_authenticated u)); [done |].
  destruct (get_event db pk) as [event |]; [| done].
  destruct (filter _ (db_rsvps db)) as [| r [| r' l]] eqn:Hf; [done | | done].
  destruct (negb (user_eqb u (User (RSVP.user r))) && _); [done |].
  destruct (RSVPSerializer.is_valid db true data) as [errs | vd] eqn:Hvd; [done |].
  assert (Hr : r ∈ db_rsvps db).
  { assert (H : r ∈ filter (λ r0, rsvp_of (Event.id event) user_id r0) (db_rsvps db))
      by (rewrite Hf; by left).
    by apply list_elem_of_filter in H as [_ ?]. }
  assert (Hvalid : valid_status (default (RSVP.status r) (d_status vd))).
  { unfold RSVPSerializer.is_valid, RSVPSerializer.field_status in Hvd.
    destruct (RSVPSerializer.field_event db true (d_event data));
      destruct (d_status data) as [s |];
      try destruct (RSVPSerializer.validate_status s) as [s' |] eqn:Hval;
      try done; injection Hvd as <-; simpl.
    - by apply validate_status_Some in Hval as [-> ?].
    - by apply Hdb. }
  unfold RSVPObjects.save. destruct (existsb _ (db_rsvps db)); [done |]. simpl.
  intros x Hx. apply save_row_elem in Hx as [-> | Hx]; [done | by apply Hdb].
Qed.

Lemma rsvp_create_or_update_keeps_statuses db now req event_id page db' :
  statuses_valid db →
  rsvp_create_or_update db now req event_id = inr (page, db') →
  statuses_valid db'.
Proof.
  intros Hdb. unfold rsvp_create_or_update.
  destruct (request_user req) as [| uid]; [by intros [= _ <-] |].
  destruct (get_event db event_id) as [event |]; [| by intros [= _ <-]].
  destruct (negb (Event.is_public event) && _ && _); [by intros [= _ <-] |].
  destruct (String.eqb (request_method req) "POST"); [| by intros [= _ <-]].
  destruct (request_POST req !! "status") as [status |]; [| by intros [= _ <-]].
  case_bool_decide as Hvalid; [| by intros [= _ <-]].
  destruct (RSVPObjects.update_or_create db now (Event.id event) uid status)
    as [e | [[obj created] db'']] eqn:Huc; [done |].
  intros [= _ <-].
  apply update_or_create_rows in Huc as [Hobj Hrows].
  intros x Hx. destruct (Hrows x Hx) as [-> | Hold]; [by rewrite Hobj | by apply Hdb].
Qed.

Example failing_lookup_is_denied :
  IsInvitedOrPublic.has_object_permission (Some (User 5))
    (mkObj (Some false) (Some (User 2)) None)
  = ([Py.InvitedUsersAll], Py.Returned false).
Proof. reflexivity. Qed.

(** * Further properties *)

(** ** Who is admitted to which action *)

Lemma check_object_organizer method u obj :
  check_object permission_classes method u obj
  = ([], Py.Returned (IsOrganizerOrReadOnly.has_object_permission method u obj)).
Proof.
  unfold permission_classes; simpl.
  by destruct (IsOrganizerOrReadOnly.has_object_permission method u obj).
Qed.

Lemma retrieve_admission (u : user) (e : Event.t) :
  check_permissions "retrieve" "GET" u = true
  ∧ Py.value (check_object_permissions "retrieve" "GET" u (obj_of_event e))
    = Py.Returned (bool_decide (may_view u e)).
Proof.
  split; [done |].
  unfold check_object_permissions; simpl.
  rewrite has_object_permission_event, may_view_decide.
  destruct (Event.is_public e); simpl; [done |].
  destruct (is_authenticated u); simpl; [| done].
  destruct (user_eqb u (User (Event.organizer e))); simpl; [done |].
  by destruct (user_in u (Event.invited_users_all e)).
Qed.

Lemma write_admission (u : user) (e : Event.t) action method :
  action ∈ ["update"; "partial_update"; "destroy"] →
  method ∈ ["PUT"; "PATCH"; "DELETE"] →
  check_permissions action method u = is_authenticated u
  ∧ check_object_permissions action method u (obj_of_event e)
    = ([], Py.Returned (user_eqb (User (Event.organizer e)) u)).
Proof.
  intros Ha Hm.
  rewrite !elem_of_cons, elem_of_nil in Ha. rewrite !elem_of_cons, elem_of_nil in Hm.
  destruct Ha as [-> | [-> | [-> | []]]]; destruct Hm as [-> | [-> | [-> | []]]];
    (split; [by unfold check_permissions; simpl; rewrite andb_true_r |]);
    unfold check_object_permissions; simpl get_permissions;
    change (action_permission_classes _) with permission_classes;
    by rewrite check_object_organizer.
Qed.

(** X1. The permission stack of each action, composed from
    [get_permissions], the [@action] decorators and the permission
    classes: reading one event asks only for visibility and is open to
    anonymous callers; [create], [rsvp] and [update_rsvp] ask for a
    logged-in caller and nothing about the object; [PUT], [PATCH] and
    [DELETE] on an event ask for a logged-in caller who is its
    organizer; the review list is open to all, a review [POST] to
    logged-in callers. *)
Theorem action_admission (u : user) (e : Event.t) :
  (check_permissions "retrieve" "GET" u = true
   ∧ Py.value (check_object_permissions "retrieve" "GET" u (obj_of_event e))
     = Py.Returned (bool_decide (may_view u e)))
  ∧ check_permissions "create" "POST" u = is_authenticated u
  ∧ (∀ action method,
       action ∈ ["update"; "partial_update"; "destroy"] →
       method ∈ ["PUT"; "PATCH"; "DELETE"] →
       check_permissions action method u = is_authenticated u
       ∧ check_object_permissions action method u (obj_of_event e)
         = ([], Py.Returned (user_eqb (User (Event.organizer e)) u)))
  ∧ (∀ action method,
       action ∈ ["rsvp"; "update_rsvp"] →
       check_permissions action method u = is_authenticated u
       ∧ check_object_permissions action method u (obj_of_event e)
         = ([], Py.Returned true))
  ∧ (check_permissions "reviews" "GET" u = true
     ∧ check_permissions "reviews" "POST" u = is_authenticated u
     ∧ ∀ method, check_object_permissions "reviews" method u (obj_of_event e)
                 = ([], Py.Returned true))
  ∧ check_permissions "list" "GET" u = true.
Proof.
  split; [| split; [| split; [| split; [| split]]]].
  - apply retrieve_admission.
  - unfold check_permissions; simpl. by rewrite andb_true_r.
  - apply write_admission.
  - intros action method Ha. rewrite !elem_of_cons, elem_of_nil in Ha.
    destruct Ha as [-> | [-> | []]];
      (split; [by unfold check_permissions; simpl; rewrite andb_true_r | done]).
  - split; [done |]. split; [by unfold check_permissions; simpl; rewrite andb_true_r |].
    done.
  - done.
Qed.

Lemma get_event_found db e :
  events_wf db → e ∈ db_events db → get_event db (Event.id e) = Some e.
Proof.
  intros [Hnd _] Hin. unfold get_event.
  induction (db_events db) as [| a l IH]; [by apply elem_of_nil in Hin |].
  simpl in *. apply NoDup_cons in Hnd as [Hnotin Hnd].
  destruct (Nat.eqb (Event.id a) (Event.id e)) eqn:Heq.
  - apply Nat.eqb_eq in Heq.
    apply elem_of_cons in Hin as [-> | Hin]; [done |].
    exfalso. apply Hnotin. rewrite Heq. apply list_elem_of_In, in_map.
    by apply list_elem_of_In.
  - apply elem_of_cons in Hin as [-> | Hin]; [by rewrite Nat.eqb_refl in Heq |].
    by apply IH.
Qed.

Lemma may_view_listed viewer e : may_view viewer e ↔ listed viewer e.
Proof.
  unfold may_view, listed, listed_for. destruct viewer as [| uid]; simpl.
  - split; [intros [? | [? _]]; done | by left].
  - split.
    + intros [Hp | [_ [Ho | Hi]]]; [by left | |].
      * injection Ho as ->. right; by right.
      * right; left. unfold Event.invited_users_all in Hi.
        apply list_elem_of_In, in_map_iff in Hi as (x & [= ->] & Hx).
        by apply list_elem_of_In.
    + intros [Hp | [Hi | Ho]]; [by left | |]; right; (split; [done |]).
      * right. unfold Event.invited_users_all.
        apply list_elem_of_In, in_map. by apply list_elem_of_In.
      * left. by rewrite Ho.
Qed.

Lemma retrieve_spec db u pk event :
  get_event db pk = Some event →
  retrieve db u pk
  = Py.Returned
      (if bool_decide (may_view u event) then Response (EventData event) HTTP_200_OK
       else if is_authenticated u then PermissionDenied else NotAuthenticated).
Proof.
  intros Hev. unfold retrieve. rewrite Hev.
  rewrite (proj1 (retrieve_admission u event)). simpl negb. cbv iota.
  rewrite (proj2 (retrieve_admission u event)).
  by destruct (bool_decide (may_view u event)).
Qed.

Section ListingFacts.
Variable order_by : ∀ A : Type, (A → Z) → list A → list A.
Arguments order_by {_} _ _.

Hypothesis order_by_perm : ∀ (A : Type) (key : A → Z) (l : list A),
  order_by key l ≡ₚ l.

Lemma get_queryset_elem db viewer e :
  e ∈ get_queryset (@order_by) db viewer ↔ e ∈ db_events db ∧ listed viewer e.
Proof.
  destruct viewer as [| uid]; simpl.
  - unfold public_only. rewrite order_by_perm, list_elem_of_filter.
    rewrite Is_true_true. tauto.
  - by apply visible_to_elem.
Qed.

(** X2. The list and the detail endpoint of the API agree: a stored
    event is in a viewer's listing exactly when [retrieve] answers it to
    that viewer with 200; and [retrieve] never ends in an exception. *)
Theorem listing_matches_retrieve db viewer e :
  events_wf db →
  e ∈ db_events db →
  (e ∈ get_queryset (@order_by) db viewer
   ↔ retrieve db viewer (Event.id e)
     = Py.Returned (Response (EventData e) HTTP_200_OK))
  ∧ ∀ pk, retrieve db viewer pk ≠ Py.Raised.
Proof.
  intros Hwf Hin. split.
  - rewrite get_queryset_elem, <- may_view_listed.
    rewrite (retrieve_spec db viewer (Event.id e) e (get_event_found db e Hwf Hin)).
    case_bool_decide as Hv.
    + split; [done | intros _; done].
    + split; [intros [_ ?]; done |]. by destruct (is_authenticated viewer).
  - intros pk. destruct (get_event db pk) as [event |] eqn:Hev.
    + by rewrite (retrieve_spec db viewer pk event Hev).
    + unfold retrieve. by rewrite Hev.
Qed.

(** X3. Logging in never hides an event: whatever the anonymous
    listing shows is in the listing of every user. *)
Theorem anonymous_listing_included db uid e :
  e ∈ get_queryset (@order_by) db AnonymousUser →
  e ∈ get_queryset (@order_by) db (User uid).
Proof.
  rewrite !get_queryset_elem. intros [Hin Hpub]. split; [done |]. by left.
Qed.
End ListingFacts.

(** ** Writing and deleting an event *)

(** X4. Only the organizer changes or deletes an event: [PUT], [PATCH]
    and [DELETE] by anyone else are refused (anonymous callers as not
    authenticated, the others as forbidden) and leave the database as
    it was. *)
Theorem only_organizer_writes db now u pk partial data event :
  get_event db pk = Some event →
  u ≠ User (Event.organizer event) →
  update db now u pk partial data
  = (if is_authenticated u then PermissionDenied else NotAuthenticated, db)
  ∧ destroy db u pk
    = (NotDeleted (if is_authenticated u then PermissionDenied else NotAuthenticated), db).
Proof.
  intros Hev Hne.
  assert (Hno : user_eqb (User (Event.organizer event)) u = false).
  { destruct (user_eqb (User (Event.organizer event)) u) eqn:Heq; [| done].
    apply user_eqb_eq in Heq. congruence. }
  split.
  - unfold update. destruct (is_authenticated u); simpl; [| done].
    by rewrite Hev, Hno.
  - unfold destroy.
    destruct (write_admission u event "destroy" "DELETE") as [-> Hobj]; [by apply (bool_decide_unpack _) | by apply (bool_decide_unpack _) |].
    destruct (is_authenticated u); simpl; [| done].
    by rewrite Hev, Hobj, Hno.
Qed.

Lemma find_filter {A} (p : A → bool) (Q : A → Prop) `{∀ x, Decision (Q x)} (l : list A) :
  (∀ x, p x = true → Q x) → find p (filter Q l) = find p l.
Proof.
  intros Himp. induction l as [| a l IH]; [done |].
  rewrite filter_cons. simpl. destruct (p a) eqn:Hp.
  - rewrite decide_True by (by apply Himp). simpl. by rewrite Hp.
  - destruct (decide (Q a)); simpl; [by rewrite Hp |]; done.
Qed.

Lemma find_filter_none {A} (p : A → bool) (Q : A → Prop) `{∀ x, Decision (Q x)}
    (l : list A) :
  (∀ x, p x = true → ¬ Q x) → find p (filter Q l) = None.
Proof.
  intros Himp. induction l as [| a l IH]; [done |].
  rewrite filter_cons. destruct (decide (Q a)) as [Hq | Hq]; [| done].
  simpl. destruct (p a) eqn:Hp; [| done]. by destruct (Himp a Hp).
Qed.

Lemma table_wf_filter {A K} (id : A → nat) (key : A → K) (Q : A → Prop)
    `{∀ x, Decision (Q x)} (l : list A) (next : nat) :
  table_wf id key l next → table_wf id key (filter Q l) next.
Proof.
  intros [Hids Hfresh Huniq]. split.
  - clear Hfresh Huniq. induction l as [| a l IH]; [done |].
    simpl in Hids. apply NoDup_cons in Hids as [Hnotin Hids].
    rewrite filter_cons. destruct (decide (Q a)); [| by apply IH].
    simpl. apply NoDup_cons. split; [| by apply IH].
    intros Hin. apply Hnotin.
    apply list_elem_of_In, in_map_iff in Hin as (x & Hx & Hxin).
    apply list_elem_of_In, list_elem_of_filter in Hxin as [_ Hxin].
    rewrite <- Hx. apply list_elem_of_In, in_map. by apply list_elem_of_In.
  - intros x Hx. apply list_elem_of_filter in Hx as [_ Hx]. by apply Hfresh.
  - clear Hfresh Hids. induction l as [| a l IH]; [done |].
    simpl in Huniq. apply NoDup_cons in Huniq as [Hnotin Huniq].
    rewrite filter_cons. destruct (decide (Q a)); [| by apply IH].
    simpl. apply NoDup_cons. split; [| by apply IH].
    intros Hin. apply Hnotin.
    apply list_elem_of_In, in_map_iff in Hin as (x & Hx & Hxin).
    apply list_elem_of_In, list_elem_of_filter in Hxin as [_ Hxin].
    rewrite <- Hx. apply list_elem_of_In, in_map. by apply list_elem_of_In.
Qed.

Lemma rsvps_wf_table db :
  rsvps_wf db ↔ table_wf RSVP.id rsvp_key (db_rsvps db) (next_rsvp_id db).
Proof. split; intros [? ? ?]; by split. Qed.

(** X5. Deleting an event takes its RSVPs and reviews with it and
    nothing else: after the organizer's [DELETE] the event is gone, no
    RSVP or review row refers to it, every other event keeps its row, its
    RSVPs and its reviews, and the tables still satisfy their
    constraints. *)
Theorem destroy_cascades db pk event :
  rsvps_wf db → reviews_wf db → events_wf db →
  get_event db pk = Some event →
  ∃ db',
    destroy db (User (Event.organizer event)) pk = (Deleted HTTP_204_NO_CONTENT, db')
    ∧ get_event db' pk = None
    ∧ (∀ r, r ∈ db_rsvps db' → RSVP.event r ≠ pk)
    ∧ (∀ r, r ∈ db_reviews db' → Review.event r ≠ pk)
    ∧ (∀ pk', pk' ≠ pk →
         get_event db' pk' = get_event db pk'
         ∧ ∀ u, rsvp_rows db' pk' u = rsvp_rows db pk' u
                ∧ review_rows db' pk' u = review_rows db pk' u)
    ∧ rsvps_wf db' ∧ reviews_wf db' ∧ events_wf db'.
Proof.
  intros Hrsvps Hreviews [Hids Hfresh] Hev.
  destruct (get_event_id _ _ _ Hev) as [Hid _].
  exists (delete_event db event).
  split; [| split; [| split; [| split; [| split; [| split; [| split]]]]]].
  - unfold destroy.
    destruct (write_admission (User (Event.organizer event)) event "destroy" "DELETE")
      as [-> Hobj]; [by apply (bool_decide_unpack _) | by apply (bool_decide_unpack _) |].
    simpl. rewrite Hev, Hobj. simpl. unfold user_eqb. by rewrite bool_decide_eq_true_2.
  - unfold get_event, delete_event; simpl. apply find_filter_none.
    intros x Hx. apply Nat.eqb_eq in Hx. intros Hne. congruence.
  - intros r Hr. simpl in Hr. apply list_elem_of_filter in Hr as [Hne _]. congruence.
  - intros r Hr. simpl in Hr. apply list_elem_of_filter in Hr as [Hne _]. congruence.
  - intros pk' Hne. split.
    + unfold get_event, delete_event; simpl. apply find_filter.
      intros x Hx. apply Nat.eqb_eq in Hx. congruence.
    + intros u. unfold rsvp_rows, review_rows, delete_event; simpl.
      rewrite !list_filter_filter. split; apply list_filter_iff; intros r.
      * split; [tauto |]. intros Hof. split; [done |].
        apply rsvp_of_key in Hof. injection Hof as He _. congruence.
      * split; [tauto |]. intros Hof. split; [done |].
        apply review_of_key in Hof. injection Hof as He _. congruence.
  - apply rsvps_wf_table. simpl. apply table_wf_filter. by apply rsvps_wf_table.
  - unfold reviews_wf. simpl. by apply table_wf_filter.
  - destruct (table_wf_filter Event.id Event.id (λ e, Event.id e ≠ Event.id event)
                (db_events db) (next_event_id db)) as [Hids' Hfresh' _]; [by split |].
    by split.
Qed.

(** ** More on the RSVP ledger *)

Lemma save_row_elem_inv {A} (id : A → nat) (new y : A) (l : list A) :
  y ∈ save_row id new l →
  (y = new ∧ ∃ x, x ∈ l ∧ id x = id new) ∨ (y ∈ l ∧ id y ≠ id new).
Proof.
  unfold save_row. intros Hy.
  apply list_elem_of_In, in_map_iff in Hy as (x & Hx & Hxin).
  apply list_elem_of_In in Hxin.
  destruct (Nat.eqb (id x) (id new)) eqn:Heq; subst y.
  - apply Nat.eqb_eq in Heq. left. split; [done |]. by exists x.
  - apply Nat.eqb_neq in Heq. by right.
Qed.

Lemma save_row_rekey {A K} (id : A → nat) (key : A → K) (new : A) (l : list A) :
  NoDup (map id l) → NoDup (map key l) →
  (∀ x, x ∈ l → key x = key new → id x = id new) →
  NoDup (map key (save_row id new l)).
Proof.
  induction l as [| a l IH]; intros Hids Hkeys Hfree; [constructor |].
  simpl in Hids, Hkeys.
  apply NoDup_cons in Hids as [Hida Hids]. apply NoDup_cons in Hkeys as [Hkeya Hkeys].
  assert (Htl : ∀ x, x ∈ l → key x = key new → id x = id new).
  { intros x Hx. apply Hfree. by right. }
  change (save_row id new (a :: l))
    with ((if Nat.eqb (id a) (id new) then new else a) :: save_row id new l).
  simpl. apply NoDup_cons. split; [| by apply IH].
  intros Hin. apply list_elem_of_In, in_map_iff in Hin as (y & Hy & Hyin).
  apply list_elem_of_In, save_row_elem_inv in Hyin as [[-> (x & Hx & Hidx)] | [Hyin Hidy]].
  - destruct (Nat.eqb (id a) (id new)) eqn:Heq.
    + apply Nat.eqb_eq in Heq. apply Hida. rewrite Heq, <- Hidx.
      apply list_elem_of_In, in_map. by apply list_elem_of_In.
    + apply Nat.eqb_neq in Heq. apply Heq. apply Hfree; [by left | done].
  - destruct (Nat.eqb (id a) (id new)) eqn:Heq.
    + apply Hidy. by apply Htl.
    + apply Hkeya. rewrite <- Hy. apply list_elem_of_In, in_map. by apply list_elem_of_In.
Qed.

Lemma rsvp_save_wf db obj db' :
  rsvps_wf db → RSVPObjects.save db obj = inr db' → rsvps_wf db'.
Proof.
  intros [Hids Hfresh Huniq]. unfold RSVPObjects.save.
  destruct (existsb _ (db_rsvps db)) eqn:Hex; [done |]. intros [= <-].
  assert (Hfree : ∀ x, x ∈ db_rsvps db → rsvp_key x = rsvp_key obj →
                       RSVP.id x = RSVP.id obj).
  { intros x Hx Hk.
    destruct (Nat.eqb (RSVP.id x) (RSVP.id obj)) eqn:Heq; [by apply Nat.eqb_eq |].
    exfalso. apply not_true_iff_false in Hex. apply Hex.
    apply existsb_exists. exists x. split; [by apply list_elem_of_In |].
    rewrite Heq. simpl. rewrite andb_true_r.
    apply Is_true_true, rsvp_of_key. done. }
  split; simpl.
  - by rewrite save_row_ids.
  - intros x Hx. apply save_row_elem_inv in Hx as [[-> (y & Hy & Hidy)] | [Hx _]].
    + rewrite <- Hidy. by apply Hfresh.
    + by apply Hfresh.
  - by apply (save_row_rekey RSVP.id rsvp_key).
Qed.

(** X6. Whatever the body of the [PATCH], also one that names another
    event, [update_rsvp] keeps the RSVP table within its constraints
    (one row per event and user, distinct primary keys) and its statuses
    among the three labels, and it never touches events or reviews. *)
Theorem update_rsvp_keeps_constraints db u pk user_id data :
  rsvps_wf db → statuses_valid db →
  rsvps_wf (snd (update_rsvp db u pk user_id data))
  ∧ statuses_valid (snd (update_rsvp db u pk user_id data))
  ∧ db_events (snd (update_rsvp db u pk user_id data)) = db_events db
  ∧ db_reviews (snd (update_rsvp db u pk user_id data)) = db_reviews db.
Proof.
  intros Hwf Hst. split; [| split; [by apply update_rsvp_keeps_statuses |]].
  - unfold update_rsvp.
    destruct (negb (is_authenticated u)); [done |].
    destruct (get_event db pk) as [event |]; [| done].
    destruct (filter _ (db_rsvps db)) as [| r [| r' l]]; [done | | done].
    destruct (negb (user_eqb u (User (RSVP.user r))) && _); [done |].
    destruct (RSVPSerializer.is_valid db true data) as [errs | vd]; [done |].
    match goal with
    | |- context [RSVPObjects.save db ?o] =>
        destruct (RSVPObjects.save db o) as [e | db'] eqn:Hsave; [done |]
    end.
    simpl. by apply (rsvp_save_wf db _ db' Hwf Hsave).
  - unfold update_rsvp.
    destruct (negb (is_authenticated u)); [done |].
    destruct (get_event db pk) as [event |]; [| done].
    destruct (filter _ (db_rsvps db)) as [| r [| r' l]]; [done | | done].
    destruct (negb (user_eqb u (User (RSVP.user r))) && _); [done |].
    destruct (RSVPSerializer.is_valid db true data) as [errs | vd]; [done |].
    unfold RSVPObjects.save. by destruct (existsb _ (db_rsvps db)).
Qed.

(** X7. [update_rsvp] answers "Not allowed to update this RSVP." (403)
    exactly to a logged-in caller who is neither the user of the RSVP nor
    the organizer of the event, and then changes nothing; a missing RSVP
    is a 404. *)
Theorem update_rsvp_authorization db u pk user_id data event :
  rsvps_wf db →
  is_authenticated u = true →
  get_event db pk = Some event →
  (rsvp_rows db pk user_id = [] → update_rsvp db u pk user_id data = (Http404, db))
  ∧ (rsvp_rows db pk user_id ≠ [] →
     (update_rsvp db u pk user_id data
      = (Response (Detail "Not allowed to update this RSVP.") HTTP_403_FORBIDDEN, db)
      ↔ u ≠ User user_id ∧ u ≠ User (Event.organizer event))).
Proof.
  intros Hwf Hauth Hev.
  destruct (get_event_id _ _ _ Hev) as [Hid _].
  unfold update_rsvp. rewrite Hauth, Hev, Hid. simpl negb. cbv iota.
  fold (rsvp_rows db pk user_id). split.
  - by intros ->.
  - intros Hrows.
    destruct (rsvp_rows_unique db pk user_id Hwf) as [Hnil | (r & Hr & Hin & Hkey)];
      [done |].
    rewrite Hr. injection Hkey as _ Huser. rewrite Huser.
    unfold user_eqb.
    destruct (decide (u = User user_id)) as [Heq1 | Hne1];
      destruct (decide (u = User (Event.organizer event))) as [Heq2 | Hne2];
      rewrite ?(bool_decide_eq_true_2 _ Heq1), ?(bool_decide_eq_true_2 _ Heq2),
        ?(bool_decide_eq_false_2 _ Hne1), ?(bool_decide_eq_false_2 _ Hne2); simpl.
    1-3: split; [| tauto];
      destruct (RSVPSerializer.is_valid _ true data) as [errs | vd]; [done |];
      unfold RSVPObjects.save; by destruct (existsb _ _).
    done.
Qed.

(** X8. The RSVP button of the site and the [rsvp] action of the API
    are the same operation: for a logged-in user, a [POST] of the form
    leaves the database the API call with the same status leaves, and the
    form ends in an exception only where the API call does.  A form
    request that is not a [POST] stores nothing. *)
Theorem rsvp_entry_points_agree db now req pk uid :
  request_user req = User uid →
  (request_method req = "POST" →
   match rsvp_create_or_update db now req pk with
   | inr (_, db') =>
       snd (rsvp db now (User uid) pk (mkRsvpData None (request_POST req !! "status")))
       = db'
   | inl e =>
       rsvp db now (User uid) pk (mkRsvpData None (request_POST req !! "status"))
       = (ServerError e, db)
   end)
  ∧ (request_method req ≠ "POST" →
     ∃ page, rsvp_create_or_update db now req pk = inr (page, db)).
Proof.
  intros Hu. unfold rsvp_create_or_update, rsvp. rewrite Hu. split.
  - intros Hm. rewrite Hm.
    destruct (get_event db pk) as [event |] eqn:Hev; [| done].
    destruct (get_event_id _ _ _ Hev) as [Hid _]. subst pk.
    destruct (negb (Event.is_public event) && _ && _); [done |]. simpl.
    unfold RSVPSerializer.is_valid, RSVPSerializer.field_event,
      RSVPSerializer.field_status, RSVPSerializer.validate_status.
    cbn [d_event d_status]. rewrite Hev.
    destruct (request_POST req !! "status") as [status |]; [| done].
    case_bool_decide as Hin.
    + rewrite bool_decide_eq_true_2 by done. cbn [d_status].
      by destruct (RSVPObjects.update_or_create _ _ _ _ _) as [e | [[obj c] db']].
    + by rewrite bool_decide_eq_false_2 by done.
  - intros Hm.
    destruct (get_event db pk) as [event |]; [| by eexists].
    destruct (negb (Event.is_public event) && _ && _); [by eexists |].
    destruct (String.eqb (request_method req) "POST") eqn:Heq; [| by eexists].
    by apply String.eqb_eq in Heq.
Qed.

(** ** More on the review ledger *)

Lemma reviews_post_wf db now uid pk data (order_by : ∀ A : Type, (A → Z) → list A → list A) :
  reviews_wf db →
  reviews_wf (snd (reviews order_by db now (User uid) pk (Some data))).
Proof.
  intros Hwf. unfold reviews.
  destruct (get_event db pk) as [event |]; [| done].
  destruct (ReviewSerializer.is_valid data) as [errs | [rating comment]]; [done |].
  unfold ReviewObjects.create.
  destruct (existsb _ (db_reviews db)) eqn:Hex; [done |]. simpl.
  apply review_exists_rows in Hex. rewrite review_rows_key in Hex.
  by apply (table_insert Review.id review_key (db_reviews db) (next_review_id db)
              (Review.mk (next_review_id db) (Event.id event) uid rating comment now)).
Qed.

Lemma post_review_frame (order_by : ∀ A : Type, (A → Z) → list A → list A)
    db now req pk page db' :
  post_review order_by db now req pk = inr (page, db') →
  db_events db' = db_events db ∧ db_rsvps db' = db_rsvps db.
Proof.
  unfold post_review.
  destruct (request_user req) as [| uid]; [by intros [= _ <-] |].
  destruct (get_event db pk) as [event |]; [| by intros [= _ <-]].
  destruct (String.eqb (request_method req) "POST"); [| by intros [= _ <-]].
  destruct (rating_int (request_POST req !! "rating")) as [z |]; [| by intros [= _ <-]].
  destruct (head _) as [existing |]; [by intros [= _ <-] |].
  unfold ReviewObjects.create.
  destruct (existsb _ (db_reviews db)); [done |]. by intros [= _ <-].
Qed.

Section ReviewFacts.
Variable order_by : ∀ A : Type, (A → Z) → list A → list A.
Arguments order_by {_} _ _.

Hypothesis order_by_perm : ∀ (A : Type) (key : A → Z) (l : list A),
  order_by key l ≡ₚ l.
Hypothesis order_by_sorted : ∀ (A : Type) (key : A → Z) (l : list A),
  Sorted (λ a b, (key b ≤ key a)%Z) (order_by key l).

(** X9. The review form is an upsert: with a rating in range it leaves
    exactly one review of the pair, holding the new rating and the
    stripped comment; an earlier review keeps its primary key and
    [created_at], a first review gets the next key and [created_at =
    now]; the reviews of every other pair are as before and the table
    keeps its constraints. *)
Theorem post_review_upsert db now req pk event uid z :
  reviews_wf db →
  request_user req = User uid → request_method req = "POST" →
  get_event db pk = Some event →
  rating_int (request_POST req !! "rating") = Some z →
  ∃ msg db' obj,
    post_review (@order_by) db now req pk
    = inr (Redirect "events_detail" (Some pk) [(SUCCESS, msg)], db')
    ∧ reviews_wf db'
    ∧ review_rows db' pk uid = [obj]
    ∧ (∀ e' u', (e', u') ≠ (pk, uid) → review_rows db' e' u' = review_rows db e' u')
    ∧ obj = Review.mk
              (match review_rows db pk uid with
               | [] => next_review_id db
               | r :: _ => Review.id r
               end)
              pk uid z
              (PyStr.strip (default "" (request_POST req !! "comment")))
              (match review_rows db pk uid with
               | [] => now
               | r :: _ => Review.created_at r
               end).
Proof.
  intros Hwf Hu Hm Hev Hrating.
  destruct (post_review_spec (@order_by) order_by_perm db now req pk event uid z
              Hwf Hu Hm Hev Hrating)
    as (msg & db' & obj & Heq & Hwf' & Hrows & Hothers & Hr & Hc & Hcase).
  exists msg, db', obj. repeat (split; [done |]).
  assert (Hkey : review_key obj = (pk, uid)).
  { assert (Hin : obj ∈ review_rows db' pk uid) by (rewrite Hrows; by left).
    unfold review_rows in Hin. apply list_elem_of_filter in Hin as [Hof _].
    by apply review_of_key. }
  injection Hkey as Hke Hku.
  destruct obj as [oid oe ou orat ocom ocre]; simpl in *. subst.
  destruct (review_rows db pk uid) as [| r ?]; destruct Hcase as (-> & -> & _); done.
Qed.


(** X11. No request on reviews breaks the review table: the [reviews]
    action (list or post, any caller, any body) and the review form (any
    request) keep at most one review per event and user and distinct
    primary keys, and neither touches events or RSVPs.  Listing changes
    nothing at all. *)
Theorem reviews_keep_constraints db now :
  reviews_wf db →
  (∀ u pk data,
     reviews_wf (snd (reviews (@order_by) db now u pk data))
     ∧ db_events (snd (reviews (@order_by) db now u pk data)) = db_events db
     ∧ db_rsvps (snd (reviews (@order_by) db now u pk data)) = db_rsvps db
     ∧ (data = None → snd (reviews (@order_by) db now u pk data) = db))
  ∧ (∀ req pk,
       match post_review (@order_by) db now req pk with
       | inr (_, db') =>
           reviews_wf db' ∧ db_events db' = db_events db ∧ db_rsvps db' = db_rsvps db
       | inl _ => True
       end).
Proof.
  intros Hwf. split.
  - intros u pk data. split; [| split; [| split]].
    + destruct data as [data |].
      * destruct u as [| uid]; [done |]. by apply reviews_post_wf.
      * unfold reviews. by destruct (get_event db pk).
    + unfold reviews. destruct data as [data |].
      * destruct u as [| uid]; [done |].
        destruct (get_event db pk) as [event |]; [| done].
        destruct (ReviewSerializer.is_valid data) as [errs | [rating comment]]; [done |].
        unfold ReviewObjects.create. by destruct (existsb _ (db_reviews db)).
      * by destruct (get_event db pk).
    + unfold reviews. destruct data as [data |].
      * destruct u as [| uid]; [done |].
        destruct (get_event db pk) as [event |]; [| done].
        destruct (ReviewSerializer.is_valid data) as [errs | [rating comment]]; [done |].
        unfold ReviewObjects.create. by destruct (existsb _ (db_reviews db)).
      * by destruct (get_event db pk).
    + intros ->. unfold reviews. by destruct (get_event db pk).
  - intros req pk.
    destruct (request_user req) as [| uid] eqn:Hu;
      [unfold post_review; by rewrite Hu |].
    destruct (get_event db pk) as [event |] eqn:Hev;
      [| unfold post_review; by rewrite Hu, Hev].
    destruct (String.eqb (request_method req) "POST") eqn:Hm;
      [| unfold post_review; by rewrite Hu, Hev, Hm].
    apply String.eqb_eq in Hm.
    destruct (rating_int (request_POST req !! "rating")) as [z |] eqn:Hrating.
    + destruct (post_review_spec (@order_by) order_by_perm db now req pk event uid z
                  Hwf Hu Hm Hev Hrating)
        as (msg & db' & obj & Heq & Hwf' & _).
      rewrite Heq. split; [done |]. by apply (post_review_frame (@order_by) db now req pk _ db' Heq).
    + unfold post_review. by rewrite Hu, Hev, Hm, Hrating.
Qed.
End ReviewFacts.

(** ** More on aggregation *)

Lemma count_status_of g m n st :
  valid_status st →
  count_status (counts_of g m n) st
  = counts_of (g + (if decide (st = "Going") then 1 else 0))
      (m + (if decide (st = "Maybe") then 1 else 0))
      (n + (if decide (st = "Not Going") then 1 else 0)).
Proof.
  intros Hst.
  destruct (valid_status_cases st Hst) as [-> | [-> | ->]];
    unfold count_status, counts_of; simpl;
    apply map_eq; intros k;
    rewrite ?lookup_total_alt;
    repeat (rewrite lookup_insert; case_decide; simplify_eq; simpl;
            try (f_equal; lia)); done.
Qed.

Lemma foldl_count_status (rows : list RSVP.t) : ∀ g m n,
  Forall (λ r, valid_status (RSVP.status r)) rows →
  foldl count_status (counts_of g m n) (map RSVP.status rows)
  = counts_of (g + length (filter (λ r, RSVP.status r = "Going") rows))
      (m + length (filter (λ r, RSVP.status r = "Maybe") rows))
      (n + length (filter (λ r, RSVP.status r = "Not Going") rows)).
Proof.
  induction rows as [| r rows IH]; intros g m n Hall; simpl.
  - by rewrite !Nat.add_0_r.
  - apply Forall_cons in Hall as [Hr Hall].
    rewrite (count_status_of g m n _ Hr), (IH _ _ _ Hall). rewrite !filter_cons.
    repeat case_decide; simpl; f_equal; lia.
Qed.

Section CountFacts.
Variable order_by : ∀ A : Type, (A → Z) → list A → list A.
Arguments order_by {_} _ _.

Hypothesis order_by_perm : ∀ (A : Type) (key : A → Z) (l : list A),
  order_by key l ≡ₚ l.

(** X12. Where every stored status is one of the three labels, each
    value of the [counts] dictionary is the number of the event's RSVP
    rows with that label: [Going] and [Maybe] under their own name,
    [Not Going] under [Not_Going]. *)
Theorem rsvp_counts_by_label db ev :
  statuses_valid db →
  rsvp_counts (@order_by) db ev
  = counts_of (labelled db ev "Going") (labelled db ev "Maybe")
      (labelled db ev "Not Going").
Proof.
  intros Hvalid. unfold rsvp_counts.
  set (rows := filter (λ r, Nat.eqb (RSVP.event r) (Event.id ev)) (db_rsvps db)).
  assert (Hall : Forall (λ r, valid_status (RSVP.status r)) (order_by RSVP.created_at rows)).
  { apply Forall_forall. intros r Hr. apply Hvalid.
    rewrite (order_by_perm _ _ rows) in Hr. subst rows.
    by apply list_elem_of_filter in Hr as [_ ?]. }
  change counts_init with (counts_of 0 0 0).
  rewrite (foldl_count_status _ 0 0 0 Hall). simpl.
  assert (Hlab : ∀ label,
            length (filter (λ r, RSVP.status r = label) (order_by RSVP.created_at rows))
            = labelled db ev label).
  { intros label. rewrite (order_by_perm _ _ rows). subst rows. unfold labelled.
    rewrite list_filter_filter. f_equal. apply list_filter_iff. intros r.
    rewrite Is_true_true, Nat.eqb_eq. tauto. }
  by rewrite !Hlab.
Qed.
End CountFacts.

Section DetailFacts.
Variable order_by : ∀ A : Type, (A → Z) → list A → list A.
Arguments order_by {_} _ _.

Hypothesis order_by_perm : ∀ (A : Type) (key : A → Z) (l : list A),
  order_by key l ≡ₚ l.

(** X13. An RSVP can be read back: after the [rsvp] action has answered
    a user with the serialized RSVP, the detail page of that event,
    requested by the same user, is rendered (not refused) and shows
    exactly that RSVP as the user's own, with the status that was sent. *)
Theorem rsvp_then_detail db now uid pk data obj code db' req :
  rsvps_wf db →
  rsvp db now (User uid) pk data = (Response (RSVPData obj) code, db') →
  request_user req = User uid →
  ∃ ctx,
    event_detail_view (@order_by) db' req pk = RenderDetail ctx
    ∧ Event.id (c_event ctx) = pk
    ∧ c_user_rsvp ctx = Some obj
    ∧ d_status data = Some (RSVP.status obj).
Proof.
  intros Hwf Heq Hu.
  destruct (rsvp_step db now (User uid) pk data Hwf)
    as (resp & db'' & Heq' & _ & Hevs & Hresp).
  rewrite Heq in Heq'. injection Heq' as <- <-.
  destruct Hresp as (uid' & st & [= <-] & Hst & Hrows & _ & Hstatus & _).
  unfold rsvp in Heq.
  destruct (get_event db pk) as [event |] eqn:Hev; [| done].
  destruct (get_event_id _ _ _ Hev) as [Hid _].
  destruct (negb (Event.is_public event) && _ && _) eqn:Hgate; [done |]. clear Heq.
  assert (Hev' : get_event db' pk = Some event).
  { unfold get_event in *. by rewrite Hevs. }
  unfold event_detail_view. rewrite Hev', Hu.
  assert (Hallowed : detail_denied (User uid) event = false).
  { unfold detail_denied. simpl.
    destruct (Event.is_public event); simpl in *; [done |]. done. }
  rewrite Hallowed. eexists. split; [done |]. simpl. split; [done |].
  split; [| by rewrite Hst, Hstatus].
  rewrite Hid. fold (rsvp_rows db' pk uid). rewrite Hrows.
  by apply head_order_by_singleton.
Qed.
End DetailFacts.

(** ** More on writing events *)

Lemma get_event_append db ev n pk :
  (∀ e, e ∈ db_events db → Event.id e ≠ Event.id ev) →
  get_event (set_events db (db_events db ++ [ev]) n) pk
  = if Nat.eqb (Event.id ev) pk then Some ev else get_event db pk.
Proof.
  intros Hfresh. unfold get_event; simpl.
  induction (db_events db) as [| a l IH]; simpl.
  - by destruct (Nat.eqb (Event.id ev) pk).
  - destruct (Nat.eqb (Event.id a) pk) eqn:Ha.
    + apply Nat.eqb_eq in Ha. destruct (Nat.eqb (Event.id ev) pk) eqn:Hev; [| done].
      apply Nat.eqb_eq in Hev. exfalso. apply (Hfresh a); [by left | congruence].
    + apply IH. intros e He. apply Hfresh. by right.
Qed.


Lemma events_wf_append db ev :
  events_wf db → Event.id ev = next_event_id db →
  events_wf (set_events db (db_events db ++ [ev]) (S (next_event_id db))).
Proof.
  intros [Hids Hfresh] Hid. split; simpl.
  - rewrite map_app. apply NoDup_app. split; [done |]. split; [| apply NoDup_singleton].
    intros i Hi Hi'. apply list_elem_of_singleton in Hi'. subst i.
    apply list_elem_of_In, in_map_iff in Hi as (x & Hx & Hxin).
    apply list_elem_of_In, Hfresh in Hxin. lia.
  - intros x Hx. apply elem_of_app in Hx as [Hx | Hx].
    + apply Hfresh in Hx. lia.
    + apply list_elem_of_singleton in Hx. subst x. lia.
Qed.


Lemma unknown_invited_nil db data :
  EventSerializer.unknown_invited db data = [] →
  ∀ l, d_invited_users data = Some l →
       ∀ u, u ∈ l → EventSerializer.user_exists db u = true.
Proof.
  unfold EventSerializer.unknown_invited. intros H l Hl u Hu. rewrite Hl in H.
  destruct (forallb (EventSerializer.user_exists db) l) eqn:Hall; [| done].
  rewrite forallb_forall in Hall. by apply Hall, list_elem_of_In.
Qed.

Lemma is_valid_invited db instance partial data vd :
  EventSerializer.is_valid db instance partial data = inr vd →
  ∀ l, d_invited_users vd = Some l →
       ∀ u, u ∈ l → EventSerializer.user_exists db u = true.
Proof.
  intros Hvd. pose proof (is_valid_spec _ _ _ _ _ Hvd) as (-> & _ & _).
  unfold EventSerializer.is_valid in Hvd.
  destruct (EventSerializer.missing partial data ++ _) as [| err errs] eqn:Herrs; [| done].
  apply app_eq_nil in Herrs as [_ Hunk]. by apply unknown_invited_nil.
Qed.

(** X14. A created event can be fetched: when [POST /api/events/]
    answers 201, the new event has the next primary key, the caller as
    organizer and [created_at = now]; [get_event] finds it under its key
    and still finds every earlier event; keys stay distinct, invitations
    name stored users only, and RSVPs and reviews are untouched.  Any
    other answer leaves the database as it was. *)
Theorem create_stores_event db now uid data :
  events_wf db → invited_known db →
  match create db now (User uid) data with
  | (Response (EventData ev) code, db') =>
      code = HTTP_201_CREATED
      ∧ Event.id ev = next_event_id db
      ∧ Event.organizer ev = uid
      ∧ Event.created_at ev = now
      ∧ get_event db' (Event.id ev) = Some ev
      ∧ (∀ pk e, get_event db pk = Some e → get_event db' pk = Some e)
      ∧ events_wf db' ∧ invited_known db'
      ∧ db_rsvps db' = db_rsvps db ∧ db_reviews db' = db_reviews db
  | (_, db') => db' = db
  end.
Proof.
  intros Hwf Hknown. unfold create.
  destruct (EventSerializer.is_valid db None false data) as [errs | vd] eqn:Hvd; [done |].
  pose proof (is_valid_invited _ _ _ _ _ Hvd) as Hinv.
  unfold EventSerializer.create.
  set (ev := Event.mk (next_event_id db) _ _ uid _ _ _ _ _ now now).
  assert (Hfresh : ∀ e, e ∈ db_events db → Event.id e ≠ Event.id ev).
  { intros e He. apply (proj2 Hwf) in He. simpl. lia. }
  repeat (split; [done |]).
  split; [| split; [| split; [| split]]]; try done.
  - rewrite get_event_append by done. by rewrite Nat.eqb_refl.
  - intros pk e He. rewrite get_event_append by done.
    destruct (Nat.eqb (Event.id ev) pk) eqn:Heq; [| done].
    apply Nat.eqb_eq in Heq. apply get_event_id in He as [Hid Hin].
    exfalso. apply (Hfresh e Hin). congruence.
  - by apply events_wf_append.
  - intros e u He Hu. simpl in He.
    apply elem_of_app in He as [He | He]; [by apply (Hknown e u) |].
    apply list_elem_of_singleton in He. subst e. simpl in Hu.
    rewrite elem_of_remove_dups in Hu.
    change (EventSerializer.user_exists db u = true).
    destruct (d_invited_users vd) as [l |] eqn:Hl; simpl in Hu.
    + by apply (Hinv l).
    + by apply elem_of_nil in Hu.
Qed.


(** ** The invitation loop of the creation form *)







Section CreationForm.
Variable parse_datetime : string → exn + option pydatetime.
Variable make_aware : Z → Z.

End CreationForm.

(** ** Profiles *)

Lemma profiles_of_unique pdb user :
  profiles_wf pdb →
  profiles_of pdb user = []
  ∨ ∃ p, profiles_of pdb user = [p] ∧ p ∈ profiles pdb ∧ UserProfile.user p = user.
Proof. intros Hwf. apply unique_filter, Hwf. Qed.

Lemma profile_exists_rows pdb user :
  existsb (λ p, Nat.eqb (UserProfile.user p) user) (profiles pdb) = false
  ↔ profiles_of pdb user = [].
Proof.
  unfold profiles_of. induction (profiles pdb) as [| p l IH]; simpl; [done |].
  rewrite filter_cons, orb_false_iff, IH.
  destruct (Nat.eqb (UserProfile.user p) user) eqn:Heq.
  - apply Nat.eqb_eq in Heq. rewrite decide_True by done.
    split; [intros [? _]; done | done].
  - apply Nat.eqb_neq in Heq. rewrite decide_False by done. tauto.
Qed.

Lemma save_row_same {A} (id : A → nat) (p : A) (l : list A) :
  NoDup (map id l) → p ∈ l → save_row id p l = l.
Proof.
  intros Hnd Hp. unfold save_row. rewrite <- (map_id l) at 2.
  apply map_ext_in. intros x Hx.
  destruct (Nat.eqb (id x) (id p)) eqn:Heq; [| done].
  apply Nat.eqb_eq in Heq. symmetry.
  by apply (NoDup_map_inj id l); [| apply list_elem_of_In | |].
Qed.

Lemma profile_create_spec pdb user :
  profiles_wf pdb → profiles_of pdb user = [] →
  ∃ obj pdb',
    UserProfileObjects.create pdb user = inr (obj, pdb')
    ∧ UserProfile.user obj = user
    ∧ profiles_wf pdb'
    ∧ profiles_of pdb' user = [obj]
    ∧ ∀ v, v ≠ user → profiles_of pdb' v = profiles_of pdb v.
Proof.
  intros Hwf Hnone. unfold UserProfileObjects.create.
  rewrite (proj2 (profile_exists_rows pdb user) Hnone).
  set (obj := UserProfile.mk (next_profile_id pdb) user "" "" "" None).
  destruct (table_insert UserProfile.id UserProfile.user (profiles pdb)
              (next_profile_id pdb) obj) as (Hwf' & Hnew & Hothers); [done | done | done |].
  eexists _, _. split; [done |]. split; [done |]. split; [exact Hwf' |].
  split; [exact Hnew |]. intros v Hv. by apply Hothers.
Qed.

(** X17. The [post_save] receiver keeps one profile per user.  On a
    profile table that satisfies its one-to-one constraint: for a saved
    (not new) user it always succeeds, leaves exactly one profile of the
    user, and changes nothing when the profile was there; for a new user
    without a profile it creates the one profile; for a new user who
    already has one it ends in [IntegrityError].  The profiles of other
    users are never touched. *)
Theorem profile_signal_one_profile pdb user :
  profiles_wf pdb →
  (∃ pdb',
     create_or_update_user_profile pdb user false = inr pdb'
     ∧ profiles_wf pdb'
     ∧ (∃ p, profiles_of pdb' user = [p])
     ∧ (∀ v, v ≠ user → profiles_of pdb' v = profiles_of pdb v)
     ∧ (profiles_of pdb user ≠ [] → pdb' = pdb))
  ∧ (profiles_of pdb user = [] →
     ∃ pdb',
       create_or_update_user_profile pdb user true = inr pdb'
       ∧ profiles_wf pdb'
       ∧ (∃ p, profiles_of pdb' user = [p])
       ∧ ∀ v, v ≠ user → profiles_of pdb' v = profiles_of pdb v)
  ∧ (profiles_of pdb user ≠ [] →
     create_or_update_user_profile pdb user true = inl IntegrityError).
Proof.
  intros Hwf. split; [| split].
  - unfold create_or_update_user_profile, UserProfileObjects.related.
    fold (profiles_of pdb user).
    destruct (profiles_of_unique pdb user Hwf) as [Hnil | (p & Hp & Hin & Hpu)].
    + rewrite Hnil.
      destruct (profile_create_spec pdb user Hwf Hnil)
        as (obj & pdb' & -> & _ & Hwf' & Hrows & Hothers).
      exists pdb'. simpl. split; [done |]. split; [done |].
      split; [by exists obj |]. split; [done |]. intros Hne. by destruct Hne.
    + rewrite Hp. exists pdb.
      assert (Hsame : UserProfileObjects.save pdb p = pdb).
      { unfold UserProfileObjects.save.
        rewrite (save_row_same UserProfile.id p (profiles pdb));
          [by destruct pdb | apply Hwf | done]. }
      rewrite Hsame. split; [done |]. split; [done |].
      split; [by exists p |]. done.
  - intros Hnil. unfold create_or_update_user_profile.
    destruct (profile_create_spec pdb user Hwf Hnil)
      as (obj & pdb' & -> & _ & Hwf' & Hrows & Hothers).
    exists pdb'. simpl. split; [done |]. split; [done |]. split; [by exists obj | done].
  - intros Hsome. unfold create_or_update_user_profile, UserProfileObjects.create.
    destruct (existsb _ (profiles pdb)) eqn:Hex; [done |].
    by apply profile_exists_rows in Hex.
Qed.

Section ProfileFacts.
Variable order_by : ∀ A : Type, (A → Z) → list A → list A.
Arguments order_by {_} _ _.

Hypothesis order_by_perm : ∀ (A : Type) (key : A → Z) (l : list A),
  order_by key l ≡ₚ l.
Hypothesis order_by_sorted : ∀ (A : Type) (key : A → Z) (l : list A),
  Sorted (λ a b, (key b ≤ key a)%Z) (order_by key l).

(** X18. The profile page of a logged-in user always finds a profile:
    it creates the missing one, so that afterwards the user has exactly
    one, and asking again shows the same page without creating another.
    The page lists the events the user organizes, the events that
    invite the user, and the user's RSVPs and reviews, each newest
    first, and nobody else's.  An anonymous request gets no page and
    creates nothing. *)
Theorem profile_view_ensures_profile db pdb req :
  profiles_wf pdb →
  match request_user req with
  | AnonymousUser => profile_view (@order_by) db pdb req = inr (None, pdb)
  | User uid =>
      ∃ ctx pdb',
        profile_view (@order_by) db pdb req = inr (Some ctx, pdb')
        ∧ profiles_wf pdb'
        ∧ profiles_of pdb' uid = [pc_profile ctx]
        ∧ (profiles_of pdb uid ≠ [] → pdb' = pdb)
        ∧ profile_view (@order_by) db pdb' req = inr (Some ctx, pdb')
        ∧ (∀ e, e ∈ pc_organized_events ctx
                ↔ e ∈ db_events db ∧ Event.organizer e = uid)
        ∧ (∀ e, e ∈ pc_invited_events ctx
                ↔ e ∈ db_events db ∧ uid ∈ Event.invited_users e)
        ∧ (∀ r, r ∈ pc_rsvps ctx ↔ r ∈ db_rsvps db ∧ RSVP.user r = uid)
        ∧ (∀ r, r ∈ pc_reviews ctx ↔ r ∈ db_reviews db ∧ Review.user r = uid)
        ∧ Sorted (λ a b, (Event.created_at b ≤ Event.created_at a)%Z)
            (pc_organized_events ctx)
        ∧ Sorted (λ a b, (Event.created_at b ≤ Event.created_at a)%Z)
            (pc_invited_events ctx)
        ∧ Sorted (λ a b, (RSVP.created_at b ≤ RSVP.created_at a)%Z) (pc_rsvps ctx)
        ∧ Sorted (λ a b, (Review.created_at b ≤ Review.created_at a)%Z) (pc_reviews ctx)
  end.
Proof.
  intros Hwf. unfold profile_view.
  destruct (request_user req) as [| uid]; [done |].
  unfold UserProfileObjects.related. fold (profiles_of pdb uid).
  assert (Hlists : ∀ ctx' : profile_context,
            pc_organized_events ctx'
            = order_by Event.created_at
                (filter (λ e, Event.organizer e = uid) (db_events db)) →
            pc_invited_events ctx'
            = order_by Event.created_at
                (filter (λ e, uid ∈ Event.invited_users e) (db_events db)) →
            pc_rsvps ctx'
            = order_by RSVP.created_at (filter (λ r, RSVP.user r = uid) (db_rsvps db)) →
            pc_reviews ctx'
            = order_by Review.created_at
                (filter (λ r, Review.user r = uid) (db_reviews db)) →
            (∀ e, e ∈ pc_organized_events ctx'
                  ↔ e ∈ db_events db ∧ Event.organizer e = uid)
            ∧ (∀ e, e ∈ pc_invited_events ctx'
                    ↔ e ∈ db_events db ∧ uid ∈ Event.invited_users e)
            ∧ (∀ r, r ∈ pc_rsvps ctx' ↔ r ∈ db_rsvps db ∧ RSVP.user r = uid)
            ∧ (∀ r, r ∈ pc_reviews ctx' ↔ r ∈ db_reviews db ∧ Review.user r = uid)
            ∧ Sorted (λ a b, (Event.created_at b ≤ Event.created_at a)%Z)
                (pc_organized_events ctx')
            ∧ Sorted (λ a b, (Event.created_at b ≤ Event.created_at a)%Z)
                (pc_invited_events ctx')
            ∧ Sorted (λ a b, (RSVP.created_at b ≤ RSVP.created_at a)%Z) (pc_rsvps ctx')
            ∧ Sorted (λ a b, (Review.created_at b ≤ Review.created_at a)%Z)
                (pc_reviews ctx')).
  { intros ctx' -> -> -> ->.
    do 4 (split; [intros x; rewrite order_by_perm, list_elem_of_filter; tauto |]).
    repeat split; apply order_by_sorted. }
  destruct (profiles_of_unique pdb uid Hwf) as [Hnil | (p & Hp & Hin & Hpu)].
  - rewrite Hnil.
    destruct (profile_create_spec pdb uid Hwf Hnil)
      as (obj & pdb' & -> & _ & Hwf' & Hrows & Hothers).
    eexists _, pdb'. split; [done |]. split; [done |]. split; [done |].
    split; [intros Hne; by destruct Hne |].
    split; [unfold profiles_of in Hrows; by rewrite Hrows |]. by apply Hlists.
  - rewrite Hp. eexists _, pdb. split; [done |]. split; [done |]. split; [done |].
    split; [done |]. split; [unfold profiles_of in Hp; by rewrite Hp |]. by apply Hlists.
Qed.
End ProfileFacts.

(** ** More on the RSVP entry points *)

(** X19. Neither RSVP entry point can break the RSVP table or reach
    beyond it.  From a table within its constraints and labels, the
    [rsvp] action, for any caller, any event id and any body that is a
    mapping (a JSON object or form data, which is what [rsvp_data]
    holds), and the RSVP form, for any request, leave a table within its
    constraints and labels, do not end in an exception, and leave events
    and reviews untouched.  A body that is no mapping (a JSON array or
    scalar) is outside this statement. *)
Theorem rsvp_keeps_constraints db now :
  rsvps_wf db → statuses_valid db →
  (∀ u pk data,
     rsvps_wf (snd (rsvp db now u pk data))
     ∧ statuses_valid (snd (rsvp db now u pk data))
     ∧ db_events (snd (rsvp db now u pk data)) = db_events db
     ∧ db_reviews (snd (rsvp db now u pk data)) = db_reviews db
     ∧ ∀ e, fst (rsvp db now u pk data) ≠ ServerError e)
  ∧ (∀ req pk,
       ∃ page db',
         rsvp_create_or_update db now req pk = inr (page, db')
         ∧ rsvps_wf db' ∧ statuses_valid db'
         ∧ db_events db' = db_events db ∧ db_reviews db' = db_reviews db).
Proof.
  intros Hwf Hst. split.
  - intros u pk data. split; [| split; [by apply rsvp_keeps_statuses |]].
    + destruct (rsvp_step db now u pk data Hwf) as (resp & db' & -> & Hwf' & _). done.
    + unfold rsvp.
      destruct u as [| uid]; [done |].
      destruct (get_event db pk) as [event |]; [| done].
      destruct (negb (Event.is_public event) && _ && _); [done |].
      destruct (RSVPSerializer.is_valid db false _) as [errs | vd] eqn:Hvd; [done |].
      assert (Hsome : ∃ st, d_status vd = Some st).
      { unfold RSVPSerializer.is_valid, RSVPSerializer.field_status in Hvd.
        cbn [d_status d_event] in Hvd.
        destruct (RSVPSerializer.field_event db false (Some (Event.id event)));
          destruct (d_status data) as [s |]; try done;
          destruct (RSVPSerializer.validate_status s) as [s' |]; try done.
        injection Hvd as <-. by eexists. }
      destruct Hsome as [st ->].
      destruct (update_or_create_spec db now (Event.id event) uid st Hwf)
        as (obj & created & db' & -> & _ & _ & _ & _ & _ & Hevs & Hrevs & _).
      done.
  - intros req pk. unfold rsvp_create_or_update.
    destruct (request_user req) as [| uid]; [by eexists _, _ |].
    destruct (get_event db pk) as [event |]; [| by eexists _, _].
    destruct (negb (Event.is_public event) && _ && _); [by eexists _, _ |].
    destruct (String.eqb (request_method req) "POST"); [| by eexists _, _].
    destruct (request_POST req !! "status") as [status |]; [| by eexists _, _].
    case_bool_decide as Hvalid; [| by eexists _, _].
    destruct (update_or_create_spec db now (Event.id event) uid status Hwf)
      as (obj & created & db' & Heq & Hwf' & _ & _ & _ & _ & Hevs & Hrevs & _).
    pose proof (update_or_create_rows _ _ _ _ _ _ _ _ Heq) as [Hobj Hrows].
    rewrite Heq. eexists _, db'. split; [done |]. split; [done |].
    split; [| done].
    intros x Hx. destruct (Hrows x Hx) as [-> | Hold]; [by rewrite Hobj | by apply Hst].
Qed.

Lemma rsvp_save_unique db r obj :
  rsvps_wf db → r ∈ db_rsvps db →
  RSVP.id obj = RSVP.id r → rsvp_key obj = rsvp_key r →
  RSVPObjects.save db obj
  = inr (set_rsvps db (save_row RSVP.id obj (db_rsvps db)) (next_rsvp_id db)).
Proof.
  intros Hwf Hr Hid Hkey. unfold RSVPObjects.save.
  destruct (existsb _ (db_rsvps db)) eqn:Hex; [| done].
  apply existsb_exists in Hex as (x & Hx & Hcond).
  apply andb_true_iff in Hcond as [Hof Hne].
  apply Is_true_true, rsvp_of_key in Hof. apply list_elem_of_In in Hx.
  assert (x = r).
  { destruct (unique_filter rsvp_key (rsvp_key r) (db_rsvps db) (rsvp_unique _ Hwf))
      as [Hnil | (r' & Hr' & _ & _)].
    - assert (Hin : r ∈ filter (λ y, rsvp_key y = rsvp_key r) (db_rsvps db))
        by (by apply list_elem_of_filter).
      rewrite Hnil in Hin. by apply elem_of_nil in Hin.
    - assert (Hin : r ∈ filter (λ y, rsvp_key y = rsvp_key r) (db_rsvps db))
        by (by apply list_elem_of_filter).
      assert (Hinx : x ∈ filter (λ y, rsvp_key y = rsvp_key r) (db_rsvps db)).
      { apply list_elem_of_filter. split; [| done]. rewrite Hof. exact Hkey. }
      rewrite Hr' in Hin, Hinx.
      apply list_elem_of_singleton in Hin, Hinx. congruence. }
  subst x. apply negb_true_iff, Nat.eqb_neq in Hne. congruence.
Qed.

(** X20. The owner of an RSVP and the organizer of the event can both
    change its status: for a stored RSVP, a [PATCH] by either of them
    with one of the three labels is answered 200, and the row then
    carries the new status and is otherwise the same row. *)
Theorem update_rsvp_changes_status db u pk user_id event r st :
  rsvps_wf db →
  get_event db pk = Some event →
  rsvp_rows db pk user_id = [r] →
  u = User user_id ∨ u = User (Event.organizer event) →
  valid_status st →
  ∃ db',
    update_rsvp db u pk user_id (mkRsvpData None (Some st))
    = (Response
         (RSVPData (RSVP.mk (RSVP.id r) pk user_id st (RSVP.created_at r)))
         HTTP_200_OK, db')
    ∧ rsvp_rows db' pk user_id
      = [RSVP.mk (RSVP.id r) pk user_id st (RSVP.created_at r)].
Proof.
  intros Hwf Hev Hrows Hwho Hvalid.
  destruct (get_event_id _ _ _ Hev) as [Hid _].
  assert (Hr : r ∈ db_rsvps db ∧ rsvp_key r = (pk, user_id)).
  { assert (Hin : r ∈ rsvp_rows db pk user_id) by (rewrite Hrows; by left).
    unfold rsvp_rows in Hin. apply list_elem_of_filter in Hin as [Hof Hin].
    split; [done | by apply rsvp_of_key]. }
  destruct Hr as [Hin Hkey]. injection Hkey as Hke Hku.
  assert (Hauth : is_authenticated u = true) by (by destruct Hwho as [-> | ->]).
  set (obj := RSVP.mk (RSVP.id r) pk user_id st (RSVP.created_at r)).
  assert (Hsave : RSVPObjects.save db obj
                  = inr (set_rsvps db (save_row RSVP.id obj (db_rsvps db))
                           (next_rsvp_id db))).
  { apply (rsvp_save_unique db r obj Hwf Hin); [done |]. unfold rsvp_key; simpl.
    congruence. }
  eexists. split.
  - unfold update_rsvp. rewrite Hauth, Hev, Hid. simpl negb. cbv iota.
    fold (rsvp_rows db pk user_id). rewrite Hrows.
    assert (Hgate : negb (user_eqb u (User (RSVP.user r)))
                    && negb (user_eqb u (User (Event.organizer event))) = false).
    { rewrite Hku. unfold user_eqb.
      destruct Hwho as [-> | ->].
      - by rewrite bool_decide_eq_true_2.
      - rewrite (bool_decide_eq_true_2 (User (Event.organizer event)
                                          = User (Event.organizer event))) by done.
        by rewrite andb_false_r. }
    rewrite Hgate.
    unfold RSVPSerializer.is_valid, RSVPSerializer.field_event,
      RSVPSerializer.field_status. cbn [d_event d_status].
    rewrite (proj2 (validate_status_Some st st)) by done.
    cbn [d_event d_status default]. unfold id. rewrite Hke, Hku. fold obj.
    by rewrite Hsave.
  - assert (Hfilter : rsvp_rows (set_rsvps db (save_row RSVP.id obj (db_rsvps db))
                                   (next_rsvp_id db)) pk user_id
                      = save_row RSVP.id obj (rsvp_rows db pk user_id)).
    { unfold rsvp_rows; simpl. apply save_row_filter. intros x Hx Hidx.
      assert (x = r).
      { apply (NoDup_map_inj RSVP.id (db_rsvps db)); [apply Hwf | done | done | done]. }
      subst x. rewrite !rsvp_of_key. unfold rsvp_key; simpl. rewrite Hke, Hku. done. }
    rewrite Hfilter, Hrows. unfold save_row; simpl. by rewrite Nat.eqb_refl.
Qed.

Section ReviewList.
Variable order_by : ∀ A : Type, (A → Z) → list A → list A.
Arguments order_by {_} _ _.

Hypothesis order_by_perm : ∀ (A : Type) (key : A → Z) (l : list A),
  order_by key l ≡ₚ l.
Hypothesis order_by_sorted : ∀ (A : Type) (key : A → Z) (l : list A),
  Sorted (λ a b, (key b ≤ key a)%Z) (order_by key l).

End ReviewList.

(** ** Posting the same review twice *)

Section RepostFacts.
Variable order_by : ∀ A : Type, (A → Z) → list A → list A.
Arguments order_by {_} _ _.

Hypothesis order_by_perm : ∀ (A : Type) (key : A → Z) (l : list A),
  order_by key l ≡ₚ l.

(** X22. Submitting the review form twice does no harm: after a
    [POST] with a rating in range, the same [POST] again is answered
    "Updated your review." and leaves the database exactly as the first
    one left it. *)
Theorem post_review_twice db now now' req pk event uid z page db' :
  reviews_wf db →
  request_user req = User uid → request_method req = "POST" →
  get_event db pk = Some event →
  rating_int (request_POST req !! "rating") = Some z →
  post_review (@order_by) db now req pk = inr (page, db') →
  post_review (@order_by) db' now' req pk
  = inr (Redirect "events_detail" (Some pk) [(SUCCESS, "Updated your review.")], db').
Proof.
  intros Hwf Hu Hm Hev Hrating Hfirst.
  destruct (post_review_spec (@order_by) order_by_perm db now req pk event uid z
              Hwf Hu Hm Hev Hrating)
    as (msg & db1 & obj & Heq & Hwf' & Hrows & _ & Hr & Hc & _).
  rewrite Hfirst in Heq. injection Heq as -> ->.
  destruct (post_review_frame (@order_by) db now req pk _ db1 Hfirst) as [Hevs _].
  destruct (get_event_id _ _ _ Hev) as [Hid _].
  assert (Hev' : get_event db1 pk = Some event).
  { unfold get_event in *. by rewrite Hevs. }
  assert (Hin : obj ∈ db_reviews db1).
  { assert (H : obj ∈ review_rows db1 pk uid) by (rewrite Hrows; by left).
    unfold review_rows in H. by apply list_elem_of_filter in H as [_ ?]. }
  unfold post_review. rewrite Hu, Hev', Hm, Hrating, Hid. simpl.
  fold (review_rows db1 pk uid). rewrite Hrows, head_order_by_singleton by done.
  do 2 f_equal.
  assert (Hobj : Review.mk (Review.id obj) (Review.event obj) (Review.user obj) z
                   (PyStr.strip (default "" (request_POST req !! "comment")))
                   (Review.created_at obj) = obj).
  { rewrite <- Hr, <- Hc. by destruct obj. }
  rewrite Hobj. unfold ReviewObjects.save.
  rewrite (save_row_same Review.id obj (db_reviews db1)); [| apply Hwf' | done].
  by destruct db1.
Qed.
End RepostFacts.

(** ** Whitespace around a rating *)

Lemma lstrip_chars_head l :
  match PyStr.lstrip_chars l with
  | c :: _ => PyStr.isspace c = false
  | [] => True
  end.
Proof.
  induction l as [| c l IH]; simpl; [done |].
  destruct (PyStr.isspace c) eqn:Hc; [done | by rewrite Hc].
Qed.

Lemma lstrip_chars_fixed l :
  match l with
  | c :: _ => PyStr.isspace c = false
  | [] => True
  end →
  PyStr.lstrip_chars l = l.
Proof. destruct l as [| c l]; simpl; [done |]. by intros ->. Qed.

Lemma lstrip_chars_app p l :
  Forall (λ c, PyStr.isspace c = true) p →
  PyStr.lstrip_chars (p ++ l) = PyStr.lstrip_chars l.
Proof. induction 1 as [| c p Hc _ IH]; simpl; [done |]. by rewrite Hc. Qed.

Lemma int_lstrip_fixed l :
  match l with
  | c :: _ => PyStr.int_space c = false
  | [] => True
  end →
  PyStr.int_lstrip l = l.
Proof. destruct l as [| c l]; simpl; [done |]. by intros ->. Qed.

Lemma int_lstrip_prefix l :
  ∃ p, l = p ++ PyStr.int_lstrip l ∧ Forall (λ c, PyStr.int_space c = true) p.
Proof.
  induction l as [| c l (p & Hp & Hall)]; simpl; [by exists [] |].
  destruct (PyStr.int_space c) eqn:Hc; [| by exists []].
  exists (c :: p). split; [simpl; by rewrite <- Hp | by constructor].
Qed.

(** What [int] skips, [strip] removes. *)
Lemma int_space_isspace c : PyStr.int_space c = true → PyStr.isspace c = true.
Proof.
  unfold PyStr.int_space, PyStr.isspace.
  generalize (nat_of_ascii c). intros n.
  rewrite !orb_true_iff, !andb_true_iff, !Nat.leb_le, !Nat.eqb_eq. lia.
Qed.

Lemma digit_not_space c d : PyStr.digit c = Some d → PyStr.isspace c = false.
Proof.
  unfold PyStr.digit, PyStr.isspace. generalize (nat_of_ascii c). intros n.
  destruct ((48 <=? n)%nat && (n <=? 57)%nat) eqn:Hd; [| done]. intros _.
  apply andb_true_iff in Hd as [H1 H2]. apply Nat.leb_le in H1, H2.
  rewrite !orb_false_iff, !andb_false_iff, !Nat.leb_gt, !Nat.eqb_neq. lia.
Qed.

(** A literal that [digits] accepts ends in a digit. *)
Lemma digits_last l : ∀ acc b z,
  PyStr.digits acc b l = Some z → l ≠ [] →
  ∃ c t d, rev l = c :: t ∧ PyStr.digit c = Some d.
Proof.
  induction l as [| c l IH]; [done |]. intros acc b z Hd _. simpl in Hd.
  assert (Hrest : ∀ acc' b', PyStr.digits acc' b' l = Some z → l ≠ [] →
                             ∃ c0 t d, rev (c :: l) = c0 :: t ∧ PyStr.digit c0 = Some d).
  { intros acc' b' Hl Hne. destruct (IH acc' b' z Hl Hne) as (c0 & t & d & Hrev & Hc0).
    exists c0, (t ++ [c]), d. simpl. by rewrite Hrev. }
  destruct (Ascii.eqb c "_").
  - destruct b; [| done]. apply (Hrest acc false Hd).
    intros ->. simpl in Hd. done.
  - destruct (PyStr.digit c) as [d |] eqn:Hc; [| done].
    destruct l as [| c' l']; [by exists c, [], d |].
    by apply (Hrest _ true Hd).
Qed.

(** A literal that [int] accepts starts and ends outside whitespace. *)
Lemma int_literal_ends s z :
  PyStr.int s = Some z →
  ∃ c l c' t,
    PyStr.int_strip (PyStr.chars s) = c :: l
    ∧ rev (c :: l) = c' :: t
    ∧ PyStr.isspace c = false ∧ PyStr.isspace c' = false.
Proof.
  unfold PyStr.int. destruct (PyStr.int_strip (PyStr.chars s)) as [| c l]; [done |].
  destruct (_ <? _)%Z; [done |].
  assert (Hsigned : PyStr.isspace c = false → PyStr.digits 0 false l ≠ None →
                    ∃ c0 l0 c' t, c :: l = c0 :: l0 ∧ rev (c0 :: l0) = c' :: t
                                  ∧ PyStr.isspace c0 = false ∧ PyStr.isspace c' = false).
  { intros Hc Hd. destruct (PyStr.digits 0 false l) as [z' |] eqn:Hl; [| done].
    assert (Hne : l ≠ []) by (intros ->; done).
    destruct (digits_last l 0%Z false z' Hl Hne) as (c' & t & d & Hrev & Hc').
    exists c, l, c', (t ++ [c]). split; [done |]. split; [simpl; by rewrite Hrev |].
    split; [done | by apply (digit_not_space c' d)]. }
  destruct (Ascii.eqb c "-") eqn:Hminus.
  - apply Ascii.eqb_eq in Hminus. intros Hz. apply Hsigned; [by subst c |].
    by destruct (PyStr.digits 0 false l).
  - destruct (Ascii.eqb c "+") eqn:Hplus.
    + apply Ascii.eqb_eq in Hplus. intros Hz. apply Hsigned; [by subst c |].
      by rewrite Hz.
    + intros Hd.
      destruct (digits_last (c :: l) 0%Z false z Hd) as (c' & t & d & Hrev & Hc'); [done |].
      exists c, l, c', t. split; [done |]. split; [done |].
      split; [| by apply (digit_not_space c' d)].
      simpl in Hd. destruct (Ascii.eqb c "_"); [done |].
      destruct (PyStr.digit c) as [d0 |] eqn:Hc; [| done]. by apply (digit_not_space c d0).
Qed.

(** Stripping leaves the literal that [int] reads as it is. *)
Lemma int_strip_after_strip s z :
  PyStr.int s = Some z →
  PyStr.int_strip (PyStr.strip_chars (PyStr.chars s)) = PyStr.int_strip (PyStr.chars s).
Proof.
  intros Hint.
  destruct (int_literal_ends s z Hint) as (c & l & c' & t & Hcore & Hrev & Hc & Hc').
  set (cs := PyStr.chars s) in *.
  assert (Hnot : ∀ x, PyStr.isspace x = false → PyStr.int_space x = false).
  { intros x Hx. destruct (PyStr.int_space x) eqn:Hi; [| done].
    apply int_space_isspace in Hi. congruence. }
  assert (Hspaces : ∀ q, Forall (λ x, PyStr.int_space x = true) q →
                         Forall (λ x, PyStr.isspace x = true) q).
  { intros q Hall. eapply Forall_impl; [exact Hall |]. intros x. apply int_space_isspace. }
  destruct (int_lstrip_prefix cs) as (p & Hp & Hpall).
  destruct (int_lstrip_prefix (rev (PyStr.int_lstrip cs))) as (q & Hq & Hqall).
  unfold PyStr.int_strip in Hcore.
  assert (Hn : PyStr.int_lstrip (rev (PyStr.int_lstrip cs)) = rev (c :: l))
    by (by rewrite <- Hcore, rev_involutive).
  rewrite Hn in Hq.
  assert (Hm : PyStr.int_lstrip cs = (c :: l) ++ rev q).
  { rewrite <- (rev_involutive (PyStr.int_lstrip cs)), Hq, rev_app_distr.
    by rewrite rev_involutive. }
  rewrite Hm in Hp.
  assert (Hstrip : PyStr.strip_chars cs = c :: l).
  { unfold PyStr.strip_chars. rewrite Hp, lstrip_chars_app by by apply Hspaces.
    rewrite (lstrip_chars_fixed ((c :: l) ++ rev q)) by done.
    rewrite rev_app_distr, rev_involutive, lstrip_chars_app by by apply Hspaces.
    rewrite (lstrip_chars_fixed (rev (c :: l))) by (by rewrite Hrev).
    apply rev_involutive. }
  rewrite Hstrip. unfold PyStr.int_strip.
  rewrite (int_lstrip_fixed (c :: l)) by (by apply Hnot).
  rewrite (int_lstrip_fixed (rev (c :: l))) by (rewrite Hrev; by apply Hnot).
  rewrite rev_involutive, Hn. by rewrite rev_involutive.
Qed.

(** X23. A rating the review form accepts is accepted, as the same
    rating, when it is stripped first: the whitespace [int] skips is
    whitespace [strip] removes.  (Not the other way round: [strip]
    removes the separators 28 to 31, which [int] refuses.) *)
Theorem rating_int_strip s z :
  rating_int (Some s) = Some z → rating_int (Some (PyStr.strip s)) = Some z.
Proof.
  intros Hr. apply rating_int_spec in Hr as (s' & [= <-] & Hint & Hrange).
  apply rating_int_spec. exists (PyStr.strip s). split; [done |]. split; [| done].
  rewrite <- Hint. unfold PyStr.int at 1 2.
  unfold PyStr.strip, PyStr.of_chars. fold (PyStr.chars (string_of_list_ascii
    (PyStr.strip_chars (PyStr.chars s)))).
  unfold PyStr.chars at 1. rewrite list_ascii_of_string_of_list_ascii.
  by rewrite (int_strip_after_strip s z Hint).
Qed.

(** ** The list page and the detail page *)

Lemma detail_denied_spec viewer e :
  detail_denied viewer e = negb (bool_decide (may_view viewer e)).
Proof.
  rewrite may_view_decide. unfold detail_denied.
  destruct (Event.is_public e); simpl; [done |].
  destruct (is_authenticated viewer); simpl; [| done].
  destruct (user_eqb viewer (User (Event.organizer e))); simpl; [done |].
  by destruct (user_in viewer (Event.invited_users_all e)).
Qed.

Section PageFacts.
Variable order_by : ∀ A : Type, (A → Z) → list A → list A.
Arguments order_by {_} _ _.

Hypothesis order_by_perm : ∀ (A : Type) (key : A → Z) (l : list A),
  order_by key l ≡ₚ l.

(** X24. The list page and the detail page of the site agree.  A stored
    event has a card on a visitor's list page exactly when its detail
    page is rendered for that visitor (not answered with the redirect
    "You are not allowed to view this private event."); and the card and
    the detail page then show the same event, the same RSVP counts, the
    same number of reviews and the same RSVP of the visitor. *)
Theorem list_page_matches_detail db req e :
  events_wf db →
  e ∈ db_events db →
  ∃ cards,
    events_list_view (@order_by) db req = RenderList cards
    ∧ ((∃ s, s ∈ cards ∧ s_event s = e)
       ↔ ∃ ctx, event_detail_view (@order_by) db req (Event.id e) = RenderDetail ctx)
    ∧ ∀ s ctx,
        s ∈ cards →
        event_detail_view (@order_by) db req (Event.id (s_event s)) = RenderDetail ctx →
        c_event ctx = s_event s
        ∧ c_rsvp_counts ctx = s_rsvp_counts s
        ∧ c_review_count ctx = s_review_count s
        ∧ RSVP.status <$> c_user_rsvp ctx = s_user_rsvp s.
Proof.
  intros Hwf Hin. eexists. split; [reflexivity |]. split.
  - unfold event_detail_view. rewrite (get_event_found db e Hwf Hin), detail_denied_spec.
    transitivity (e ∈ get_queryset (@order_by) db (request_user req)).
    + split.
      * intros (s & Hs & <-). apply list_elem_of_fmap in Hs as (ev & -> & Hev). exact Hev.
      * intros He. eexists. split; [apply list_elem_of_fmap; eexists; split; [reflexivity | exact He] |].
        reflexivity.
    + rewrite (get_queryset_elem (@order_by) order_by_perm), <- may_view_listed.
      case_bool_decide as Hv; simpl.
      * split; [intros _; by eexists | by intros _].
      * split; [intros [_ ?]; done | intros [ctx Hctx]; discriminate Hctx].
  - intros s ctx Hs Hctx.
    apply list_elem_of_fmap in Hs as (ev & -> & Hev). simpl in *.
    apply (get_queryset_elem (@order_by) order_by_perm) in Hev as [Hev _].
    unfold event_detail_view in Hctx. rewrite (get_event_found db ev Hwf Hev) in Hctx.
    destruct (detail_denied (request_user req) ev); [discriminate Hctx |].
    injection Hctx as <-. simpl. split; [done |]. split; [done |]. split; [| done].
    unfold review_count. by rewrite order_by_perm.
Qed.
End PageFacts.

(** ** The further properties at the sample data *)

Module SampleMoreFacts.
Lemma events_unique : events_wf Sample.db.
Proof.
  split.
  - apply (bool_decide_unpack _). by vm_compute.
  - intros e He. unfold Sample.db in He; simpl in He.
    rewrite !elem_of_cons, elem_of_nil in He.
    destruct He as [-> | [-> | [-> | []]]]; simpl; lia.
Qed.

Lemma invitations_ok : invited_known Sample.db.
Proof.
  intros e u He Hu. unfold Sample.db in He; simpl in He.
  rewrite !elem_of_cons, elem_of_nil in He.
  destruct He as [-> | [-> | [-> | []]]]; simpl in Hu;
    rewrite ?elem_of_cons, elem_of_nil in Hu;
    repeat (destruct Hu as [-> | Hu]; [by vm_compute |]); done.
Qed.

Lemma reviewed_rsvps_ok : rsvps_wf SampleMore.db.
Proof.
  split.
  - apply (bool_decide_unpack _). by vm_compute.
  - intros r Hr. unfold SampleMore.db, Sample.db in Hr; simpl in Hr.
    rewrite !elem_of_cons, elem_of_nil in Hr.
    destruct Hr as [-> | [-> | [-> | []]]]; simpl; lia.
  - apply (bool_decide_unpack _). by vm_compute.
Qed.

Lemma reviewed_ok : reviews_wf SampleMore.db.
Proof.
  split.
  - apply (bool_decide_unpack _). by vm_compute.
  - intros r Hr. unfold SampleMore.db in Hr; simpl in Hr.
    rewrite !elem_of_cons, elem_of_nil in Hr.
    destruct Hr as [-> | [-> | []]]; simpl; lia.
  - apply (bool_decide_unpack _). by vm_compute.
Qed.

Lemma reviewed_events_unique : events_wf SampleMore.db.
Proof. exact events_unique. Qed.

Lemma profiles_ok : profiles_wf SampleMore.pdb.
Proof.
  split.
  - apply (bool_decide_unpack _). by vm_compute.
  - intros p Hp. unfold SampleMore.pdb in Hp; simpl in Hp.
    rewrite !elem_of_cons, elem_of_nil in Hp.
    destruct Hp as [-> | [-> | []]]; simpl; lia.
  - apply (bool_decide_unpack _). by vm_compute.
Qed.
End SampleMoreFacts.

Lemma listing_matches_retrieve_sample :
  (events_wf Sample.db ∧ Sample.e3 ∈ db_events Sample.db)
  ∧ (Sample.e3 ∈ get_queryset (@order_by_desc) Sample.db (User 14)
     ↔ retrieve Sample.db (User 14) 3
       = Py.Returned (Response (EventData Sample.e3) HTTP_200_OK))
  ∧ ∀ pk, retrieve Sample.db (User 14) pk ≠ Py.Raised.
Proof.
  assert (Hin : Sample.e3 ∈ db_events Sample.db).
  { unfold Sample.db; simpl. rewrite !elem_of_cons. tauto. }
  split; [exact (conj SampleMoreFacts.events_unique Hin) |].
  exact (listing_matches_retrieve (@order_by_desc) order_by_desc_perm Sample.db (User 14)
           Sample.e3 SampleMoreFacts.events_unique Hin).
Defined.

Example retrieve_sample :
  retrieve Sample.db (User 14) 3 = Py.Returned PermissionDenied
  ∧ retrieve Sample.db AnonymousUser 3 = Py.Returned NotAuthenticated
  ∧ retrieve Sample.db (User 13) 3
    = Py.Returned (Response (EventData Sample.e3) HTTP_200_OK)
  ∧ retrieve Sample.db (User 13) 9 = Py.Returned Http404.
Proof. vm_compute. repeat split. Qed.

Lemma anonymous_listing_included_sample :
  Sample.e1 ∈ get_queryset (@order_by_desc) Sample.db AnonymousUser
  ∧ Sample.e1 ∈ get_queryset (@order_by_desc) Sample.db (User 14).
Proof.
  assert (H : Sample.e1 ∈ get_queryset (@order_by_desc) Sample.db AnonymousUser).
  { rewrite listing_sample_anonymous. by left. }
  split; [exact H |].
  exact (anonymous_listing_included (@order_by_desc) order_by_desc_perm Sample.db 14
           Sample.e1 H).
Defined.

Lemma only_organizer_writes_sample :
  (get_event Sample.db 3 = Some Sample.e3 ∧ User 12 ≠ User (Event.organizer Sample.e3))
  ∧ update Sample.db 60 (User 12) 3 true
      (mkEventData (Some "Mine") None None None None None None)
    = (PermissionDenied, Sample.db)
  ∧ destroy Sample.db (User 12) 3 = (NotDeleted PermissionDenied, Sample.db).
Proof.
  assert (Hne : User 12 ≠ User (Event.organizer Sample.e3)) by (simpl; congruence).
  split; [by split |].
  exact (only_organizer_writes Sample.db 60 (User 12) 3 true
           (mkEventData (Some "Mine") None None None None None None) Sample.e3
           eq_refl Hne).
Defined.

Lemma destroy_cascades_sample :
  get_event SampleMore.db 1 = Some Sample.e1
  ∧ ∃ db',
      destroy SampleMore.db (User 10) 1 = (Deleted HTTP_204_NO_CONTENT, db')
      ∧ get_event db' 1 = None
      ∧ (∀ r, r ∈ db_rsvps db' → RSVP.event r ≠ 1%nat)
      ∧ (∀ r, r ∈ db_reviews db' → Review.event r ≠ 1%nat)
      ∧ rsvps_wf db' ∧ reviews_wf db' ∧ events_wf db'.
Proof.
  split; [reflexivity |].
  destruct (destroy_cascades SampleMore.db 1 Sample.e1 SampleMoreFacts.reviewed_rsvps_ok
              SampleMoreFacts.reviewed_ok SampleMoreFacts.reviewed_events_unique eq_refl)
    as (db' & H1 & H2 & H3 & H4 & _ & H6).
  exists db'. exact (conj H1 (conj H2 (conj H3 (conj H4 H6)))).
Defined.

Example destroy_sample :
  destroy SampleMore.db (User 10) 1
  = (Deleted HTTP_204_NO_CONTENT,
     mkDB [Sample.e2; Sample.e3] [Sample.r3] [Review.mk 2 3 12 5 "" 10]
       (usernames Sample.db) 4 4 3).
Proof. vm_compute. reflexivity. Qed.

Lemma update_rsvp_keeps_constraints_sample :
  (rsvps_wf Sample.db ∧ statuses_valid Sample.db)
  ∧ rsvps_wf (snd (update_rsvp Sample.db (User 12) 1 12
                     (mkRsvpData (Some 2%nat) (Some "Maybe"))))
  ∧ statuses_valid (snd (update_rsvp Sample.db (User 12) 1 12
                           (mkRsvpData (Some 2%nat) (Some "Maybe")))).
Proof.
  split; [exact (conj SampleFacts.rsvps_ok SampleFacts.statuses_ok) |].
  destruct (update_rsvp_keeps_constraints Sample.db (User 12) 1 12
              (mkRsvpData (Some 2%nat) (Some "Maybe"))
              SampleFacts.rsvps_ok SampleFacts.statuses_ok) as (H1 & H2 & _).
  exact (conj H1 H2).
Defined.

Lemma update_rsvp_authorization_sample :
  (rsvps_wf Sample.db ∧ get_event Sample.db 1 = Some Sample.e1
   ∧ rsvp_rows Sample.db 1 12 ≠ []
   ∧ User 13 ≠ User 12 ∧ User 13 ≠ User (Event.organizer Sample.e1))
  ∧ update_rsvp Sample.db (User 13) 1 12 (mkRsvpData None (Some "Maybe"))
    = (Response (Detail "Not allowed to update this RSVP.") HTTP_403_FORBIDDEN, Sample.db).
Proof.
  assert (Hrows : rsvp_rows Sample.db 1 12 ≠ []) by (vm_compute; discriminate).
  assert (Hne : User 13 ≠ User 12 ∧ User 13 ≠ User (Event.organizer Sample.e1))
    by (split; simpl; congruence).
  split; [exact (conj SampleFacts.rsvps_ok (conj eq_refl (conj Hrows Hne))) |].
  exact (proj2 (proj2 (update_rsvp_authorization Sample.db (User 13) 1 12
                         (mkRsvpData None (Some "Maybe")) Sample.e1
                         SampleFacts.rsvps_ok eq_refl eq_refl)
                  Hrows) Hne).
Defined.

Lemma rsvp_entry_points_agree_sample :
  (request_user SampleMore.rsvp_form = User 13
   ∧ request_method SampleMore.rsvp_form = "POST")
  ∧ match rsvp_create_or_update Sample.db 70 SampleMore.rsvp_form 2 with
    | inr (_, db') =>
        snd (rsvp Sample.db 70 (User 13) 2
               (mkRsvpData None (request_POST SampleMore.rsvp_form !! "status")))
        = db'
    | inl e =>
        rsvp Sample.db 70 (User 13) 2
          (mkRsvpData None (request_POST SampleMore.rsvp_form !! "status"))
        = (ServerError e, Sample.db)
    end.
Proof.
  split; [by split |].
  exact (proj1 (rsvp_entry_points_agree Sample.db 70 SampleMore.rsvp_form 2 13 eq_refl)
           eq_refl).
Defined.

Example rsvp_form_sample :
  rsvp_create_or_update Sample.db 70 SampleMore.rsvp_form 2
  = inr (Redirect "events_detail" (Some 2%nat) [(SUCCESS, "RSVP set to 'Maybe'.")],
         set_rsvps Sample.db (db_rsvps Sample.db ++ [RSVP.mk 4 2 13 "Maybe" 70]) 5).
Proof. vm_compute. reflexivity. Qed.

Lemma post_review_upsert_sample :
  (reviews_wf Sample.db ∧ get_event Sample.db 1 = Some Sample.e1
   ∧ rating_int (request_POST Sample.review_form !! "rating") = Some 4%Z)
  ∧ ∃ msg db' obj,
      post_review (@order_by_desc) Sample.db 30 Sample.review_form 1
      = inr (Redirect "events_detail" (Some 1%nat) [(SUCCESS, msg)], db')
      ∧ reviews_wf db'
      ∧ review_rows db' 1 14 = [obj]
      ∧ obj = Review.mk 1 1 14 4 "fine" 30.
Proof.
  assert (Hrating : rating_int (request_POST Sample.review_form !! "rating") = Some 4%Z)
    by (vm_compute; reflexivity).
  split; [exact (conj SampleFacts.reviews_ok (conj eq_refl Hrating)) |].
  destruct (post_review_upsert (@order_by_desc) order_by_desc_perm Sample.db 30
              Sample.review_form 1 Sample.e1 14 4%Z SampleFacts.reviews_ok
              eq_refl eq_refl eq_refl Hrating)
    as (msg & db' & obj & H1 & H2 & H3 & _ & H5).
  exists msg, db', obj. split; [exact H1 |]. split; [exact H2 |]. split; [exact H3 |].
  rewrite H5. vm_compute. reflexivity.
Defined.


Lemma reviews_keep_constraints_sample :
  reviews_wf SampleMore.db
  ∧ fst (reviews (@order_by_desc) SampleMore.db 80 (User 12) 1
           (Some (mkReviewData (Some 4%Z) (Some "again"))))
    = ServerError IntegrityError
  ∧ reviews_wf (snd (reviews (@order_by_desc) SampleMore.db 80 (User 12) 1
                       (Some (mkReviewData (Some 4%Z) (Some "again")))))
  ∧ reviews_wf (snd (reviews (@order_by_desc) SampleMore.db 80 (User 14) 1
                       (Some (mkReviewData (Some 4%Z) (Some "first")))))
  ∧ match post_review (@order_by_desc) SampleMore.db 80 Sample.review_form 1 with
    | inr (_, db') =>
        reviews_wf db' ∧ db_events db' = db_events SampleMore.db
        ∧ db_rsvps db' = db_rsvps SampleMore.db
    | inl _ => True
    end.
Proof.
  split; [exact SampleMoreFacts.reviewed_ok |].
  split; [vm_compute; reflexivity |].
  destruct (reviews_keep_constraints (@order_by_desc) order_by_desc_perm SampleMore.db 80
              SampleMoreFacts.reviewed_ok) as [Hapi Hform].
  split; [exact (proj1 (Hapi (User 12) 1%nat _)) |].
  split; [exact (proj1 (Hapi (User 14) 1%nat _)) |].
  exact (Hform Sample.review_form 1%nat).
Defined.

Lemma rsvp_counts_by_label_sample :
  statuses_valid Sample.db
  ∧ rsvp_counts (@order_by_desc) Sample.db Sample.e1
    = counts_of (labelled Sample.db Sample.e1 "Going") (labelled Sample.db Sample.e1 "Maybe")
        (labelled Sample.db Sample.e1 "Not Going").
Proof.
  split; [exact SampleFacts.statuses_ok |].
  exact (rsvp_counts_by_label (@order_by_desc) order_by_desc_perm Sample.db Sample.e1
           SampleFacts.statuses_ok).
Defined.

Example labelled_sample :
  labelled Sample.db Sample.e1 "Going" = 1%nat
  ∧ labelled Sample.db Sample.e1 "Maybe" = 0%nat
  ∧ labelled Sample.db Sample.e1 "Not Going" = 1%nat.
Proof. vm_compute. repeat split. Qed.

Lemma rsvp_then_detail_sample :
  (rsvps_wf Sample.db
   ∧ fst (rsvp Sample.db 70 (User 13) 2 (mkRsvpData None (Some "Maybe")))
     = Response (RSVPData (RSVP.mk 4 2 13 "Maybe" 70)) HTTP_201_CREATED)
  ∧ ∃ ctx,
      event_detail_view (@order_by_desc)
        (snd (rsvp Sample.db 70 (User 13) 2 (mkRsvpData None (Some "Maybe"))))
        SampleMore.rsvp_form 2
      = RenderDetail ctx
      ∧ Event.id (c_event ctx) = 2%nat
      ∧ c_user_rsvp ctx = Some (RSVP.mk 4 2 13 "Maybe" 70)
      ∧ Some "Maybe" = Some (RSVP.status (RSVP.mk 4 2 13 "Maybe" 70)).
Proof.
  assert (Hcall : rsvp Sample.db 70 (User 13) 2 (mkRsvpData None (Some "Maybe"))
                  = (Response (RSVPData (RSVP.mk 4 2 13 "Maybe" 70)) HTTP_201_CREATED,
                     snd (rsvp Sample.db 70 (User 13) 2 (mkRsvpData None (Some "Maybe")))))
    by (vm_compute; reflexivity).
  split; [split; [exact SampleFacts.rsvps_ok | vm_compute; reflexivity] |].
  exact (rsvp_then_detail (@order_by_desc) order_by_desc_perm Sample.db 70 13 2
           (mkRsvpData None (Some "Maybe")) (RSVP.mk 4 2 13 "Maybe" 70) HTTP_201_CREATED
           _ SampleMore.rsvp_form SampleFacts.rsvps_ok Hcall eq_refl).
Defined.

Lemma create_stores_event_sample :
  (events_wf Sample.db ∧ invited_known Sample.db)
  ∧ fst (create Sample.db 90 (User 10)
           (mkEventData (Some "Gala") None (Some "Hall") (Some 100%Z) (Some 200%Z)
              (Some false) (Some [12; 13]%nat)))
    = Response (EventData (Event.mk 4 "Gala" "" 10 "Hall" 100 200 false [12; 13] 90 90))
        HTTP_201_CREATED
  ∧ get_event
      (snd (create Sample.db 90 (User 10)
              (mkEventData (Some "Gala") None (Some "Hall") (Some 100%Z) (Some 200%Z)
                 (Some false) (Some [12; 13]%nat))))
      4
    = Some (Event.mk 4 "Gala" "" 10 "Hall" 100 200 false [12; 13] 90 90)
  ∧ events_wf
      (snd (create Sample.db 90 (User 10)
              (mkEventData (Some "Gala") None (Some "Hall") (Some 100%Z) (Some 200%Z)
                 (Some false) (Some [12; 13]%nat))))
  ∧ invited_known
      (snd (create Sample.db 90 (User 10)
              (mkEventData (Some "Gala") None (Some "Hall") (Some 100%Z) (Some 200%Z)
                 (Some false) (Some [12; 13]%nat)))).
Proof.
  split; [exact (conj SampleMoreFacts.events_unique SampleMoreFacts.invitations_ok) |].
  split; [vm_compute; reflexivity |].
  pose proof (create_stores_event Sample.db 90 10
                (mkEventData (Some "Gala") None (Some "Hall") (Some 100%Z) (Some 200%Z)
                   (Some false) (Some [12; 13]%nat))
                SampleMoreFacts.events_unique SampleMoreFacts.invitations_ok) as H.
  set (call := create Sample.db 90 (User 10) _) in *.
  assert (Hc : call
               = (Response
                    (EventData (Event.mk 4 "Gala" "" 10 "Hall" 100 200 false [12; 13] 90 90))
                    HTTP_201_CREATED, snd call))
    by (vm_compute; reflexivity).
  rewrite Hc in H. destruct H as (_ & _ & _ & _ & H5 & _ & H7 & H8 & _).
  exact (conj H5 (conj H7 H8)).
Defined.



Example invite_form_sample :
  ∃ db',
    create_event_view Sample.parse id Sample.db 90 SampleMore.invite_form
    = inr (Redirect "events_detail" (Some 4%nat)
             [not_found_warning "ghost"; (SUCCESS, "Event created.")], db')
    ∧ get_event db' 4
      = Some (Event.mk 4 "Gala" "" 10 "" 100 200 false [12; 13] 90 90).
Proof. eexists. split; vm_compute; reflexivity. Qed.

Lemma profile_signal_one_profile_sample :
  (profiles_wf SampleMore.pdb ∧ profiles_of SampleMore.pdb 13 = [])
  ∧ (∃ pdb',
       create_or_update_user_profile SampleMore.pdb 13 false = inr pdb'
       ∧ profiles_wf pdb'
       ∧ ∃ p, profiles_of pdb' 13 = [p])
  ∧ ∃ pdb',
      create_or_update_user_profile SampleMore.pdb 13 true = inr pdb'
      ∧ profiles_wf pdb'
      ∧ ∃ p, profiles_of pdb' 13 = [p].
Proof.
  assert (Hnone : profiles_of SampleMore.pdb 13 = []) by (vm_compute; reflexivity).
  split; [exact (conj SampleMoreFacts.profiles_ok Hnone) |].
  destruct (profile_signal_one_profile SampleMore.pdb 13 SampleMoreFacts.profiles_ok)
    as ((pdb1 & H1 & H2 & H3 & _) & Hcreated & _).
  split; [exists pdb1; exact (conj H1 (conj H2 H3)) |].
  destruct (Hcreated Hnone) as (pdb2 & G1 & G2 & G3 & _).
  exists pdb2. exact (conj G1 (conj G2 G3)).
Defined.

Example profile_signal_sample :
  create_or_update_user_profile SampleMore.pdb 10 true = inl IntegrityError
  ∧ create_or_update_user_profile SampleMore.pdb 10 false = inr SampleMore.pdb
  ∧ create_or_update_user_profile SampleMore.pdb 13 false
    = inr (mkProfileDB (profiles SampleMore.pdb ++ [UserProfile.mk 3 13 "" "" "" None]) 4).
Proof. vm_compute. repeat split. Qed.

Lemma profile_view_ensures_profile_sample :
  profiles_wf SampleMore.pdb
  ∧ ∃ ctx pdb',
      profile_view (@order_by_desc) Sample.db SampleMore.pdb SampleMore.profile_request
      = inr (Some ctx, pdb')
      ∧ profiles_wf pdb'
      ∧ profiles_of pdb' 13 = [pc_profile ctx]
      ∧ profile_view (@order_by_desc) Sample.db pdb' SampleMore.profile_request
        = inr (Some ctx, pdb')
      ∧ (∀ e, e ∈ pc_invited_events ctx
              ↔ e ∈ db_events Sample.db ∧ 13%nat ∈ Event.invited_users e).
Proof.
  split; [exact SampleMoreFacts.profiles_ok |].
  destruct (profile_view_ensures_profile (@order_by_desc) order_by_desc_perm
              order_by_desc_sorted Sample.db SampleMore.pdb SampleMore.profile_request
              SampleMoreFacts.profiles_ok)
    as (ctx & pdb' & H1 & H2 & H3 & _ & H5 & _ & H7 & _).
  exists ctx, pdb'. exact (conj H1 (conj H2 (conj H3 (conj H5 H7)))).
Defined.

Lemma rsvp_keeps_constraints_sample :
  (rsvps_wf Sample.db ∧ statuses_valid Sample.db)
  ∧ rsvps_wf (snd (rsvp Sample.db 70 (User 12) 1 (mkRsvpData None (Some "Maybe"))))
  ∧ statuses_valid (snd (rsvp Sample.db 70 (User 12) 1 (mkRsvpData None (Some "Maybe"))))
  ∧ ∃ page db',
      rsvp_create_or_update Sample.db 70 SampleMore.rsvp_form 2 = inr (page, db')
      ∧ rsvps_wf db' ∧ statuses_valid db'.
Proof.
  split; [exact (conj SampleFacts.rsvps_ok SampleFacts.statuses_ok) |].
  destruct (rsvp_keeps_constraints Sample.db 70 SampleFacts.rsvps_ok SampleFacts.statuses_ok)
    as [Hapi Hform].
  destruct (Hapi (User 12) 1%nat (mkRsvpData None (Some "Maybe"))) as (H1 & H2 & _).
  split; [exact H1 |]. split; [exact H2 |].
  destruct (Hform SampleMore.rsvp_form 2%nat) as (page & db' & G1 & G2 & G3 & _).
  exists page, db'. exact (conj G1 (conj G2 G3)).
Defined.

Lemma update_rsvp_changes_status_sample :
  (rsvps_wf Sample.db ∧ get_event Sample.db 1 = Some Sample.e1
   ∧ rsvp_rows Sample.db 1 12 = [Sample.r1]
   ∧ valid_status "Maybe")
  ∧ ∃ db',
      update_rsvp Sample.db (User 10) 1 12 (mkRsvpData None (Some "Maybe"))
      = (Response (RSVPData (RSVP.mk 1 1 12 "Maybe" 6)) HTTP_200_OK, db')
      ∧ rsvp_rows db' 1 12 = [RSVP.mk 1 1 12 "Maybe" 6].
Proof.
  assert (Hrows : rsvp_rows Sample.db 1 12 = [Sample.r1]) by (vm_compute; reflexivity).
  assert (Hst : valid_status "Maybe").
  { unfold valid_status; simpl. rewrite !elem_of_cons. tauto. }
  split; [exact (conj SampleFacts.rsvps_ok (conj eq_refl (conj Hrows Hst))) |].
  exact (update_rsvp_changes_status Sample.db (User 10) 1 12 Sample.e1 Sample.r1 "Maybe"
           SampleFacts.rsvps_ok eq_refl Hrows (or_intror eq_refl) Hst).
Defined.


Lemma post_review_twice_sample :
  (reviews_wf Sample.db
   ∧ post_review (@order_by_desc) Sample.db 30 Sample.review_form 1
     = inr (Redirect "events_detail" (Some 1%nat) [(SUCCESS, "Review posted.")],
            set_reviews Sample.db [Review.mk 1 1 14 4 "fine" 30] 2))
  ∧ post_review (@order_by_desc) (set_reviews Sample.db [Review.mk 1 1 14 4 "fine" 30] 2)
      31 Sample.review_form 1
    = inr (Redirect "events_detail" (Some 1%nat) [(SUCCESS, "Updated your review.")],
           set_reviews Sample.db [Review.mk 1 1 14 4 "fine" 30] 2).
Proof.
  assert (Hrating : rating_int (request_POST Sample.review_form !! "rating") = Some 4%Z)
    by (vm_compute; reflexivity).
  assert (Hfirst : post_review (@order_by_desc) Sample.db 30 Sample.review_form 1
                   = inr (Redirect "events_detail" (Some 1%nat)
                            [(SUCCESS, "Review posted.")],
                          set_reviews Sample.db [Review.mk 1 1 14 4 "fine" 30] 2))
    by (vm_compute; reflexivity).
  split; [exact (conj SampleFacts.reviews_ok Hfirst) |].
  exact (post_review_twice (@order_by_desc) order_by_desc_perm Sample.db 30 31
           Sample.review_form 1 Sample.e1 14 4%Z _ _ SampleFacts.reviews_ok
           eq_refl eq_refl eq_refl Hrating Hfirst).
Defined.

Lemma list_page_matches_detail_sample :
  (events_wf Sample.db ∧ Sample.e3 ∈ db_events Sample.db)
  ∧ ∃ cards,
      events_list_view (@order_by_desc) Sample.db SampleMore.profile_request
      = RenderList cards
      ∧ ((∃ s, s ∈ cards ∧ s_event s = Sample.e3)
         ↔ ∃ ctx, event_detail_view (@order_by_desc) Sample.db SampleMore.profile_request 3
                  = RenderDetail ctx).
Proof.
  assert (Hin : Sample.e3 ∈ db_events Sample.db).
  { unfold Sample.db; simpl. rewrite !elem_of_cons. tauto. }
  split; [exact (conj SampleMoreFacts.events_unique Hin) |].
  destruct (list_page_matches_detail (@order_by_desc) order_by_desc_perm Sample.db
              SampleMore.profile_request Sample.e3 SampleMoreFacts.events_unique Hin)
    as (cards & H1 & H2 & _).
  exists cards. exact (conj H1 H2).
Defined.

Lemma rating_int_strip_sample :
  rating_int (Some " 4 ") = Some 4%Z ∧ rating_int (Some (PyStr.strip " 4 ")) = Some 4%Z.
Proof.
  assert (H : rating_int (Some " 4 ") = Some 4%Z) by (vm_compute; reflexivity).
  split; [exact H |]. exact (rating_int_strip " 4 " 4%Z H).
Defined.

Example strip_then_int_accepts_more :
  rating_int (Some (String (ascii_of_nat 31) "4")) = None
  ∧ rating_int (Some (PyStr.strip (String (ascii_of_nat 31) "4"))) = Some 4%Z.
Proof. vm_compute. split; reflexivity. Qed.
